(** * DBLens migration core: a shallow embedding and its verified properties

    The development follows the Python sources of the backend:

    - [app/utils/data_type_mapper.py]   (module [DataTypeMapper])
    - [app/utils/migration_engine.py]   (modules [Resolver], [ValueConverter], [MigrationJob])
    - [app/utils/schema_inspector.py]   (module [SchemaInspector])
    - [app/api/routes/migrations.py]    (module [MigrationJob])

    Python dictionaries are finite maps ([gmap]), Python sets are finite
    sets ([gset]) together with an arbitrary iteration order, exceptions
    are an explicit result type, and every database round trip is a field
    of a record describing how the server answers. *)

From Stdlib Require Import ZArith NArith QArith Ascii String List Lia Bool.
From Stdlib.Strings Require Import Byte.
From Stdlib Require OrderedTypeEx Sorted.
From stdpp Require Import gmap strings list fin_maps pretty.

Open Scope string_scope.

(* ===================================================================== *)
(** * Part I: definitions                                                 *)
(* ===================================================================== *)

(** ** Python runtime: exceptions, dynamic values, string methods *)

Module Py.

(** The exception classes that the modelled code raises or catches.
    [UnicodeDecodeError] is a subclass of [ValueError]; all of them are
    subclasses of [Exception]. *)
Inductive exn_class := Exception | ValueError | TypeError | UnicodeDecodeError.

Record exn := mk_exn { exn_cls : exn_class; exn_msg : string }.

Inductive Res (A : Type) : Type :=
| Ok (a : A)
| Raise (e : exn).
Arguments Ok {A} a.
Arguments Raise {A} e.

Definition bind {A B} (m : Res A) (k : A -> Res B) : Res B :=
  match m with
  | Ok a => k a
  | Raise e => Raise e
  end.

Definition raise {A} (c : exn_class) (msg : string) : Res A :=
  Raise (mk_exn c msg).

(** [try: m except Exception as e: h e] *)
Definition try_except {A} (m : Res A) (h : exn -> Res A) : Res A :=
  match m with
  | Ok a => Ok a
  | Raise e => h e
  end.

Fixpoint mapM {A B} (f : A -> Res B) (l : list A) : Res (list B) :=
  match l with
  | [] => Ok []
  | x :: l' =>
      bind (f x) (fun y => bind (mapM f l') (fun ys => Ok (y :: ys)))
  end.

(** Values stored in the dictionaries that describe columns. *)
Inductive PyVal := PNone | PBool (b : bool) | PInt (z : Z) | PStr (s : string).

#[global] Instance PyVal_eq_dec : EqDecision PyVal.
Proof. solve_decision. Defined.

(** [str(v)] *)
Definition str (v : PyVal) : string :=
  match v with
  | PNone => "None"
  | PBool true => "True"
  | PBool false => "False"
  | PInt z => pretty z
  | PStr s => s
  end.

(** Truth value of [v], as tested by [if v] and [not v]. *)
Definition truthy (v : PyVal) : bool :=
  match v with
  | PNone => false
  | PBool b => b
  | PInt z => negb (z =? 0)%Z
  | PStr s => negb (s =? "")
  end.

Definition chr (n : nat) : ascii := ascii_of_nat n.

(** The one-character string holding a double quote. *)
Definition dquote : string := String (chr 34) EmptyString.

(** [c.lower()] on the ASCII range. *)
Definition lower_char (c : ascii) : ascii :=
  let n := nat_of_ascii c in
  if Nat.leb 65 n && Nat.leb n 90 then ascii_of_nat (n + 32) else c.

(** [s.lower()] *)
Fixpoint lower (s : string) : string :=
  match s with
  | EmptyString => EmptyString
  | String c s' => String (lower_char c) (lower s')
  end.

Fixpoint startswith (p s : string) : bool :=
  match p, s with
  | EmptyString, _ => true
  | String a p', String b s' => Ascii.eqb a b && startswith p' s'
  | String _ _, EmptyString => false
  end.

(** [s.replace(old, new)] for a non-empty [old]: occurrences are replaced
    from left to right and do not overlap; [skip] counts the characters of
    the occurrence just replaced that are still to be dropped. *)
Fixpoint replace_from (old new : string) (skip : nat) (s : string) : string :=
  match s with
  | EmptyString => EmptyString
  | String c s' =>
      match skip with
      | S k => replace_from old new k s'
      | O =>
          if startswith old s
          then new +:+ replace_from old new (String.length old - 1) s'
          else String c (replace_from old new 0 s')
      end
  end.

Definition replace (old new s : string) : string := replace_from old new 0 s.

(** Characters removed by [s.strip()] within the ASCII range.  The white
    space outside ASCII that it also removes (U+0085, U+00A0 and the
    like) is left out. *)
Definition is_space (c : ascii) : bool :=
  let n := nat_of_ascii c in
  (Nat.leb 9 n && Nat.leb n 13) || (Nat.leb 28 n && Nat.leb n 32).

Fixpoint lstrip_list (l : list ascii) : list ascii :=
  match l with
  | [] => []
  | c :: l' => if is_space c then lstrip_list l' else l
  end.

(** [s.strip()] *)
Definition strip (s : string) : string :=
  string_of_list_ascii
    (rev (lstrip_list (rev (lstrip_list (list_ascii_of_string s))))).

(** [c in s] for a one-character [c]. *)
Fixpoint contains_char (c : ascii) (s : string) : bool :=
  match s with
  | EmptyString => false
  | String d s' => Ascii.eqb c d || contains_char c s'
  end.

(** [s.split(c)[0]]: the part of [s] before the first [c]. *)
Fixpoint split_head (c : ascii) (s : string) : string :=
  match s with
  | EmptyString => EmptyString
  | String d s' => if Ascii.eqb c d then EmptyString else String d (split_head c s')
  end.

Fixpoint find_char (c : ascii) (s : string) : option nat :=
  match s with
  | EmptyString => None
  | String d s' =>
      if Ascii.eqb c d then Some 0 else option_map S (find_char c s')
  end.

(** [s.index(c)]: raises [ValueError] when [c] does not occur. *)
Definition index (c : ascii) (s : string) : Res nat :=
  match find_char c s with
  | Some i => Ok i
  | None => raise ValueError "substring not found"
  end.

(** [s[i:j]] for non-negative [i], [j]. *)
Definition slice (s : string) (i j : nat) : string := substring i (j - i) s.

(** [sep.join(l)] *)
Fixpoint join (sep : string) (l : list string) : string :=
  match l with
  | [] => ""
  | [x] => x
  | x :: l' => x +:+ sep +:+ join sep l'
  end.

(** [x in l] for a list of strings. *)
Definition in_list (x : string) (l : list string) : bool :=
  existsb (String.eqb x) l.

End Py.

#[global] Instance res_ret : MRet Py.Res := fun A a => Py.Ok a.
#[global] Instance res_bind : MBind Py.Res := fun A B k m => Py.bind m k.

(** ** [data_type_mapper.py] *)

Module DataTypeMapper.
Import Py.

Definition MYSQL_TO_POSTGRESQL : gmap string string :=
  list_to_map
    [ ("tinyint", "smallint"); ("tinyint(1)", "boolean");
      ("smallint", "smallint"); ("mediumint", "integer");
      ("int", "integer"); ("integer", "integer"); ("bigint", "bigint");
      ("float", "real"); ("double", "double precision");
      ("decimal", "decimal"); ("numeric", "numeric");
      ("char", "char"); ("varchar", "varchar");
      ("tinytext", "text"); ("text", "text"); ("mediumtext", "text");
      ("longtext", "text");
      ("binary", "bytea"); ("varbinary", "bytea"); ("tinyblob", "bytea");
      ("blob", "bytea"); ("mediumblob", "bytea"); ("longblob", "bytea");
      ("date", "date"); ("datetime", "timestamp");
      ("timestamp", "timestamp"); ("time", "time"); ("year", "smallint");
      ("enum", "varchar"); ("set", "text"); ("json", "json");
      ("boolean", "boolean") ].

Definition POSTGRESQL_TO_MYSQL : gmap string string :=
  list_to_map
    [ ("smallint", "smallint"); ("integer", "int"); ("bigint", "bigint");
      ("serial", "int auto_increment");
      ("bigserial", "bigint auto_increment");
      ("real", "float"); ("double precision", "double");
      ("decimal", "decimal"); ("numeric", "decimal");
      ("char", "char"); ("varchar", "varchar"); ("text", "text");
      ("character varying", "varchar"); ("bytea", "blob");
      ("date", "date"); ("timestamp", "datetime");
      ("timestamp without time zone", "datetime");
      ("timestamp with time zone", "datetime");
      ("time", "time"); ("time without time zone", "time");
      ("time with time zone", "time");
      ("boolean", "tinyint(1)"); ("json", "json"); ("jsonb", "json");
      ("uuid", "char(36)") ].

Definition SQLITE_TYPE_MAP : gmap string string :=
  list_to_map
    [ ("integer", "INTEGER"); ("bigint", "INTEGER"); ("smallint", "INTEGER");
      ("tinyint", "INTEGER"); ("int", "INTEGER"); ("serial", "INTEGER");
      ("bigserial", "INTEGER");
      ("varchar", "TEXT"); ("char", "TEXT"); ("text", "TEXT");
      ("mediumtext", "TEXT"); ("longtext", "TEXT");
      ("character varying", "TEXT");
      ("decimal", "REAL"); ("numeric", "REAL"); ("float", "REAL");
      ("double", "REAL"); ("real", "REAL"); ("double precision", "REAL");
      ("boolean", "INTEGER"); ("bool", "INTEGER"); ("tinyint(1)", "INTEGER");
      ("date", "TEXT"); ("datetime", "TEXT"); ("timestamp", "TEXT");
      ("time", "TEXT");
      ("blob", "BLOB"); ("bytea", "BLOB"); ("binary", "BLOB") ].

(** The dictionaries local to the DDL generators. *)
Definition sqlite_to_pg : gmap string string :=
  list_to_map
    [ ("integer", "integer"); ("text", "text");
      ("real", "double precision"); ("blob", "bytea") ].

Definition mongo_to_pg : gmap string string :=
  list_to_map
    [ ("string", "text"); ("str", "text");
      ("integer", "integer"); ("int", "integer");
      ("double", "double precision"); ("float", "double precision");
      ("boolean", "boolean"); ("bool", "boolean");
      ("date", "timestamp"); ("datetime", "timestamp");
      ("object", "jsonb"); ("dict", "jsonb");
      ("array", "jsonb"); ("list", "jsonb");
      ("objectid", "varchar(24)") ].

Definition sqlite_to_mysql (is_primary_key : bool) : gmap string string :=
  list_to_map
    [ ("integer", "INT");
      ("text", if is_primary_key then "VARCHAR(255)" else "TEXT");
      ("real", "DOUBLE"); ("blob", "BLOB") ].

Definition mongo_to_mysql : gmap string string :=
  list_to_map
    [ ("string", "TEXT"); ("str", "TEXT");
      ("integer", "INT"); ("int", "INT");
      ("double", "DOUBLE"); ("float", "DOUBLE");
      ("boolean", "TINYINT(1)"); ("bool", "TINYINT(1)");
      ("date", "DATETIME"); ("datetime", "DATETIME");
      ("object", "JSON"); ("dict", "JSON");
      ("array", "JSON"); ("list", "JSON");
      ("objectid", "VARCHAR(24)") ].

(** [d.get(k, default)] *)
Definition dict_get {V} (d : gmap string V) (k : string) (default : V) : V :=
  match d !! k with
  | Some v => v
  | None => default
  end.

(** A column descriptor is a dictionary. *)
Definition get_column_data_type (col : gmap string PyVal) : string :=
  match col !! "data_type", col !! "type", col !! "column_type", col !! "datatype" with
  | Some v, _, _, _ => str v
  | None, Some v, _, _ => str v
  | None, None, Some v, _ => str v
  | None, None, None, Some v => str v
  | None, None, None, None => "text"
  end.

Definition map_to_sqlite (source_type source_db : string) : string :=
  let source_type_lower := split_head "(" (lower source_type) in
  dict_get SQLITE_TYPE_MAP source_type_lower "TEXT".

(** [col.get("name", col.get("column_name", "unknown"))] *)
Definition column_name (col : gmap string PyVal) : PyVal :=
  dict_get col "name" (dict_get col "column_name" (PStr "unknown")).

(** [not col.get("is_nullable", True)] *)
Definition not_nullable (col : gmap string PyVal) : bool :=
  negb (truthy (dict_get col "is_nullable" (PBool true))).

(** The type chosen for one column by [get_create_table_sql_postgresql]
    (the body of its loop up to the assignment of [col_def]). *)
Definition postgresql_col_type
    (source_db : string) (col_name : PyVal) (source_type : string) : Res string :=
  if source_db =? "mysql" then
    let cleaned_type :=
      strip (replace " zerofill" "" (replace " unsigned" "" (lower source_type))) in
    let base_type := split_head "(" cleaned_type in
    let col_type := dict_get MYSQL_TO_POSTGRESQL base_type source_type in
    if contains_char "(" source_type
       && in_list col_type ["char"; "varchar"; "decimal"; "numeric"]
    then
      if in_list base_type ["enum"; "set"] then
        Ok (if col_type =? "varchar" then "varchar(255)" else col_type)
      else
        i ← index "(" source_type;
        j ← index ")" source_type;
        Ok (col_type +:+ slice source_type i (j + 1))
    else Ok col_type
  else if source_db =? "sqlite" then
    Ok (dict_get sqlite_to_pg (lower source_type) "text")
  else if source_db =? "mongodb" then
    let col_type := dict_get mongo_to_pg (lower source_type) "text" in
    Ok (if bool_decide (col_name = PStr "_id") then "varchar(255)" else col_type)
  else Ok source_type.

Definition quote (q : string) (v : PyVal) : string := q +:+ str v +:+ q.

Definition primary_key_clause (q : string) (primary_keys : list string) : list string :=
  match primary_keys with
  | [] => []
  | _ => ["PRIMARY KEY (" +:+ join ", " (map (fun pk => q +:+ pk +:+ q) primary_keys) +:+ ")"]
  end.

Definition get_create_table_sql_postgresql
    (table_name : string) (columns : list (gmap string PyVal))
    (primary_keys : list string) (source_db : string) : Res string :=
  match columns with
  | [] => raise Exception ("Cannot create table " +:+ table_name +:+ ": no columns defined")
  | _ =>
      col_defs ← mapM (fun col =>
          let col_name := column_name col in
          let source_type := get_column_data_type col in
          col_type ← postgresql_col_type source_db col_name source_type;
          let col_def := quote dquote col_name +:+ " " +:+ col_type in
          Ok (if not_nullable col then col_def +:+ " NOT NULL" else col_def))
        columns;
      let col_defs := (col_defs ++ primary_key_clause dquote primary_keys)%list in
      Ok ("CREATE TABLE " +:+ dquote +:+ table_name +:+ dquote +:+ " (" +:+ String (chr 10) "  "
          +:+ join ("," +:+ String (chr 10) "  ") col_defs
          +:+ String (chr 10) ")")
  end.

(** The type chosen for one column by [get_create_table_sql_mysql]. *)
Definition mysql_col_type
    (source_db : string) (col_name : PyVal) (is_primary_key : bool)
    (source_type : string) : string :=
  if source_db =? "postgresql" then
    let base_type := split_head "(" (lower source_type) in
    let col_type := dict_get POSTGRESQL_TO_MYSQL base_type source_type in
    if (col_type =? "varchar") && negb (contains_char "(" col_type) then "varchar(255)"
    else if (col_type =? "char") && negb (contains_char "(" col_type) then "char(255)"
    else col_type
  else if source_db =? "sqlite" then
    dict_get (sqlite_to_mysql is_primary_key) (lower source_type)
             (if is_primary_key then "VARCHAR(255)" else "TEXT")
  else if source_db =? "mongodb" then
    let col_type := dict_get mongo_to_mysql (lower source_type) "TEXT" in
    if bool_decide (col_name = PStr "_id") then "VARCHAR(255)" else col_type
  else source_type.

(** [col_name in primary_keys] *)
Definition name_in (col_name : PyVal) (primary_keys : list string) : bool :=
  match col_name with
  | PStr s => in_list s primary_keys
  | _ => false
  end.

Definition get_create_table_sql_mysql
    (table_name : string) (columns : list (gmap string PyVal))
    (primary_keys : list string) (source_db : string) : Res string :=
  let col_defs :=
    map (fun col =>
           let col_name := column_name col in
           let source_type := get_column_data_type col in
           let is_primary_key := name_in col_name primary_keys in
           let col_type := mysql_col_type source_db col_name is_primary_key source_type in
           let col_def := quote "`" col_name +:+ " " +:+ col_type in
           if not_nullable col then col_def +:+ " NOT NULL" else col_def)
        columns in
  let col_defs := (col_defs ++ primary_key_clause "`" primary_keys)%list in
  Ok ("CREATE TABLE `" +:+ table_name +:+ "` (" +:+ String (chr 10) "  "
      +:+ join ("," +:+ String (chr 10) "  ") col_defs
      +:+ String (chr 10) ") ENGINE=InnoDB DEFAULT CHARSET=utf8mb4 COLLATE=utf8mb4_unicode_ci").

(** The type chosen for one column by [get_create_table_sql_sqlite]. *)
Definition sqlite_col_type
    (source_db : string) (col_name : PyVal) (source_type : string) : string :=
  if (source_db =? "mongodb") && bool_decide (col_name = PStr "_id") then "TEXT"
  else map_to_sqlite source_type source_db.

Definition get_create_table_sql_sqlite
    (table_name : string) (columns : list (gmap string PyVal))
    (primary_keys : list string) (source_db : string) : Res string :=
  match columns with
  | [] => raise Exception ("Cannot create table " +:+ table_name +:+ ": no columns defined")
  | _ =>
      let col_defs :=
        map (fun col =>
               let col_name := column_name col in
               let source_type := get_column_data_type col in
               let col_type := sqlite_col_type source_db col_name source_type in
               let col_def := quote "`" col_name +:+ " " +:+ col_type in
               if not_nullable col then col_def +:+ " NOT NULL" else col_def)
            columns in
      let col_defs := (col_defs ++ primary_key_clause "`" primary_keys)%list in
      Ok ("CREATE TABLE `" +:+ table_name +:+ "` (" +:+ String (chr 10) "  "
          +:+ join ("," +:+ String (chr 10) "  ") col_defs
          +:+ String (chr 10) ")")
  end.

Definition get_create_table_sql
    (table_name : string) (columns : list (gmap string PyVal))
    (primary_keys : list string) (source_db target_db : string) : Res string :=
  if target_db =? "postgresql" then
    get_create_table_sql_postgresql table_name columns primary_keys source_db
  else if target_db =? "mysql" then
    get_create_table_sql_mysql table_name columns primary_keys source_db
  else if target_db =? "sqlite" then
    get_create_table_sql_sqlite table_name columns primary_keys source_db
  else if target_db =? "mongodb" then Ok ""
  else raise Exception ("Unsupported target database: " +:+ target_db).

(** The column type that [get_create_table_sql] gives a column of native
    type [source_type] named [col_name], for the three relational targets. *)
Definition map_column_type
    (source_db target_db : string) (col_name : PyVal) (is_primary_key : bool)
    (source_type : string) : Res string :=
  if target_db =? "postgresql" then postgresql_col_type source_db col_name source_type
  else if target_db =? "mysql" then
    Ok (mysql_col_type source_db col_name is_primary_key source_type)
  else if target_db =? "sqlite" then Ok (sqlite_col_type source_db col_name source_type)
  else raise Exception ("Unsupported target database: " +:+ target_db).

End DataTypeMapper.

(** ** Schema descriptors (the dictionaries built by [schema_inspector.py]) *)

Module Schema.
Import Py.

(** A foreign key descriptor.  A field is [None] when the key is missing
    from the dictionary or bound to Python's [None]. *)
Record ForeignKey := mk_fk {
  column : option string;
  references_table : option string;
  references_column : option string
}.

(** A table (or collection) descriptor.  [foreign_keys] is the value of
    [table.get("foreign_keys", [])]. *)
Record Table := mk_table {
  name : string;
  type : string;
  columns : list (gmap string PyVal);
  primary_keys : list string;
  foreign_keys : list ForeignKey;
  row_count : Z
}.

#[global] Instance ForeignKey_eq_dec : EqDecision ForeignKey.
Proof. solve_decision. Defined.

#[global] Instance Table_eq_dec : EqDecision Table.
Proof. solve_decision. Defined.

End Schema.

(** ** [migration_engine.py]: [MigrationEngine._resolve_dependencies] *)

Module Resolver.
Import Py Schema.

Definition SQLITE_INTERNAL_TABLES : gset string :=
  {[ "sqlite_sequence"; "sqlite_stat1"; "sqlite_stat2";
     "sqlite_stat3"; "sqlite_stat4"; "sqlite_master" ]}.

Definition MONGO_SYSTEM_COLLECTIONS : gset string :=
  {[ "system.users"; "system.version"; "system.indexes"; "system.profile" ]}.

(** [for x in l: body(x)] over a state, where the body may fail to return. *)
Fixpoint for_each {A S} (body : A -> S -> option S) (l : list A) (st : S) : option S :=
  match l with
  | [] => Some st
  | x :: l' =>
      match body x st with
      | Some st' => for_each body l' st'
      | None => None
      end
  end.

(** The set [deps] built for one table by the loop over its foreign keys. *)
Definition table_deps (table : Table) : gset string :=
  fold_left
    (fun deps fk =>
       match references_table fk with
       | Some ref_table =>
           if negb (ref_table =? "")
              && negb (ref_table =? name table)
              && negb (bool_decide (ref_table ∈ SQLITE_INTERNAL_TABLES))
           then deps ∪ {[ ref_table ]}
           else deps
       | None => deps
       end)
    (foreign_keys table) ∅.

(** [{t["name"]: t for t in filtered_tables}]: a later table of the same
    name replaces an earlier one. *)
Definition build_table_map (filtered_tables : list Table) : gmap string Table :=
  fold_left (fun m t => <[ name t := t ]> m) filtered_tables ∅.

Definition build_dependencies
    (source_db_type : string) (filtered_tables : list Table) : gmap string (gset string) :=
  if negb (source_db_type =? "mongodb") then
    fold_left (fun m table => <[ name table := table_deps table ]> m) filtered_tables ∅
  else
    fold_left (fun m table => <[ name table := ∅ ]> m) filtered_tables ∅.

(** The mutable variables captured by the nested function [add_dependencies]:
    the set [tables_to_include] and the engine's log (messages are kept
    without their wall-clock prefix). *)
Record include_state := mk_include {
  tables_to_include : gset string;
  migration_log : list string
}.

(** The mutable variables captured by [visit]. *)
Record visit_state := mk_visit {
  visited : gset string;
  ordered : list string
}.

Section WithIterationOrder.

(** Iterating over a Python set yields its elements in an order that the
    language does not fix; [set_iter s] is the order in which the
    elements of [s] come out. *)
Variable set_iter : gset string -> list string.

Variable table_map : gmap string Table.
Variable dependencies : gmap string (gset string).

(** The nested function [add_dependencies].  Python recursion is
    unbounded, so the embedding recurses on [fuel] and answers [None]
    when it runs out. *)
Fixpoint add_dependencies (fuel : nat) (table_name : string) (st : include_state)
  : option include_state :=
  match fuel with
  | O => None
  | S fuel' =>
      match dependencies !! table_name with
      | Some deps =>
          for_each
            (fun dep st =>
               if negb (bool_decide (dep ∈ tables_to_include st))
                  && bool_decide (dep ∈ dom table_map)
               then
                 add_dependencies fuel' dep
                   (mk_include
                      ({[ dep ]} ∪ tables_to_include st)
                      (migration_log st ++ ["  + Auto-selected dependent table: " +:+ dep])%list)
               else Some st)
            (set_iter deps) st
      | None => Some st
      end
  end.

(** The nested function [visit]; [included] is the final value of
    [tables_to_include]. *)
Fixpoint visit (included : gset string) (fuel : nat) (table_name : string)
    (st : visit_state) : option visit_state :=
  match fuel with
  | O => None
  | S fuel' =>
      if bool_decide (table_name ∈ visited st) then Some st
      else
        let st := mk_visit ({[ table_name ]} ∪ visited st) (ordered st) in
        match
          match dependencies !! table_name with
          | Some deps =>
              for_each
                (fun dep st =>
                   if bool_decide (dep ∈ included)
                   then visit included fuel' dep st
                   else Some st)
                (set_iter deps) st
          | None => Some st
          end
        with
        | Some st => Some (mk_visit (visited st) (ordered st ++ [table_name])%list)
        | None => None
        end
  end.

End WithIterationOrder.

Definition not_internal (n : string) : bool :=
  negb (bool_decide (n ∈ SQLITE_INTERNAL_TABLES)).

Definition not_system (n : string) : bool :=
  negb (bool_decide (n ∈ MONGO_SYSTEM_COLLECTIONS)).

(** The tables that remain under consideration. *)
Definition filter_tables (source_db_type : string) (all_tables : list Table) : list Table :=
  let filtered_tables := List.filter (fun t => not_internal (name t)) all_tables in
  if source_db_type =? "mongodb"
  then List.filter (fun t => not_system (name t)) filtered_tables
  else filtered_tables.

(** [_resolve_dependencies(all_tables, selected_tables)], returning the
    ordered tables and the lines it appended to the log. *)
Definition _resolve_dependencies
    (set_iter : gset string -> list string) (fuel : nat)
    (source_db_type : string)
    (all_tables : list Table) (selected_tables : list string)
  : option (list Table * list string) :=
  let filtered_tables := filter_tables source_db_type all_tables in
  let log :=
    if source_db_type =? "mongodb" then
      let skipped :=
        map name (List.filter (fun t => negb (not_system (name t))) all_tables) in
      match skipped with
      | [] => []
      | _ => ["  ℹ️  Skipped MongoDB system collections: " +:+ join ", " skipped]
      end
    else [] in
  let table_map := build_table_map filtered_tables in
  let dependencies := build_dependencies source_db_type filtered_tables in
  let selection : gset string :=
    list_to_set (List.filter not_internal selected_tables) in
  match
    for_each (add_dependencies set_iter table_map dependencies fuel)
             (set_iter selection)
             (mk_include selection log)
  with
  | None => None
  | Some st =>
      let included := tables_to_include st in
      match
        for_each (visit set_iter dependencies included fuel)
                 (set_iter included) (mk_visit ∅ [])
      with
      | None => None
      | Some vs =>
          Some (omap (fun name => table_map !! name) (ordered vs), migration_log st)
      end
  end.

(** The depth of recursion that a schema of [n] tables with [k] selected
    names can need. *)
Definition enough_fuel (all_tables : list Table) (selected_tables : list string) : nat :=
  S (length all_tables + length selected_tables).

End Resolver.

(** ** Vocabulary for the properties of the resolver *)

Module ResolverSpec.
Import Py Schema Resolver.

(** Position of the first occurrence of [x] in [l]. *)
Fixpoint index_of (x : string) (l : list string) : option nat :=
  match l with
  | [] => None
  | y :: l' => if x =? y then Some 0 else option_map S (index_of x l')
  end.

(** [b] and [a] both occur in [l], and [b] does not come after [a]. *)
Definition at_or_before (l : list string) (b a : string) : bool :=
  match index_of b l, index_of a l with
  | Some i, Some j => Nat.leb i j
  | _, _ => false
  end.

(** Number of occurrences of the name [n] in [l]. *)
Definition count_name (n : string) (l : list string) : nat :=
  length (List.filter (String.eqb n) l).

(** Table [A] carries a foreign key whose [references_table] is [r]. *)
Definition references (A : Table) (r : string) : Prop :=
  exists fk, fk ∈ foreign_keys A /\ references_table fk = Some r.

(** The dependency graph on a list of tables: [a] depends on [b] when the
    table named [a] has [b] in its dependency set and [b] names a table of
    the list. *)
Definition depends_on (R : list Table) (a b : string) : Prop :=
  exists A, A ∈ R /\ name A = a /\ b ∈ table_deps A /\ b ∈ map name R.

Definition acyclic (R : list Table) : Prop :=
  forall n, ~ tc (depends_on R) n n.

Section Invariants.
Variable set_iter : gset string -> list string.
Variable table_map : gmap string Table.
Variable dependencies : gmap string (gset string).
Variable included : gset string.

(** Every dependency of [t] that names a table of the schema is in [inc]. *)
Definition closed_at (inc : gset string) (t : string) : Prop :=
  forall ds d, dependencies !! t = Some ds -> d ∈ ds -> d ∈ dom table_map -> d ∈ inc.

(** The body of the loop of [add_dependencies]. *)
Definition add_body (fuel : nat) (dep : string) (st : include_state) : option include_state :=
  if negb (bool_decide (dep ∈ tables_to_include st)) && bool_decide (dep ∈ dom table_map)
  then add_dependencies set_iter table_map dependencies fuel dep
         (mk_include ({[ dep ]} ∪ tables_to_include st)
            (migration_log st ++ ["  + Auto-selected dependent table: " +:+ dep])%list)
  else Some st.

(** What a call of [add_dependencies], or its loop over the names [l],
    guarantees about the set it leaves. *)
Definition add_post (t : option string) (l : list string) (st st' : include_state) : Prop :=
  tables_to_include st ⊆ tables_to_include st'
  /\ tables_to_include st' ⊆ tables_to_include st ∪ dom table_map
  /\ (forall d, d ∈ l -> d ∈ dom table_map -> d ∈ tables_to_include st')
  /\ (forall x, x ∈ tables_to_include st' -> x ∉ tables_to_include st ->
                closed_at (tables_to_include st') x)
  /\ (forall x, t = Some x -> closed_at (tables_to_include st') x).

(** The body of the loop of [visit]. *)
Definition visit_body (fuel : nat) (dep : string) (st : visit_state) : option visit_state :=
  if bool_decide (dep ∈ included) then visit set_iter dependencies included fuel dep st else Some st.

(** [visited.add(t)] *)
Definition mark (t : string) (st : visit_state) : visit_state :=
  mk_visit ({[ t ]} ∪ visited st) (ordered st).

(** [ordered.append(t)] *)
Definition emit (t : string) (st : visit_state) : visit_state :=
  mk_visit (visited st) (ordered st ++ [t])%list.

(** What one call of [visit], or a sequence of calls, may change: [visited]
    grows within [included], and [ordered] is extended by exactly the names
    that became visited. *)
Definition extends (st st' : visit_state) : Prop :=
  visited st ⊆ visited st'
  /\ visited st' ⊆ visited st ∪ included
  /\ exists new, ordered st' = (ordered st ++ new)%list
       /\ NoDup new
       /\ (forall x, x ∈ new <-> x ∈ visited st' /\ x ∉ visited st).

(** The edges that [visit] follows. *)
Definition edge (a b : string) : Prop :=
  a ∈ included /\ b ∈ included /\ exists ds, dependencies !! a = Some ds /\ b ∈ ds.

(** [d] occurs in [o] before an occurrence of [x]. *)
Definition before (o : list string) (d x : string) : Prop :=
  exists l1 l2, o = (l1 ++ x :: l2)%list /\ d ∈ l1.

(** Every name of [o] comes after the names it has an edge to. *)
Definition sorted (o : list string) : Prop :=
  forall x d, x ∈ o -> edge x d -> before o d x.

(** [p] was entered by [visit] and is not yet appended to [ordered]. *)
Definition pending (st : visit_state) (p : string) : Prop :=
  p ∈ visited st /\ p ∉ ordered st.

(** The specification of [visit] with [fuel] levels of recursion. *)
Definition visit_ok (fuel : nat) : Prop :=
  forall t st st',
    visit set_iter dependencies included fuel t st = Some st' -> t ∈ included ->
    sorted (ordered st) -> (forall p, pending st p -> tc edge p t) ->
    sorted (ordered st') /\ t ∈ ordered st'.

End Invariants.

End ResolverSpec.

(** ** Concrete schemas used to exercise the resolver *)

Module Examples.
Import Py Schema Resolver.

Definition fk_to (col ref : string) : ForeignKey :=
  mk_fk (Some col) (Some ref) (Some "id").

Definition table_with (n : string) (fks : list ForeignKey) : Table :=
  mk_table n "BASE TABLE" [] ["id"] fks 0.

(** [orders.customer_id -> customers.id] *)
Definition customers : Table := table_with "customers" [].
Definition orders : Table := table_with "orders" [fk_to "customer_id" "customers"].
Definition shop : list Table := [orders; customers].

(** [employees.manager_id -> employees.id] *)
Definition employees : Table := table_with "employees" [fk_to "manager_id" "employees"].

(** A SQLite catalogue as [sqlite_master] lists it. *)
Definition users : Table := table_with "users" [].
Definition sqlite_sequence : Table := table_with "sqlite_sequence" [].

(** A table whose name is the empty string, and one that references it. *)
Definition unnamed : Table := table_with "" [].
Definition notes : Table := table_with "notes" [fk_to "ref" ""].

End Examples.

(** ** Vocabulary for the properties of the type mapper *)

Module MapperSpec.
Import Py DataTypeMapper.

(** The key under which [get_create_table_sql_postgresql] looks a MySQL
    type up in [MYSQL_TO_POSTGRESQL]. *)
Definition mysql_base_type (source_type : string) : string :=
  split_head "("
    (strip (replace " zerofill" "" (replace " unsigned" "" (lower source_type)))).

(** The key under which [get_create_table_sql_mysql] looks a PostgreSQL
    type up, and [map_to_sqlite] any type. *)
Definition base_type (source_type : string) : string :=
  split_head "(" (lower source_type).

(** The unconstrained text type of a relational family. *)
Definition text_type (target_db : string) : string :=
  if target_db =? "postgresql" then "text" else "TEXT".

(** A character type with a declared length: [char(n)] or [varchar(n)],
    in either case. *)
Definition length_qualified_string_type (col_type : string) : bool :=
  let t := lower col_type in
  (startswith "char(" t || startswith "varchar(" t) && contains_char ")" t.

(** A one-column MongoDB collection whose [_id] was sampled with type [ty]. *)
Definition id_column (ty : string) : gmap string PyVal :=
  list_to_map [("name", PStr "_id"); ("type", PStr ty); ("nullable", PBool false)].

(** A column [name] of native type [ty], as the inspectors describe it. *)
Definition column (name ty : string) : gmap string PyVal :=
  list_to_map [("name", PStr name); ("type", PStr ty); ("nullable", PBool true)].

End MapperSpec.

(** ** [migration_engine.py]: conversion of binary values *)

Module ValueConverter.
Import Py.

(** A Python [str] is its sequence of code points. *)
Definition pystr := list N.

Definition of_string (s : string) : pystr :=
  map N_of_ascii (list_ascii_of_string s).

(** [isinstance(e, cls)] for the modelled exception classes. *)
Definition subclass (c cls : exn_class) : bool :=
  match cls, c with
  | Exception, _ => true
  | ValueError, (ValueError | UnicodeDecodeError) => true
  | TypeError, TypeError => true
  | UnicodeDecodeError, UnicodeDecodeError => true
  | _, _ => false
  end.

(** [try: m except (cls...): handler]; other exceptions propagate. *)
Definition try_catch {A} (m : Res A) (classes : list exn_class) (handler : Res A) : Res A :=
  match m with
  | Ok a => Ok a
  | Raise e => if existsb (subclass (exn_cls e)) classes then handler else Raise e
  end.

(** What the conversion takes from the standard library: the [uuid]
    module, the UTF-8 codec and the Unicode database behind
    [str.isprintable] outside ASCII. *)
Class Runtime := {
  UUID : Type;
  (** [uuid.UUID(bytes=b)] *)
  uuid_from_bytes : list byte -> Res UUID;
  (** [str(u)] *)
  uuid_str : UUID -> string;
  (** [b.decode('utf-8')] *)
  decode_utf8 : list byte -> Res pystr;
  (** [c.isprintable()] for a code point above 127 *)
  isprintable_unicode : N -> bool
}.

(** [b.decode('ascii')] *)
Definition decode_ascii (b : list byte) : Res pystr :=
  if forallb (fun x => (Byte.to_N x <? 128)%N) b
  then Ok (map Byte.to_N b)
  else raise UnicodeDecodeError "'ascii' codec can't decode byte".

(** *** [base64.b64encode] *)

Definition b64_alphabet : string :=
  "ABCDEFGHIJKLMNOPQRSTUVWXYZabcdefghijklmnopqrstuvwxyz0123456789+/".

Definition b64_digit (n : N) : ascii :=
  match String.get (N.to_nat n) b64_alphabet with
  | Some c => c
  | None => "="%char
  end.

Fixpoint b64encode (b : list byte) : string :=
  match b with
  | [] => EmptyString
  | [x] =>
      let n := Byte.to_N x in
      String (b64_digit (N.shiftr n 2))
        (String (b64_digit (N.shiftl (N.land n 3) 4)) "==")
  | [x; y] =>
      let n := Byte.to_N x in
      let m := Byte.to_N y in
      String (b64_digit (N.shiftr n 2))
        (String (b64_digit (N.lor (N.shiftl (N.land n 3) 4) (N.shiftr m 4)))
           (String (b64_digit (N.shiftl (N.land m 15) 2)) "="))
  | x :: y :: z :: rest =>
      let n := Byte.to_N x in
      let m := Byte.to_N y in
      let k := Byte.to_N z in
      String (b64_digit (N.shiftr n 2))
        (String (b64_digit (N.lor (N.shiftl (N.land n 3) 4) (N.shiftr m 4)))
           (String (b64_digit (N.lor (N.shiftl (N.land m 15) 2) (N.shiftr k 6)))
              (String (b64_digit (N.land k 63)) (b64encode rest))))
  end.

(** [base64.b64encode(byte_data).decode('ascii')] *)
Definition b64_text (byte_data : list byte) : pystr := of_string (b64encode byte_data).

Section WithRuntime.
Context {rt : Runtime}.

(** [c.isprintable()] *)
Definition isprintable_char (c : N) : bool :=
  if (c <? 128)%N then (32 <=? c)%N && (c <=? 126)%N else isprintable_unicode c.

(** [s.isprintable()] *)
Definition isprintable (s : pystr) : bool := forallb isprintable_char s.

(** [sum(1 for c in decoded if c.isprintable()) / max(len(decoded), 1) > 0.8].
    The quotient is a float; for texts shorter than 2^50 characters it
    exceeds the float 0.8 exactly when the rational quotient exceeds 4/5. *)
Definition mostly_printable (decoded : pystr) : bool :=
  let printable := N.of_nat (length (List.filter isprintable_char decoded)) in
  let total := N.max (N.of_nat (length decoded)) 1 in
  (4 * total <? 5 * printable)%N.

(** The branch of [_convert_data_for_target] (SQLite source, MySQL or
    PostgreSQL target) taken for a [bytes] value: lines 835-866. *)
Definition convert_sqlite_bytes (byte_data : list byte) : Res pystr :=
  if Nat.eqb (length byte_data) 16 then
    try_catch
      (uuid_val ← uuid_from_bytes byte_data; Ok (of_string (uuid_str uuid_val)))
      [ValueError; TypeError]
      (try_catch
         (decoded ← decode_ascii byte_data;
          if isprintable decoded then Ok decoded else Ok (b64_text byte_data))
         [UnicodeDecodeError; ValueError]
         (Ok (b64_text byte_data)))
  else
    try_catch
      (decoded ← decode_ascii byte_data;
       if isprintable decoded then Ok decoded else Ok (b64_text byte_data))
      [UnicodeDecodeError; ValueError]
      (try_catch
         (decoded ← decode_utf8 byte_data;
          if mostly_printable decoded then Ok decoded else Ok (b64_text byte_data))
         [UnicodeDecodeError]
         (Ok (b64_text byte_data))).

(** One [try] block of [_convert_value_for_mysql] that either returns a
    value or falls through ([None]) to the statements after it. *)
Definition attempt (m : Res (option pystr)) (classes : list exn_class)
  : Res (option pystr) :=
  try_catch m classes (Ok None).

(** The branch of [_convert_value_for_mysql] taken for a [bytes] value:
    lines 1041-1065. *)
Definition convert_mysql_bytes (byte_data : list byte) : Res pystr :=
  r1 ← (if Nat.eqb (length byte_data) 16 then
          attempt (uuid_val ← uuid_from_bytes byte_data;
                   Ok (Some (of_string (uuid_str uuid_val))))
                  [ValueError; TypeError]
        else Ok None);
  match r1 with
  | Some v => Ok v
  | None =>
      r2 ← attempt (decoded ← decode_ascii byte_data;
                    Ok (if isprintable decoded then Some decoded else None))
                   [UnicodeDecodeError; ValueError];
      match r2 with
      | Some v => Ok v
      | None =>
          r3 ← attempt (decoded ← decode_utf8 byte_data;
                        Ok (if mostly_printable decoded then Some decoded else None))
                       [UnicodeDecodeError];
          match r3 with
          | Some v => Ok v
          | None => Ok (b64_text byte_data)
          end
      end
  end.

End WithRuntime.

(** *** The [uuid] module of CPython *)

(** [int.from_bytes(b, 'big')] *)
Definition int_from_bytes (b : list byte) : N :=
  fold_left (fun acc x => (acc * 256 + Byte.to_N x)%N) b 0%N.

Definition hex_digit (n : N) : ascii :=
  match String.get (N.to_nat n) "0123456789abcdef" with
  | Some c => c
  | None => "?"%char
  end.

(** ['%0kx' % n]: the [k] low hexadecimal digits of [n], most significant first. *)
Fixpoint hex_digits (k : nat) (n : N) : string :=
  match k with
  | O => EmptyString
  | S k' => hex_digits k' (N.shiftr n 4) +:+ String (hex_digit (N.land n 15)) EmptyString
  end.

(** [str(UUID(int=n))]: 8-4-4-4-12 hexadecimal digits. *)
Definition cpython_uuid_str (n : N) : string :=
  let hex := hex_digits 32 n in
  substring 0 8 hex +:+ "-" +:+ substring 8 4 hex +:+ "-" +:+ substring 12 4 hex
    +:+ "-" +:+ substring 16 4 hex +:+ "-" +:+ substring 20 12 hex.

(** [uuid.UUID(bytes=b)] only checks the length of [b]. *)
Definition cpython_uuid_from_bytes (b : list byte) : Res N :=
  if Nat.eqb (length b) 16 then Ok (int_from_bytes b)
  else raise ValueError "bytes is not a 16-char string".

(** The CPython runtime over a given UTF-8 codec and Unicode database. *)
Definition cpython (utf8 : list byte -> Res pystr) (printable : N -> bool) : Runtime :=
  {| UUID := N;
     uuid_from_bytes := cpython_uuid_from_bytes;
     uuid_str := cpython_uuid_str;
     decode_utf8 := utf8;
     isprintable_unicode := printable |}.

(** [bytes(s, 'ascii')] for a literal. *)
Definition bytes_of_string (s : string) : list byte :=
  map byte_of_ascii (list_ascii_of_string s).

(** *** Which binary values are converted *)

(** A binary value as the drivers hand it over: [bytes], [bytearray] or
    [memoryview], or the [bson.Binary] of the document engine (a subclass
    of [bytes]). *)
Inductive BinaryValue :=
| Bytes (b : list byte)
| BsonBinary (b : list byte).

(** [bytes(val)] *)
Definition raw (val : BinaryValue) : list byte :=
  match val with
  | Bytes b => b
  | BsonBinary b => b
  end.

(** What becomes of the value: it is left as it is, or replaced by a text. *)
Inductive Converted :=
| Unchanged
| Text (s : pystr).

Section Dispatch.
Context {rt : Runtime}.

(** [_convert_data_for_target], lines 786-891, as it treats one value
    of a row or document that is binary.  Of the [isinstance] tests of
    the first branch only the one for [Binary] holds of such a value;
    none of the second branch does; the third converts it. *)
Definition _convert_data_for_target
    (source_db_type target_db_type : string) (val : BinaryValue) : Res Converted :=
  if (source_db_type =? "mongodb") && negb (target_db_type =? "mongodb") then
    match val with
    | BsonBinary b => Ok (Text (b64_text b))
    | Bytes _ => Ok Unchanged
    end
  else if negb (source_db_type =? "mongodb") && (target_db_type =? "mongodb") then
    Ok Unchanged
  else if (source_db_type =? "sqlite") && in_list target_db_type ["mysql"; "postgresql"] then
    s ← convert_sqlite_bytes (raw val); Ok (Text s)
  else Ok Unchanged.

End Dispatch.

End ValueConverter.

(** ** [schema_inspector.py] *)

Module SchemaInspector.
Import Py Schema.

(** The dictionary returned by [get_schema]; a field is [None] when the
    key is absent. *)
Record SchemaDict := mk_schema_dict {
  success : option bool;
  database_name : option string;
  database_type : option string;
  tables : option (list Table);
  error : option string
}.

Definition opt_str (o : option string) : PyVal :=
  match o with Some s => PStr s | None => PNone end.

Definition opt_int (o : option Z) : PyVal :=
  match o with Some z => PInt z | None => PNone end.

(** [try: body finally: cleanup] *)
Definition finally {A} (body : Res A) (cleanup : Res unit) : Res A :=
  match body, cleanup with
  | Ok a, Ok _ => Ok a
  | Raise e, Ok _ => Raise e
  | _, Raise e' => Raise e'
  end.

(** *** PostgreSQL *)

Record PgColumn := mk_pg_column {
  column_name : string;
  data_type : string;
  character_maximum_length : option Z;
  is_nullable : string;
  column_default : option string
}.

Record PgForeignKey := mk_pg_fk {
  fk_column_name : string;
  foreign_table_name : string;
  foreign_column_name : string
}.

(** How a PostgreSQL server answers each round trip of the inspection. *)
Record PostgresServer := mk_pg_server {
  pg_connect : Res unit;
  pg_fetch_tables : Res (list (string * string));
  pg_fetch_columns : string -> Res (list PgColumn);
  pg_fetch_primary_keys : string -> Res (list string);
  pg_fetch_foreign_keys : string -> Res (list PgForeignKey);
  pg_fetchval_count : string -> Res Z;
  pg_close : Res unit
}.

Definition _inspect_postgresql (srv : PostgresServer) (database : string) : Res SchemaDict :=
  match pg_connect srv with
  | Raise e => Raise e
  | Ok _ =>
      finally
        (tables_raw ← pg_fetch_tables srv;
         tables ← mapM (fun table_row : string * string =>
             let table_name := fst table_row in
             columns_raw ← pg_fetch_columns srv table_name;
             let columns :=
               map (fun col =>
                      (list_to_map
                         [ ("name", PStr (column_name col));
                           ("type", PStr (data_type col));
                           ("length", opt_int (character_maximum_length col));
                           ("nullable", PBool (is_nullable col =? "YES"));
                           ("default", opt_str (column_default col)) ]
                       : gmap string PyVal))
                   columns_raw in
             primary_keys ← pg_fetch_primary_keys srv table_name;
             fk_raw ← pg_fetch_foreign_keys srv table_name;
             let foreign_keys :=
               map (fun fk => mk_fk (Some (fk_column_name fk))
                                    (Some (foreign_table_name fk))
                                    (Some (foreign_column_name fk)))
                   fk_raw in
             row_count ← pg_fetchval_count srv table_name;
             Ok (mk_table table_name (snd table_row) columns primary_keys
                          foreign_keys row_count))
           tables_raw;
         Ok (mk_schema_dict (Some true) (Some database) (Some "postgresql")
                            (Some tables) None))
        (pg_close srv)
  end.

(** *** MySQL *)

Record MysqlColumn := mk_mysql_column {
  Field : string;
  Type_ : string;
  Null : string;
  Key : string;
  Default : option string;
  Extra : string
}.

Record MysqlServer := mk_mysql_server {
  my_connect : Res unit;
  my_show_tables : Res (list string);
  my_describe : string -> Res (list MysqlColumn);
  my_foreign_keys : string -> Res (list PgForeignKey);
  my_count : string -> Res Z;
  my_close : Res unit
}.

Definition _inspect_mysql (srv : MysqlServer) (database : string) : Res SchemaDict :=
  match my_connect srv with
  | Raise e => Raise e
  | Ok _ =>
      finally
        (tables_raw ← my_show_tables srv;
         tables ← mapM (fun table_name : string =>
             columns_raw ← my_describe srv table_name;
             let columns :=
               map (fun col =>
                      (list_to_map
                         [ ("name", PStr (Field col));
                           ("type", PStr (Type_ col));
                           ("nullable", PBool (Null col =? "YES"));
                           ("default", opt_str (Default col));
                           ("extra", PStr (Extra col)) ]
                       : gmap string PyVal))
                   columns_raw in
             let primary_keys :=
               map Field (List.filter (fun col => Key col =? "PRI") columns_raw) in
             fk_raw ← my_foreign_keys srv table_name;
             let foreign_keys :=
               map (fun fk => mk_fk (Some (fk_column_name fk))
                                    (Some (foreign_table_name fk))
                                    (Some (foreign_column_name fk)))
                   fk_raw in
             row_count ← my_count srv table_name;
             Ok (mk_table table_name "BASE TABLE" columns primary_keys
                          foreign_keys row_count))
           tables_raw;
         Ok (mk_schema_dict (Some true) (Some database) (Some "mysql")
                            (Some tables) None))
        (my_close srv)
  end.

(** *** SQLite *)

(** A row of [PRAGMA table_info]: name, type, notnull, dflt_value, pk. *)
Record SqliteColumn := mk_sqlite_column {
  sc_name : string;
  sc_type : string;
  sc_notnull : Z;
  sc_default : option string;
  sc_pk : Z
}.

(** A row of [PRAGMA foreign_key_list]: table, from, to. *)
Record SqliteForeignKey := mk_sqlite_fk {
  sfk_table : string;
  sfk_from : string;
  sfk_to : option string
}.

Record SqliteFile := mk_sqlite_file {
  sq_connect : Res unit;
  sq_tables : Res (list (string * string));
  sq_table_info : string -> Res (list SqliteColumn);
  sq_foreign_key_list : string -> Res (list SqliteForeignKey);
  sq_count : string -> Res Z;
  sq_close : Res unit
}.

Definition _inspect_sqlite (file : SqliteFile) (database : string) : Res SchemaDict :=
  match sq_connect file with
  | Raise e => Raise e
  | Ok _ =>
      finally
        (tables_raw ← sq_tables file;
         tables ← mapM (fun table_row : string * string =>
             let table_name := fst table_row in
             columns_raw ← sq_table_info file table_name;
             let columns :=
               map (fun col =>
                      (list_to_map
                         [ ("name", PStr (sc_name col));
                           ("type", PStr (sc_type col));
                           ("nullable", PBool (sc_notnull col =? 0)%Z);
                           ("default", opt_str (sc_default col)) ]
                       : gmap string PyVal))
                   columns_raw in
             let primary_keys :=
               map sc_name (List.filter (fun col => (0 <? sc_pk col)%Z) columns_raw) in
             fk_raw ← sq_foreign_key_list file table_name;
             let foreign_keys :=
               map (fun fk => mk_fk (Some (sfk_from fk)) (Some (sfk_table fk)) (sfk_to fk))
                   fk_raw in
             row_count ← sq_count file table_name;
             Ok (mk_table table_name "table" columns primary_keys
                          foreign_keys row_count))
           tables_raw;
         Ok (mk_schema_dict (Some true) (Some database) (Some "sqlite")
                            (Some tables) None))
        (sq_close file)
  end.

(** *** MongoDB *)

(** The values of a sampled document, as far as the inspection tells
    them apart. *)
Inductive Bson :=
| BNull | BBool (b : bool) | BInt (z : Z) | BFloat | BDatetime
| BDict | BList | BStr (s : string) | BOther.

(** A document: its keys, in order, with their values. *)
Definition Document := list (string * Bson).

(** A document of the collection [_dblens_relationships]. *)
Record Relationship := mk_relationship {
  from_collection : option string;
  from_field : option string;
  to_collection : option string;
  to_field : option string
}.

Record MongoServer := mk_mongo_server {
  mg_client : Res unit;
  mg_list_collection_names : Res (list string);
  mg_count_documents : string -> Res Z;
  mg_find_limit : string -> Z -> Res (list Document);
  (** [db.get("_dblens_relationships")] and, when it is truthy, the
      documents found in it *)
  mg_relationships : Res (option (list Relationship));
  mg_close : Res unit
}.

(** [doc.get(k)] *)
Fixpoint doc_get (doc : Document) (k : string) : option Bson :=
  match doc with
  | [] => None
  | (k', v) :: doc' => if k =? k' then Some v else doc_get doc' k
  end.

Fixpoint insert_sorted (x : string) (l : list string) : list string :=
  match l with
  | [] => [x]
  | y :: l' =>
      if x =? y then l
      else if String.ltb x y then x :: l
      else y :: insert_sorted x l'
  end.

(** [sorted(all_fields)] where [all_fields] is the set of keys of the samples. *)
Definition sorted_fields (samples : list Document) : list string :=
  fold_left (fun acc doc => fold_left (fun acc kv => insert_sorted (fst kv) acc) doc acc)
            samples [].

(** The type name given to a field from its first value that is not [None]. *)
Definition infer_type (sample_val : Bson) : string :=
  match sample_val with
  | BBool _ => "boolean"
  | BInt _ => "integer"
  | BFloat => "double"
  | BDatetime => "datetime"
  | BDict => "object"
  | BList => "array"
  | BStr _ => "string"
  | BNull | BOther => "string"
  end.

Definition is_null (v : Bson) : bool :=
  match v with BNull => true | _ => false end.

Definition field_dict (name type : string) (nullable : bool) : gmap string PyVal :=
  list_to_map
    [ ("name", PStr name); ("type", PStr type); ("nullable", PBool nullable);
      ("default", PNone); ("length", PNone) ].

Definition infer_fields (samples : list Document) : list (gmap string PyVal) :=
  match samples with
  | [] => []
  | _ =>
      map (fun field_name =>
             let values := omap (fun doc => doc_get doc field_name) samples in
             let non_null_values := List.filter (fun v => negb (is_null v)) values in
             let data_type :=
               match non_null_values with
               | sample_val :: _ => infer_type sample_val
               | [] => "string"
               end in
             field_dict field_name data_type
                        (Nat.ltb (length non_null_values) (length samples)))
          (sorted_fields samples)
  end.

Definition has_id_field (fields : list (gmap string PyVal)) : bool :=
  existsb (fun f => bool_decide (f !! "name" = Some (PStr "_id"))) fields.

(** Appends a foreign key to the last collection named [n], the one that
    the dictionary [coll_by_name] holds. *)
Fixpoint append_fk_first (n : string) (fk : ForeignKey) (l : list Table) : list Table :=
  match l with
  | [] => []
  | c :: l' =>
      if name c =? n
      then mk_table (name c) (type c) (columns c) (primary_keys c)
                    (foreign_keys c ++ [fk])%list (row_count c) :: l'
      else c :: append_fk_first n fk l'
  end.

Definition append_fk (n : string) (fk : ForeignKey) (collections : list Table) : list Table :=
  rev (append_fk_first n fk (rev collections)).

Definition add_relationships (rel_docs : list Relationship) (collections : list Table)
  : list Table :=
  fold_left
    (fun colls doc =>
       match from_collection doc with
       | Some from_coll =>
           append_fk from_coll
             (mk_fk (from_field doc) (to_collection doc) (to_field doc)) colls
       | None => colls
       end)
    rel_docs collections.

Definition _inspect_mongodb (srv : MongoServer) (database : string) : Res SchemaDict :=
  match mg_client srv with
  | Raise e => Raise e
  | Ok _ =>
      finally
        (collection_names ← mg_list_collection_names srv;
         collections ← mapM (fun coll_name : string =>
             doc_count ← mg_count_documents srv coll_name;
             let sample_size := if (0 <? doc_count)%Z then Z.min 100 doc_count else 0%Z in
             samples ← mg_find_limit srv coll_name sample_size;
             let fields := infer_fields samples in
             let fields :=
               if negb (has_id_field fields)
               then field_dict "_id" "string" false :: fields
               else fields in
             Ok (mk_table coll_name "collection" fields ["_id"] [] doc_count))
           collection_names;
         let collections :=
           match mg_relationships srv with
           | Ok (Some rel_docs) => add_relationships rel_docs collections
           | Ok None => collections
           | Raise _ => collections
           end in
         Ok (mk_schema_dict (Some true) (Some database) (Some "mongodb")
                            (Some collections) None))
        (mg_close srv)
  end.

(** *** [get_schema] *)

(** The arguments of [get_schema] after [db_type]. *)
Record Connection := mk_connection {
  host : string;
  port : Z;
  database : string;
  username : option string;
  password : option string;
  ssl_enabled : bool
}.

(** The databases that can be reached, by the parameters that each client
    library is given. *)
Record Network := mk_network {
  postgres_at : Connection -> PostgresServer;
  mysql_at : Connection -> MysqlServer;
  mongo_at : string -> MongoServer;
  sqlite_at : string -> SqliteFile
}.

Definition non_empty (o : option string) : bool :=
  match o with Some s => negb (s =? "") | None => false end.

Definition mongodb_connection_string (c : Connection) : string :=
  let base :=
    if non_empty (username c) && non_empty (password c)
    then "mongodb://" +:+ default "" (username c) +:+ ":" +:+ default "" (password c)
         +:+ "@" +:+ host c +:+ ":" +:+ pretty (port c) +:+ "/" +:+ database c
    else "mongodb://" +:+ host c +:+ ":" +:+ pretty (port c) +:+ "/" +:+ database c in
  if ssl_enabled c then base +:+ "?ssl=true" else base.

Definition get_schema (net : Network) (db_type : string) (c : Connection) : Res SchemaDict :=
  try_except
    (if db_type =? "postgresql" then _inspect_postgresql (postgres_at net c) (database c)
     else if db_type =? "mysql" then _inspect_mysql (mysql_at net c) (database c)
     else if db_type =? "mongodb" then
       _inspect_mongodb (mongo_at net (mongodb_connection_string c)) (database c)
     else if db_type =? "sqlite" then _inspect_sqlite (sqlite_at net (database c)) (database c)
     else Ok (mk_schema_dict (Some false) None None None
                (Some ("Unsupported database type: " +:+ db_type))))
    (fun e =>
       Ok (mk_schema_dict (Some false) None None None
             (Some ("Schema inspection failed: " +:+ exn_msg e)))).

End SchemaInspector.

(** ** Servers used to exercise the inspector *)

Module InspectorExamples.
Import Py Schema SchemaInspector.

(** A PostgreSQL server with one table [events(id)], on which
    [SELECT COUNT] is refused. *)
Definition count_denied : PostgresServer :=
  {| pg_connect := Ok tt;
     pg_fetch_tables := Ok [("events", "BASE TABLE")];
     pg_fetch_columns := fun _ => Ok [mk_pg_column "id" "integer" None "NO" None];
     pg_fetch_primary_keys := fun _ => Ok ["id"];
     pg_fetch_foreign_keys := fun _ => Ok [];
     pg_fetchval_count := fun _ => raise Exception "permission denied for table events";
     pg_close := Ok tt |}.

Definition unreachable_mysql : MysqlServer :=
  {| my_connect := raise Exception "Can't connect to MySQL server";
     my_show_tables := Ok [];
     my_describe := fun _ => Ok [];
     my_foreign_keys := fun _ => Ok [];
     my_count := fun _ => Ok 0%Z;
     my_close := Ok tt |}.

Definition empty_mongo : MongoServer :=
  {| mg_client := Ok tt;
     mg_list_collection_names := Ok [];
     mg_count_documents := fun _ => Ok 0%Z;
     mg_find_limit := fun _ _ => Ok [];
     mg_relationships := Ok None;
     mg_close := Ok tt |}.

Definition empty_sqlite : SqliteFile :=
  {| sq_connect := Ok tt;
     sq_tables := Ok [];
     sq_table_info := fun _ => Ok [];
     sq_foreign_key_list := fun _ => Ok [];
     sq_count := fun _ => Ok 0%Z;
     sq_close := Ok tt |}.

Definition lab_network : Network :=
  {| postgres_at := fun _ => count_denied;
     mysql_at := fun _ => unreachable_mysql;
     mongo_at := fun _ => empty_mongo;
     sqlite_at := fun _ => empty_sqlite |}.

Definition lab_connection : Connection :=
  mk_connection "db.example" 5432 "app" (Some "reader") (Some "secret") false.

End InspectorExamples.

(** ** [migration_engine.py]: [MigrationEngine.migrate], and
       [routes/migrations.py]: the job around it *)

Module MigrationJob.
Import Py Schema SchemaInspector.

Inductive MigrationStatus :=
| PENDING | IN_PROGRESS | COMPLETED | FAILED | ROLLED_BACK | CANCELLED | PAUSED.

#[global] Instance MigrationStatus_eq_dec : EqDecision MigrationStatus.
Proof. solve_decision. Defined.

(** The columns of the [migrations] row that the job and the cancel
    endpoint write.  [progress_percentage] is a float in the source; it is
    kept as the rational it approximates. *)
Record Migration := mk_migration {
  status : MigrationStatus;
  current_step : option string;
  progress_percentage : Q;
  total_tables : Z;
  completed_tables : Z;
  migrated_rows : Z;
  success_message : option string;
  error_message : option string;
  job_log : list string;
  can_rollback : bool
}.

(** Everything the job can change: the registry [CANCEL_REQUESTS], the row
    of the migration, the tables that exist in the target database, and the
    engine's [migration_log] (without wall-clock prefixes). *)
Record World := mk_world {
  CANCEL_REQUESTS : gmap Z bool;
  migration : Migration;
  target_tables : list string;
  migration_log : list string
}.

(** The dictionary returned by [migrate]. *)
Record MigrateResult := mk_result {
  result_success : bool;
  result_message : option string;
  result_total_tables : option Z;
  result_total_rows : option Z;
  result_error : option string;
  result_log : list string
}.

(** The surroundings of one job: the databases behind the two
    connections, the snapshot service, the order in which sets are
    iterated, and the moment at which a cancel request of the user is
    served (while the rows of the named table are in transfer). *)
Record Env := mk_env {
  migration_id : Z;
  source_db_type : string;
  target_db_type : string;
  source_connection : Connection;
  network : Network;
  set_iter : gset string -> list string;
  (** executing the [CREATE TABLE] of a table on the target *)
  execute_create : string -> Res unit;
  (** executing the [DROP TABLE IF EXISTS] of a table on the target *)
  execute_drop : string -> Res unit;
  (** [_fetch_source_data]: the number of rows fetched *)
  fetch_source_data : string -> Res Z;
  (** [_insert_target_data] *)
  insert_target_data : string -> Res unit;
  (** [SnapshotManager.create_snapshot]: its [success] flag *)
  create_snapshot : Res bool;
  cancel_served_during : string -> bool
}.

(** Computations that read and write the world and may raise. *)
Definition M (A : Type) : Type := World -> Res A * World.

#[global] Instance M_ret : MRet M := fun A a w => (Ok a, w).
#[global] Instance M_bind : MBind M := fun A B k m w =>
  match m w with
  | (Ok a, w') => k a w'
  | (Raise e, w') => (Raise e, w')
  end.

Definition throw {A} (msg : string) : M A := fun w => (raise Exception msg, w).

Definition lift {A} (r : Res A) : M A := fun w => (r, w).

(** [try: m except Exception as e: h e] *)
Definition catch {A} (m : M A) (h : exn -> M A) : M A := fun w =>
  match m w with
  | (Ok a, w') => (Ok a, w')
  | (Raise e, w') => h e w'
  end.

Definition get_world : M World := fun w => (Ok w, w).

(** Assignments to the columns of the migration, followed by
    [await db.commit()].  The commit is taken to succeed: a failure of the
    application database is left out. *)
Definition update_migration (f : Migration -> Migration) : M unit := fun w =>
  (Ok tt, mk_world (CANCEL_REQUESTS w) (f (migration w)) (target_tables w) (migration_log w)).

Definition set_status (s : MigrationStatus) (m : Migration) : Migration :=
  mk_migration s (current_step m) (progress_percentage m) (total_tables m)
    (completed_tables m) (migrated_rows m) (success_message m) (error_message m)
    (job_log m) (can_rollback m).

Definition set_step (step : string) (m : Migration) : Migration :=
  mk_migration (status m) (Some step) (progress_percentage m) (total_tables m)
    (completed_tables m) (migrated_rows m) (success_message m) (error_message m)
    (job_log m) (can_rollback m).

Definition set_progress (p : Q) (m : Migration) : Migration :=
  mk_migration (status m) (current_step m) p (total_tables m)
    (completed_tables m) (migrated_rows m) (success_message m) (error_message m)
    (job_log m) (can_rollback m).

Definition set_error (e : option string) (m : Migration) : Migration :=
  mk_migration (status m) (current_step m) (progress_percentage m) (total_tables m)
    (completed_tables m) (migrated_rows m) (success_message m) e
    (job_log m) (can_rollback m).

Definition set_can_rollback (b : bool) (m : Migration) : Migration :=
  mk_migration (status m) (current_step m) (progress_percentage m) (total_tables m)
    (completed_tables m) (migrated_rows m) (success_message m) (error_message m)
    (job_log m) b.

Definition append_job_log (lines : list string) (m : Migration) : Migration :=
  mk_migration (status m) (current_step m) (progress_percentage m) (total_tables m)
    (completed_tables m) (migrated_rows m) (success_message m) (error_message m)
    (job_log m ++ lines)%list (can_rollback m).

Definition set_statistics (message : option string) (tables rows : Z) (m : Migration)
  : Migration :=
  mk_migration (status m) (current_step m) (progress_percentage m) tables
    tables rows message (error_message m) (job_log m) (can_rollback m).

(** [self.log(message)]: the line is appended to [migration_log].  The
    [print] that follows the append is left out, and with it the
    exception of a standard output that cannot be written. *)
Definition log (message : string) : M unit := fun w =>
  (Ok tt, mk_world (CANCEL_REQUESTS w) (migration w) (target_tables w)
                   (migration_log w ++ [message])%list).

Definition create_in_target (table_name : string) : M unit := fun w =>
  (Ok tt, mk_world (CANCEL_REQUESTS w) (migration w)
                   (List.filter (fun n => negb (n =? table_name)) (target_tables w)
                      ++ [table_name])%list
                   (migration_log w)).

Definition drop_in_target (table_name : string) : M unit := fun w =>
  (Ok tt, mk_world (CANCEL_REQUESTS w) (migration w)
                   (List.filter (fun n => negb (n =? table_name)) (target_tables w))
                   (migration_log w)).

Fixpoint for_each_M {A} (body : A -> M unit) (l : list A) : M unit :=
  match l with
  | [] => mret tt
  | x :: l' => body x ;; for_each_M body l'
  end.

(** *** The cancel endpoint *)

(** [cancel_migration]: the handler of [POST /{migration_id}/cancel];
    a migration that is not in progress is refused with status 400. *)
Definition cancel_migration (id : Z) (w : World) : World :=
  if bool_decide (status (migration w) = IN_PROGRESS) then
    mk_world (<[ id := true ]> (CANCEL_REQUESTS w))
             (set_step "Cancellation requested..." (set_status CANCELLED (migration w)))
             (target_tables w) (migration_log w)
  else w.

Section WithEnv.
Variable env : Env.

(** The point at which the event loop may serve a cancel request. *)
Definition serve_requests (table_name : string) : M unit := fun w =>
  if cancel_served_during env table_name
  then (Ok tt, cancel_migration (migration_id env) w)
  else (Ok tt, w).

(** *** The engine *)

Definition _get_source_schema : M SchemaDict :=
  lift (get_schema (network env) (source_db_type env) (source_connection env)).

Definition supported (db_type : string) : bool :=
  in_list db_type ["postgresql"; "mysql"; "mongodb"; "sqlite"].

(** [_migrate_schema]: each table is dropped first when [drop_if_exists]
    and then created, in order.  The foreign-key statements that follow
    are each wrapped in their own [try] and never abort the migration. *)
Definition _migrate_schema (tables : list Table) (drop_if_exists : bool) : M unit :=
  if supported (target_db_type env) then
    for_each_M
      (fun table =>
         (if drop_if_exists then
            lift (execute_drop env (name table)) ;;
            drop_in_target (name table) ;;
            log ("  - Dropped existing table: " +:+ name table)
          else mret tt) ;;
         lift (execute_create env (name table)) ;;
         create_in_target (name table) ;;
         log ("  ✓ Created table: " +:+ name table))
      tables
  else throw ("Unsupported target database: " +:+ target_db_type env).

(** [_migrate_table_data] *)
Definition _migrate_table_data (table : Table) : M Z :=
  let table_name := name table in
  log ("  📊 Fetching data from " +:+ source_db_type env +:+ " source: " +:+ table_name) ;;
  serve_requests table_name ;;
  rows ← lift (fetch_source_data env table_name);
  if (rows =? 0)%Z then
    log ("  ℹ️  No data found in " +:+ table_name) ;; mret 0%Z
  else
    log ("  ✓ Fetched " +:+ pretty rows +:+ " rows from source") ;;
    log ("  💾 Inserting into " +:+ target_db_type env +:+ " target: " +:+ table_name) ;;
    lift (insert_target_data env table_name) ;;
    mret rows.

(** [_rollback_tables] *)
Definition _rollback_tables (table_names : list string) : M unit :=
  if supported (target_db_type env) then
    for_each_M
      (fun table_name =>
         lift (execute_drop env table_name) ;;
         drop_in_target table_name ;;
         log ("  ✓ Dropped table: " +:+ table_name))
      (rev table_names)
  else mret tt.

(** [if progress_callback: await progress_callback(percentage, step)] *)
Definition notify (progress_callback : option (Q -> string -> M unit))
    (percentage : Q) (step : string) : M unit :=
  match progress_callback with
  | Some callback => callback percentage step
  | None => mret tt
  end.

(** The loop [for idx, table in enumerate(tables_to_migrate)]. *)
Fixpoint migrate_data (progress_callback : option (Q -> string -> M unit))
    (total : nat) (idx : nat) (tables : list Table) (migrated_rows : Z) : M Z :=
  match tables with
  | [] => mret migrated_rows
  | table :: rest =>
      notify progress_callback
             (40 + 50 * (Z.of_nat idx # Pos.of_nat total))%Q
             ("Migrating data: " +:+ name table) ;;
      rows ← _migrate_table_data table;
      log ("  ✓ " +:+ name table +:+ ": " +:+ pretty rows +:+ " rows migrated") ;;
      migrate_data progress_callback total (S idx) rest (migrated_rows + rows)%Z
  end.

Definition schema_or_raise : M (list Table) :=
  schema ← _get_source_schema;
  match success schema with
  | Some true => mret (default [] (tables schema))
  | _ => throw ("Failed to get schema: " +:+ default "None" (error schema))
  end.

(** The name of a family in the messages of the native functions. *)
Definition family_label (db_type : string) : string :=
  if db_type =? "mysql" then "MySQL"
  else if db_type =? "postgresql" then "PostgreSQL"
  else if db_type =? "mongodb" then "MongoDB"
  else "SQLite".

(** [_native_migrate] with the four functions it dispatches to, which
    differ in the wording of their steps and, for SQLite, in leaving
    [sqlite_sequence] out. *)
Definition _native_migrate (selected_tables : list string) (drop_if_exists : bool)
    (progress_callback : option (Q -> string -> M unit)) : M MigrateResult :=
  catch
    (if supported (source_db_type env) then
       log "📋 Step 1/3: Fetching source schema..." ;;
       notify progress_callback 10 "Fetching source schema" ;;
       all_tables ← schema_or_raise;
       let tables_to_migrate :=
         List.filter
           (fun t => in_list (name t) selected_tables
                     && negb ((source_db_type env =? "sqlite") && (name t =? "sqlite_sequence")))
           all_tables in
       log "🏗️  Step 2/3: Migrating schema..." ;;
       notify progress_callback 30 "Migrating schema" ;;
       _migrate_schema tables_to_migrate drop_if_exists ;;
       log "📦 Step 3/3: Migrating data..." ;;
       migrated_rows ← migrate_data progress_callback (length tables_to_migrate) 0
                                    tables_to_migrate 0;
       log ("✅ " +:+ family_label (source_db_type env) +:+ " native migration completed") ;;
       w ← get_world;
       mret (mk_result true
                       (Some ("Native " +:+ family_label (source_db_type env)
                              +:+ " migration completed successfully"))
                       (Some (Z.of_nat (length tables_to_migrate))) (Some migrated_rows)
                       None (migration_log w))
     else throw ("Native migration not supported for " +:+ source_db_type env))
    (fun e => log ("❌ Native migration failed: " +:+ exn_msg e) ;; lift (Raise e)).

(** The handler [except Exception as e] of [migrate]; [tables_to_migrate]
    is the value that the variable holds when the exception arrives. *)
Definition migrate_failed (selected_tables : list string) (tables_to_migrate : list Table)
    (e : exn) : M MigrateResult :=
  log ("❌ Migration failed: " +:+ exn_msg e) ;;
  catch
    (log "🔄 Attempting rollback..." ;;
     _rollback_tables
       (match tables_to_migrate with
        | [] => selected_tables
        | _ => map name tables_to_migrate
        end) ;;
     log "✓ Rollback completed")
    (fun rollback_error => log ("⚠️ Rollback failed: " +:+ exn_msg rollback_error)) ;;
  w ← get_world;
  mret (mk_result false None None None (Some (exn_msg e)) (migration_log w)).

(** [_resolve_dependencies] as the engine calls it: the lines it logs go
    to [migration_log]. *)
Definition resolve (all_tables : list Table) (selected_tables : list string)
  : M (list Table) := fun w =>
  match Resolver._resolve_dependencies (set_iter env)
          (Resolver.enough_fuel all_tables selected_tables)
          (source_db_type env) all_tables selected_tables with
  | Some (ordered, lines) =>
      (Ok ordered, mk_world (CANCEL_REQUESTS w) (migration w) (target_tables w)
                            (migration_log w ++ lines)%list)
  | None => (raise Exception "maximum recursion depth exceeded", w)
  end.

(** [migrate] *)
Definition migrate (selected_tables : list string) (drop_if_exists : bool)
    (progress_callback : option (Q -> string -> M unit)) : M MigrateResult :=
  catch
    (log "🚀 Migration started" ;;
     log ("   Source: " +:+ source_db_type env +:+ " → Target: " +:+ target_db_type env) ;;
     if source_db_type env =? target_db_type env then
       log "⚡ Using optimized native migration (same database type)" ;;
       r ← _native_migrate selected_tables drop_if_exists progress_callback;
       mret (inl r)
     else
       log "📋 Step 1/4: Fetching source schema..." ;;
       notify progress_callback 10 "Fetching source schema" ;;
       all_tables ← schema_or_raise;
       log "🔍 Step 2/4: Analyzing dependencies..." ;;
       notify progress_callback 20 "Analyzing dependencies" ;;
       tables_to_migrate ← resolve all_tables selected_tables;
       mret (inr tables_to_migrate))
    (fun e => r ← migrate_failed selected_tables [] e; mret (inl r))
  ≫= fun first =>
  match first with
  | inl r => mret r
  | inr tables_to_migrate =>
      catch
        (log ("✓ Found " +:+ pretty (Z.of_nat (length tables_to_migrate))
              +:+ " tables to migrate") ;;
         log "🏗️  Step 3/4: Migrating schema..." ;;
         notify progress_callback 30 "Migrating schema" ;;
         _migrate_schema tables_to_migrate drop_if_exists ;;
         log "✓ Schema migration completed" ;;
         log "📦 Step 4/4: Migrating data..." ;;
         migrated_rows ← migrate_data progress_callback (length tables_to_migrate) 0
                                      tables_to_migrate 0;
         log "✅ Migration completed" ;;
         notify progress_callback 100 "Migration completed" ;;
         w ← get_world;
         mret (mk_result true (Some "Migration completed successfully")
                         (Some (Z.of_nat (length tables_to_migrate))) (Some migrated_rows)
                         None (migration_log w)))
        (migrate_failed selected_tables tables_to_migrate)
  end.

(** *** The job *)

(** The closure [update_progress] handed to the engine. *)
Definition update_progress (percentage : Q) (step : string) : M unit := fun w =>
  if default false (CANCEL_REQUESTS w !! migration_id env) then
    (raise Exception "Migration cancelled by user",
     mk_world (delete (migration_id env) (CANCEL_REQUESTS w)) (migration w)
              (target_tables w) (migration_log w))
  else
    (Ok tt,
     mk_world (CANCEL_REQUESTS w)
              (append_job_log [step]
                 (set_step step
                    (set_progress (10 + percentage * (9 # 10))%Q (migration w))))
              (target_tables w) (migration_log w)).

(** The snapshot taken before a migration that is not a dry run. *)
Definition pre_migration_snapshot (is_dry_run : bool) : M unit :=
  if is_dry_run then mret tt
  else
    catch
      (ok ← lift (create_snapshot env);
       if ok : bool then
         update_migration (fun m =>
           set_progress 10 (set_step "✓ Pre-migration snapshot completed" m))
       else
         update_migration (fun m =>
           set_progress 10
             (set_step "⚠️ Snapshot failed, continuing migration..."
                (set_can_rollback false m))))
      (fun _ =>
         update_migration (fun m =>
           set_progress 10
             (set_step "⚠️ Snapshot failed, continuing migration..."
                (set_can_rollback false m)))).

(** The early exit of the job when cancellation was requested before it
    started. *)
Definition cancel_before_start : M unit := fun w =>
  (Ok tt, mk_world (delete (migration_id env) (CANCEL_REQUESTS w))
                   (set_step "Cancelled by user" (set_status CANCELLED (migration w)))
                   (target_tables w) (migration_log w)).

(** [run_migration_job], for a migration and connections that exist.
    The job returns nothing; its effect is the final world. *)
Definition run_migration_job (selected_tables : list string) (drop_if_exists : bool)
    (is_dry_run : bool) : M unit :=
  update_migration (fun m =>
    set_progress 5 (set_step "Creating pre-migration snapshot..." (set_status IN_PROGRESS m))) ;;
  w ← get_world;
  if default false (CANCEL_REQUESTS w !! migration_id env) then cancel_before_start
  else
    pre_migration_snapshot is_dry_run ;;
    catch
      (result ← migrate selected_tables drop_if_exists (Some update_progress);
       (if result_success result then
          update_migration (fun m =>
            set_progress 100
              (set_statistics (result_message result)
                 (default 0%Z (result_total_tables result))
                 (default 0%Z (result_total_rows result))
                 (set_status COMPLETED m)))
        else
          update_migration (fun m =>
            set_error (result_error result) (set_status FAILED m))) ;;
       update_migration (append_job_log (result_log result)))
      (fun e =>
         update_migration (fun m => set_error (Some (exn_msg e)) (set_status FAILED m))).

End WithEnv.

(** The world in which a job starts: a pending migration, nothing
    requested, an empty target. *)
Definition initial_world : World :=
  mk_world ∅
    (mk_migration PENDING None 0 0 0 0 None None [] true)
    [] [].

(** *** A migration of three tables, cancelled while the first is in transfer *)

Definition plain_table (n : string) (refs : list ForeignKey) : Table :=
  mk_table n "BASE TABLE"
    [list_to_map [("name", PStr "id"); ("type", PStr "int"); ("nullable", PBool false)]]
    ["id"] refs 10.

Definition billing_source : MysqlServer :=
  {| my_connect := Ok tt;
     my_show_tables := Ok ["customers"; "orders"; "payments"];
     my_describe := fun _ => Ok [mk_mysql_column "id" "int" "NO" "PRI" None ""];
     my_foreign_keys := fun t =>
       if t =? "orders" then Ok [mk_pg_fk "customer_id" "customers" "id"]
       else if t =? "payments" then Ok [mk_pg_fk "order_id" "orders" "id"]
       else Ok [];
     my_count := fun _ => Ok 10%Z;
     my_close := Ok tt |}.

Definition billing_network : Network :=
  {| postgres_at := fun _ => InspectorExamples.count_denied;
     mysql_at := fun _ => billing_source;
     mongo_at := fun _ => InspectorExamples.empty_mongo;
     sqlite_at := fun _ => InspectorExamples.empty_sqlite |}.

Definition cancelled_during_customers : Env :=
  {| migration_id := 7;
     source_db_type := "mysql";
     target_db_type := "postgresql";
     source_connection := mk_connection "src.example" 3306 "billing" (Some "app") (Some "pw") false;
     network := billing_network;
     set_iter := elements;
     execute_create := fun _ => Ok tt;
     execute_drop := fun _ => Ok tt;
     fetch_source_data := fun _ => Ok 10%Z;
     insert_target_data := fun _ => Ok tt;
     create_snapshot := Ok true;
     cancel_served_during := fun t => t =? "customers" |}.

(** The same surroundings without any cancel request. *)
Definition never_cancelled : Env :=
  {| migration_id := 7;
     source_db_type := "mysql";
     target_db_type := "postgresql";
     source_connection := mk_connection "src.example" 3306 "billing" (Some "app") (Some "pw") false;
     network := billing_network;
     set_iter := elements;
     execute_create := fun _ => Ok tt;
     execute_drop := fun _ => Ok tt;
     fetch_source_data := fun _ => Ok 10%Z;
     insert_target_data := fun _ => Ok tt;
     create_snapshot := Ok true;
     cancel_served_during := fun _ => false |}.

End MigrationJob.

(** ** More vocabulary for the resolver *)

Module ResolverReach.
Import Py Schema Resolver.

(** [b] is in the dependency set that the map [D] holds for [a]. *)
Definition dep_edge (D : gmap string (gset string)) (a b : string) : Prop :=
  exists ds, D !! a = Some ds /\ b ∈ ds.

(** The line logged when [dep] is pulled in. *)
Definition auto_selected (dep : string) : string :=
  "  + Auto-selected dependent table: " +:+ dep.

(** What [add_dependencies] may change: names are only added, and the log
    grows by one line for each added name, in the order of their addition. *)
Definition announces (st st' : include_state) : Prop :=
  tables_to_include st ⊆ tables_to_include st'
  /\ exists added,
       migration_log st' = (migration_log st ++ map auto_selected added)%list
       /\ NoDup added
       /\ (forall x, x ∈ added <-> x ∈ tables_to_include st' /\ x ∉ tables_to_include st).

(** Two tables that reference each other, and a third that neither
    references nor is referenced. *)
Definition staff : Table :=
  Examples.table_with "staff" [Examples.fk_to "department_id" "departments"].
Definition departments : Table :=
  Examples.table_with "departments" [Examples.fk_to "head_id" "staff"].
Definition holidays : Table := Examples.table_with "holidays" [].
Definition office : list Table := [staff; departments; holidays].

(** Collections of a MongoDB database, one of them a system collection. *)
Definition archive : list Table :=
  [ mk_table "posts" "collection" [] ["_id"] [Examples.fk_to "author_id" "authors"] 0;
    mk_table "authors" "collection" [] ["_id"] [] 0;
    mk_table "system.profile" "collection" [] ["_id"] [] 0 ].

End ResolverReach.

(** ** More vocabulary for the conversion of binary values *)

Module ConverterSpec.
Import Py ValueConverter.

(** Every byte is below 128. *)
Definition is_ascii (b : list byte) : bool :=
  forallb (fun x => (Byte.to_N x <? 128)%N) b.

(** Every byte is a printable ASCII character (space to tilde). *)
Definition printable_ascii (b : list byte) : bool :=
  forallb (fun x => (32 <=? Byte.to_N x)%N && (Byte.to_N x <=? 126)%N) b.

(** The variant bits of an RFC 4122 UUID: the two high bits of byte 8 are
    [10] ([uuid.UUID(bytes=b).variant == uuid.RFC_4122]).  The conversion
    does not look at them. *)
Definition is_rfc4122_variant (b : list byte) : bool :=
  match nth_error b 8 with
  | Some x => (N.shiftr (Byte.to_N x) 6 =? 2)%N
  | None => false
  end.

(** A UTF-8 codec as far as ASCII input goes; the witnesses below use no
    other input. *)
Definition utf8_on_ascii (b : list byte) : Res pystr := decode_ascii b.

End ConverterSpec.

(** ** More vocabulary for the schema inspector *)

Module InspectorSpec.
Import Py Schema SchemaInspector.

(** What the type mapper finds in a column descriptor written by the
    inspector: its name and its type, and no key [is_nullable]. *)
Definition inspected_column (col : gmap string PyVal) : Prop :=
  col !! "is_nullable" = None
  /\ col !! "data_type" = None
  /\ exists n ty, col !! "name" = Some (PStr n) /\ col !! "type" = Some (PStr ty).

(** The same server, had it no collection [_dblens_relationships]. *)
Definition without_relationships (srv : MongoServer) : MongoServer :=
  {| mg_client := mg_client srv;
     mg_list_collection_names := mg_list_collection_names srv;
     mg_count_documents := mg_count_documents srv;
     mg_find_limit := mg_find_limit srv;
     mg_relationships := Ok None;
     mg_close := mg_close srv |}.

(** A MongoDB database with the collections [posts], of one document, and
    [drafts], whose only document is gone by the time it is sampled. *)
Definition blog_mongo (relationships : Res (option (list Relationship))) : MongoServer :=
  {| mg_client := Ok tt;
     mg_list_collection_names := Ok ["posts"; "drafts"];
     mg_count_documents := fun _ => Ok 1%Z;
     mg_find_limit := fun coll_name _ =>
       Ok (if coll_name =? "posts"
           then [[("title", BStr "Hello"); ("views", BInt 3); ("author_id", BOther)]]
           else []);
     mg_relationships := relationships;
     mg_close := Ok tt |}.

(** A PostgreSQL server with the tables [events] and [users], whose
    connection cannot be closed cleanly when [close] is a failure. *)
Definition events_postgres (close : Res unit) : PostgresServer :=
  {| pg_connect := Ok tt;
     pg_fetch_tables := Ok [("events", "BASE TABLE"); ("users", "BASE TABLE")];
     pg_fetch_columns := fun _ => Ok [mk_pg_column "id" "integer" None "NO" None];
     pg_fetch_primary_keys := fun _ => Ok ["id"];
     pg_fetch_foreign_keys := fun _ => Ok [];
     pg_fetchval_count := fun table_name => Ok (if table_name =? "events" then 12%Z else 3%Z);
     pg_close := close |}.

Definition events_network (close : Res unit) : Network :=
  {| postgres_at := fun _ => events_postgres close;
     mysql_at := fun _ => InspectorExamples.unreachable_mysql;
     mongo_at := fun _ => blog_mongo (raise Exception "not callable");
     sqlite_at := fun _ => InspectorExamples.empty_sqlite |}.

End InspectorSpec.

(** ** More vocabulary for the migration engine *)

Module EngineSpec.
Import Py Schema SchemaInspector MigrationJob.

(** The total that [migrated_rows += rows] accumulates over the tables. *)
Definition sum_rows (rows : list Z) : Z := fold_right Z.add 0%Z rows.

(** A migration from a MySQL server that cannot be reached. *)
Definition unreachable_source : Env :=
  {| migration_id := 8;
     source_db_type := "mysql";
     target_db_type := "postgresql";
     source_connection := mk_connection "gone.example" 3306 "billing" (Some "app") (Some "pw") false;
     network := InspectorExamples.lab_network;
     set_iter := elements;
     execute_create := fun _ => Ok tt;
     execute_drop := fun _ => Ok tt;
     fetch_source_data := fun _ => Ok 10%Z;
     insert_target_data := fun _ => Ok tt;
     create_snapshot := Ok true;
     cancel_served_during := fun _ => false |}.

(** The migration of the billing tables, with a target that rejects the
    rows of [orders]. *)
Definition orders_rejected : Env :=
  {| migration_id := 9;
     source_db_type := "mysql";
     target_db_type := "postgresql";
     source_connection := mk_connection "src.example" 3306 "billing" (Some "app") (Some "pw") false;
     network := billing_network;
     set_iter := elements;
     execute_create := fun _ => Ok tt;
     execute_drop := fun _ => Ok tt;
     fetch_source_data := fun _ => Ok 10%Z;
     insert_target_data := fun t =>
       if t =? "orders" then raise Exception "violates foreign key constraint" else Ok tt;
     create_snapshot := Ok true;
     cancel_served_during := fun _ => false |}.

(** A target database that already holds the tables [customers] and [audit]. *)
Definition live_target : World :=
  mk_world ∅ (mk_migration PENDING None 0 0 0 0 None None [] true) ["customers"; "audit"] [].

End EngineSpec.

(** ** [migration_engine.py]: the SQLite target *)

Module EngineSqlite.
Import Py Schema DataTypeMapper.

(** [s.endswith(suffix)] *)
Definition endswith (s suffix : string) : bool :=
  (String.length suffix <=? String.length s)%nat
  && (substring (String.length s - String.length suffix) (String.length suffix) s =? suffix).

(** The configuration dictionary of a connection, as far as
    [_resolve_sqlite_path] reads it; a key bound to [None] holds Python's
    [None]. *)
Definition Config := gmap string (option string).

(** [config.get(k)] *)
Definition config_get (config : Config) (k : string) : option string :=
  match config !! k with
  | Some v => v
  | None => None
  end.

(** [not s] for a string or [None] *)
Definition falsy (s : option string) : bool :=
  match s with
  | Some s => s =? ""
  | None => true
  end.

(** [_resolve_sqlite_path(config, must_exist)]; [path_exists] is
    [os.path.exists].  Calling [endswith] on [None] raises an
    [AttributeError], a subclass of [Exception] that no handler of the
    engine tells apart from it. *)
Definition _resolve_sqlite_path
    (path_exists : string -> bool) (config : Config) (must_exist : bool) : Res string :=
  let db_path :=
    if negb (falsy (config_get config "database_path"))
    then config_get config "database_path"
    else config_get config "host" in
  let db_path :=
    if falsy db_path
       || match db_path with
          | Some p => in_list p ["localhost"; "127.0.0.1"; "0.0.0.0"]
          | None => false
          end
    then match config !! "database_name" with
         | Some v => v
         | None => Some "database"
         end
    else db_path in
  match db_path with
  | None => raise Exception "'NoneType' object has no attribute 'endswith'"
  | Some p =>
      let p := if negb (endswith p ".db") then p +:+ ".db" else p in
      if must_exist && negb (path_exists p)
      then raise Exception ("SQLite database file not found: " +:+ p)
      else Ok p
  end.

(** The [FOREIGN KEY] clause that [_migrate_schema_sqlite] writes for a
    foreign key whose three fields are all truthy.  The descriptors of
    the inspector carry the same value under [column] and [column_name],
    and no key [referenced_table] or [referenced_column]. *)
Definition foreign_key_clause (fk : ForeignKey) : list string :=
  match column fk, references_table fk, references_column fk with
  | Some col_fk, Some ref_table, Some ref_col =>
      if negb (col_fk =? "") && negb (ref_table =? "") && negb (ref_col =? "")
      then ["FOREIGN KEY (`" +:+ col_fk +:+ "`) REFERENCES `" +:+ ref_table
            +:+ "`(`" +:+ ref_col +:+ "`)"]
      else []
  | _, _, _ => []
  end.

(** The statement [create_sql] that [_migrate_schema_sqlite] builds for
    one table, without going through [get_create_table_sql]. *)
Definition sqlite_create_sql (source_db_type : string) (table : Table) : string :=
  let col_defs :=
    map (fun col =>
           let col_name := column_name col in
           let source_type := get_column_data_type col in
           let col_type := map_to_sqlite source_type source_db_type in
           let col_def := quote "`" col_name +:+ " " +:+ col_type in
           if not_nullable col then col_def +:+ " NOT NULL" else col_def)
        (columns table) in
  let col_defs := (col_defs ++ primary_key_clause "`" (primary_keys table))%list in
  let col_defs := (col_defs ++ flat_map foreign_key_clause (foreign_keys table))%list in
  "CREATE TABLE `" +:+ name table +:+ "` (" +:+ String (chr 10) "  "
    +:+ join ("," +:+ String (chr 10) "  ") col_defs
    +:+ String (chr 10) ")".

End EngineSqlite.

(** ** [migration_engine.py]: the batches of the insert functions *)

Module Batches.

(** [range(0, stop, step)]: the values [0], [step], ... below [stop].
    [fuel] bounds the number of values; [stop] of them are enough for a
    positive [step]. *)
Fixpoint range_from (fuel i stop step : nat) : list nat :=
  match fuel with
  | O => []
  | S fuel' => if (i <? stop)%nat then i :: range_from fuel' (i + step) stop step else []
  end.

Definition range (stop step : nat) : list nat := range_from stop 0 stop step.

(** [rows[i:j]] *)
Definition slice_rows {A} (rows : list A) (i j : nat) : list A :=
  take (j - i) (drop i rows).

Definition batch_size : nat := 1000.

(** The arguments of the successive calls of [executemany] in
    [for i in range(0, len(rows), step): batch = rows[i:i + step]]. *)
Definition batches_of {A} (step : nat) (rows : list A) : list (list A) :=
  map (fun i => slice_rows rows i (i + step)) (range (length rows) step).

Definition batches {A} (rows : list A) : list (list A) := batches_of batch_size rows.

End Batches.

(* ===================================================================== *)
(** * Part II: lemmas and theorems                                        *)
(* ===================================================================== *)

(** ** The type mapper *)

Section MapperClaims.
Import Py DataTypeMapper MapperSpec.

Lemma dict_get_None {V} (d : gmap string V) k (default : V) :
  d !! k = None -> dict_get d k default = default.
Proof. intros H. unfold dict_get. by rewrite H. Qed.

Lemma dict_get_Some {V} (d : gmap string V) k (v default : V) :
  d !! k = Some v -> dict_get d k default = v.
Proof. intros H. unfold dict_get. by rewrite H. Qed.

(** C6.  The table [MYSQL_TO_POSTGRESQL] maps [tinyint(1)] to [boolean],
    but the generator looks up the type with its parenthesised suffix
    removed: every MySQL type whose base type is [tinyint], [tinyint(1)]
    included, becomes [smallint] in PostgreSQL.  In the other direction
    [boolean] becomes [tinyint(1)] in MySQL and [INTEGER] in SQLite. *)
Theorem tinyint1_becomes_smallint :
  MYSQL_TO_POSTGRESQL !! "tinyint(1)" = Some "boolean"
  /\ (forall col_name source_type,
        mysql_base_type source_type = "tinyint" ->
        postgresql_col_type "mysql" col_name source_type = Ok "smallint")
  /\ postgresql_col_type "mysql" (PStr "is_active") "tinyint(1)" = Ok "smallint"
  /\ get_create_table_sql "users" [column "is_active" "tinyint(1)"] [] "mysql" "postgresql"
     = Ok ("CREATE TABLE " +:+ dquote +:+ "users" +:+ dquote +:+ " (" +:+ String (chr 10) "  "
           +:+ dquote +:+ "is_active" +:+ dquote +:+ " smallint" +:+ String (chr 10) ")")
  /\ (forall col_name pk, mysql_col_type "postgresql" col_name pk "boolean" = "tinyint(1)")
  /\ (forall source_db, map_to_sqlite "boolean" source_db = "INTEGER").
Proof.
  split_and!; try reflexivity.
  - intros col_name source_type Hbase. unfold postgresql_col_type.
    change (("mysql" =? "mysql")%string) with true. cbv iota.
    fold (mysql_base_type source_type). rewrite Hbase.
    rewrite (dict_get_Some _ _ "smallint") by reflexivity.
    change (in_list "smallint" ["char"; "varchar"; "decimal"; "numeric"]) with false.
    by rewrite andb_false_r.
Qed.

Lemma unknown_is_not_length_type (d : gmap string string) (key : string -> string) s :
  (forall t, In t ["char"; "varchar"; "decimal"; "numeric"] -> key t = t /\ is_Some (d !! t)) ->
  d !! key s = None ->
  in_list s ["char"; "varchar"; "decimal"; "numeric"] = false.
Proof.
  intros Hk Hnone. destruct (in_list _ _) eqn:E; [|done]. exfalso.
  unfold in_list in E. apply existsb_exists in E as (t & Ht & Heq).
  apply String.eqb_eq in Heq as ->. destruct (Hk t Ht) as [Hkey [v Hv]].
  rewrite Hkey in Hnone. congruence.
Qed.

(** C7 (as amended).  A type that is not a key of the table consulted for
    its pair of families never makes the mapping fail.  It is passed
    through unchanged from MySQL to PostgreSQL and from PostgreSQL to MySQL;
    from SQLite or MongoDB, and into SQLite, it becomes the unconstrained
    text type of the target, except that a SQLite column that is part of
    the primary key becomes [VARCHAR(255)] in MySQL (the [_id] column of a
    MongoDB collection has its own rule). *)
Theorem unknown_type_fallback (col_name : PyVal) (source_type : string) :
  (MYSQL_TO_POSTGRESQL !! mysql_base_type source_type = None ->
     postgresql_col_type "mysql" col_name source_type = Ok source_type)
  /\ (POSTGRESQL_TO_MYSQL !! base_type source_type = None ->
      forall pk, mysql_col_type "postgresql" col_name pk source_type = source_type)
  /\ (sqlite_to_pg !! lower source_type = None ->
      postgresql_col_type "sqlite" col_name source_type = Ok (text_type "postgresql"))
  /\ (mongo_to_pg !! lower source_type = None -> col_name <> PStr "_id" ->
      postgresql_col_type "mongodb" col_name source_type = Ok (text_type "postgresql"))
  /\ (forall pk, sqlite_to_mysql pk !! lower source_type = None ->
      mysql_col_type "sqlite" col_name pk source_type
      = if pk then "VARCHAR(255)" else text_type "mysql")
  /\ (mongo_to_mysql !! lower source_type = None -> col_name <> PStr "_id" ->
      forall pk, mysql_col_type "mongodb" col_name pk source_type = text_type "mysql")
  /\ (SQLITE_TYPE_MAP !! base_type source_type = None ->
      forall source_db, sqlite_col_type source_db col_name source_type = text_type "sqlite").
Proof.
  split_and!.
  - intros Hnone. unfold postgresql_col_type.
    change (("mysql" =? "mysql")%string) with true. cbv iota.
    fold (mysql_base_type source_type). rewrite (dict_get_None _ _ _ Hnone).
    rewrite (unknown_is_not_length_type MYSQL_TO_POSTGRESQL mysql_base_type source_type); [|
      | done].
    + by rewrite andb_false_r.
    + intros t Ht. simpl in Ht.
      destruct Ht as [<-|[<-|[<-|[<-|[]]]]]; (split; [reflexivity | by eexists]).
  - intros Hnone pk. unfold mysql_col_type.
    change (("postgresql" =? "postgresql")%string) with true. cbv iota.
    fold (base_type source_type). rewrite (dict_get_None _ _ _ Hnone).
    destruct (source_type =? "varchar") eqn:E1.
    { apply String.eqb_eq in E1. subst source_type. discriminate Hnone. }
    destruct (source_type =? "char") eqn:E2.
    { apply String.eqb_eq in E2. subst source_type. discriminate Hnone. }
    reflexivity.
  - intros Hnone. unfold postgresql_col_type. simpl.
    by rewrite (dict_get_None _ _ _ Hnone).
  - intros Hnone Hid. unfold postgresql_col_type. simpl.
    rewrite (dict_get_None _ _ _ Hnone). by rewrite bool_decide_eq_false_2.
  - intros pk Hnone. unfold mysql_col_type. simpl.
    rewrite (dict_get_None _ _ _ Hnone). by destruct pk.
  - intros Hnone Hid pk. unfold mysql_col_type. simpl.
    rewrite (dict_get_None _ _ _ Hnone). by rewrite bool_decide_eq_false_2.
  - intros Hnone source_db. unfold sqlite_col_type, map_to_sqlite.
    fold (base_type source_type). rewrite (dict_get_None _ _ _ Hnone).
    by destruct (_ && _).
Qed.

Lemma unknown_type_fallback_witness :
  postgresql_col_type "mysql" (PStr "shape") "geometry" = Ok "geometry"
  /\ mysql_col_type "postgresql" (PStr "addr") false "inet" = "inet"
  /\ postgresql_col_type "sqlite" (PStr "x") "NUMERIC" = Ok "text"
  /\ postgresql_col_type "mongodb" (PStr "amount") "decimal128" = Ok "text"
  /\ mysql_col_type "sqlite" (PStr "code") true "varchar(20)" = "VARCHAR(255)"
  /\ mysql_col_type "mongodb" (PStr "amount") false "decimal128" = "TEXT"
  /\ sqlite_col_type "postgresql" (PStr "addr") "inet" = "TEXT".
Proof.
  split_and!.
  - apply (proj1 (unknown_type_fallback (PStr "shape") "geometry")). reflexivity.
  - apply (proj1 (proj2 (unknown_type_fallback (PStr "addr") "inet"))). reflexivity.
  - apply (proj1 (proj2 (proj2 (unknown_type_fallback (PStr "x") "NUMERIC")))). reflexivity.
  - apply (proj1 (proj2 (proj2 (proj2 (unknown_type_fallback (PStr "amount") "decimal128")))));
      [reflexivity | discriminate].
  - apply (proj1 (proj2 (proj2 (proj2 (proj2
             (unknown_type_fallback (PStr "code") "varchar(20)"))))) true). reflexivity.
  - apply (proj1 (proj2 (proj2 (proj2 (proj2 (proj2
             (unknown_type_fallback (PStr "amount") "decimal128"))))))); [reflexivity | discriminate].
  - apply (proj2 (proj2 (proj2 (proj2 (proj2 (proj2
             (unknown_type_fallback (PStr "addr") "inet"))))))). reflexivity.
Defined.

(** C7, counterexample.  Types that are in no table and do not become the
    text type of the target. *)
Lemma unknown_type_fallback_counterexample :
  (MYSQL_TO_POSTGRESQL !! mysql_base_type "geometry" = None
   /\ map_column_type "mysql" "postgresql" (PStr "shape") false "geometry" = Ok "geometry"
   /\ "geometry" <> text_type "postgresql")
  /\ (POSTGRESQL_TO_MYSQL !! base_type "inet" = None
      /\ map_column_type "postgresql" "mysql" (PStr "addr") false "inet" = Ok "inet"
      /\ "inet" <> text_type "mysql")
  /\ (sqlite_to_mysql true !! lower "varchar(20)" = None
      /\ map_column_type "sqlite" "mysql" (PStr "code") true "varchar(20)" = Ok "VARCHAR(255)"
      /\ "VARCHAR(255)" <> text_type "mysql").
Proof. split_and!; (reflexivity || discriminate). Qed.

(** C9 (as amended).  Whatever type was observed for it, the [_id] column
    of a MongoDB collection is given [varchar(255)] by the PostgreSQL
    generator, [VARCHAR(255)] by the MySQL generator and [TEXT] by the
    SQLite generator. *)
Theorem mongodb_id_column_type (observed : string) :
  postgresql_col_type "mongodb" (PStr "_id") observed = Ok "varchar(255)"
  /\ (forall pk, mysql_col_type "mongodb" (PStr "_id") pk observed = "VARCHAR(255)")
  /\ sqlite_col_type "mongodb" (PStr "_id") observed = "TEXT"
  /\ length_qualified_string_type "varchar(255)" = true
  /\ length_qualified_string_type "VARCHAR(255)" = true.
Proof. split_and!; reflexivity. Qed.

(** C9, counterexample.  For a SQLite target the [_id] column is [TEXT],
    a type without a length. *)
Lemma mongodb_id_column_type_counterexample :
  get_create_table_sql "events" [id_column "string"] ["_id"] "mongodb" "sqlite"
  = Ok ("CREATE TABLE `events` (" +:+ String (chr 10) "  `_id` TEXT," +:+ String (chr 10)
        "  PRIMARY KEY (`_id`)" +:+ String (chr 10) ")")
  /\ map_column_type "mongodb" "sqlite" (PStr "_id") true "string" = Ok "TEXT"
  /\ length_qualified_string_type "TEXT" = false.
Proof. split_and!; reflexivity. Qed.
End MapperClaims.

(** ** Conversion of binary values *)

Section ValueConverterClaims.
Import Py ValueConverter.

Lemma length_of_string (s : string) : length (of_string s) = String.length s.
Proof.
  unfold of_string. rewrite length_map.
  induction s as [|c s IH]; simpl; [done | by rewrite IH].
Qed.

Lemma length_b64encode_16 (b : list byte) :
  length b = 16 -> String.length (b64encode b) = 24.
Proof.
  intros H. do 17 (destruct b as [|? b]; try discriminate H). reflexivity.
Qed.

Lemma bind_Raise {A B} (e : exn) (k : A -> Res B) : (Raise e ≫= k) = Raise e.
Proof. reflexivity. Qed.

Lemma bind_Ok {A B} (a : A) (k : A -> Res B) : (Ok a ≫= k) = k a.
Proof. reflexivity. Qed.

Lemma try_catch_caught {A} (e : exn) classes (h : Res A) :
  existsb (subclass (exn_cls e)) classes = true -> try_catch (Raise e) classes h = h.
Proof. intros H. unfold try_catch. by rewrite H. Qed.

(** CPython's constructor accepts every 16-byte value, so under CPython
    both converters render every 16-byte value as a UUID. *)
Lemma cpython_accepts_16_bytes (b : list byte) :
  length b = 16 -> cpython_uuid_from_bytes b = Ok (int_from_bytes b).
Proof. intros H. unfold cpython_uuid_from_bytes. by rewrite H. Qed.

Lemma cpython_16_bytes_always_uuid utf8 printable (b : list byte) :
  length b = 16 ->
  @convert_sqlite_bytes (cpython utf8 printable) b
    = Ok (of_string (cpython_uuid_str (int_from_bytes b)))
  /\ @convert_mysql_bytes (cpython utf8 printable) b
    = Ok (of_string (cpython_uuid_str (int_from_bytes b))).
Proof.
  intros H. unfold convert_sqlite_bytes, convert_mysql_bytes, attempt. simpl.
  rewrite (cpython_accepts_16_bytes b H), H. split; reflexivity.
Qed.
End ValueConverterClaims.

(** ** The dependency resolver *)
Section ResolverFacts.
Import Py Schema Resolver ResolverSpec.

Variable set_iter : gset string -> list string.
Hypothesis set_iter_perm : forall s, set_iter s ≡ₚ elements s.

Lemma elem_of_set_iter (s : gset string) (x : string) : x ∈ set_iter s <-> x ∈ s.
Proof. rewrite set_iter_perm. apply elem_of_elements. Qed.

Lemma NoDup_set_iter (s : gset string) : NoDup (set_iter s).
Proof. rewrite set_iter_perm. apply NoDup_elements. Qed.

Variable table_map : gmap string Table.
Variable dependencies : gmap string (gset string).
Variable included : gset string.

Local Abbreviation closed_at := (ResolverSpec.closed_at table_map dependencies).
Local Abbreviation add_body := (ResolverSpec.add_body set_iter table_map dependencies).
Local Abbreviation add_post := (ResolverSpec.add_post table_map dependencies).
Local Abbreviation visit_body := (ResolverSpec.visit_body set_iter dependencies included).
Local Abbreviation extends := (ResolverSpec.extends included).
Local Abbreviation edge := (ResolverSpec.edge dependencies included).
Local Abbreviation sorted := (ResolverSpec.sorted dependencies included).
Local Abbreviation visit_ok := (ResolverSpec.visit_ok set_iter dependencies included).

Lemma closed_at_mono (inc inc' : gset string) t :
  inc ⊆ inc' -> closed_at inc t -> closed_at inc' t.
Proof. intros Hsub Hc ds d Hds Hd Htm. apply Hsub. eauto. Qed.

Local Abbreviation add_deps := (add_dependencies set_iter table_map dependencies).

Lemma add_dependencies_unfold fuel t st :
  add_deps (S fuel) t st =
  match dependencies !! t with
  | Some deps => for_each (add_body fuel) (set_iter deps) st
  | None => Some st
  end.
Proof. reflexivity. Qed.

Lemma add_loop_spec fuel
  (IH : forall t st st', add_deps fuel t st = Some st' -> add_post (Some t) [] st st') :
  forall l st st', for_each (add_body fuel) l st = Some st' -> add_post None l st st'.
Proof.
  induction l as [|d l IHl]; intros st st' H; simpl in H.
  - inversion H; subst. unfold ResolverSpec.add_post. repeat split; try set_solver.
  - destruct (add_body fuel d st) as [st1|] eqn:Hb; [|discriminate].
    specialize (IHl _ _ H). destruct IHl as (I1 & I2 & I3 & I4 & _).
    unfold ResolverSpec.add_body in Hb.
    destruct (negb (bool_decide (d ∈ tables_to_include st)) && bool_decide (d ∈ dom table_map)) eqn:Hc.
    + apply andb_true_iff in Hc as [Hc1 Hc2].
      apply negb_true_iff, bool_decide_eq_false in Hc1.
      apply bool_decide_eq_true in Hc2.
      apply IH in Hb. destruct Hb as (J1 & J2 & _ & J4 & J5). simpl in *.
      unfold ResolverSpec.add_post. repeat split.
      * set_solver.
      * set_solver.
      * intros x Hx Hxm. apply elem_of_cons in Hx as [->|Hx]; [set_solver | eauto].
      * intros x Hx Hnx.
        destruct (decide (x ∈ tables_to_include st1)) as [Hx1|Hx1]; [|eauto].
        apply closed_at_mono with (inc := tables_to_include st1); [done|].
        destruct (decide (x = d)) as [->|Hne]; [by apply J5|].
        apply J4; set_solver.
      * intros; discriminate.
    + inversion Hb; subst st1. unfold ResolverSpec.add_post. repeat split; try done.
      * intros x Hx Hxm. apply elem_of_cons in Hx as [->|Hx]; [|eauto].
        apply I1. apply andb_false_iff in Hc as [Hc|Hc].
        -- apply negb_false_iff, bool_decide_eq_true in Hc. done.
        -- apply bool_decide_eq_false in Hc. done.
Qed.

Lemma add_dependencies_spec fuel :
  forall t st st', add_deps fuel t st = Some st' -> add_post (Some t) [] st st'.
Proof.
  induction fuel as [|fuel IH]; intros t st st' H; [discriminate|].
  rewrite add_dependencies_unfold in H.
  destruct (dependencies !! t) as [deps|] eqn:Hd.
  - apply (add_loop_spec fuel IH) in H. destruct H as (I1 & I2 & I3 & I4 & _).
    unfold ResolverSpec.add_post. repeat split; try done.
    + intros d Hd'. by apply elem_of_nil in Hd'.
    + intros x [= <-] ds d Hds Hdd Hdm. rewrite Hd in Hds. inversion Hds; subst ds.
      apply I3; [|done]. by apply elem_of_set_iter.
  - inversion H; subst. unfold ResolverSpec.add_post. repeat split; try set_solver.
    intros x [= <-] ds d Hds. congruence.
Qed.

Lemma add_loop_terminates fuel
  (IH : forall t st, size (dom table_map ∖ tables_to_include st) < fuel ->
                     is_Some (add_deps fuel t st)) :
  forall l st, size (dom table_map ∖ tables_to_include st) <= fuel ->
               is_Some (for_each (add_body fuel) l st).
Proof.
  induction l as [|d l IHl]; intros st Hsz; simpl; [eauto|].
  unfold ResolverSpec.add_body at 1.
  destruct (negb (bool_decide (d ∈ tables_to_include st)) && bool_decide (d ∈ dom table_map)) eqn:Hc.
  - apply andb_true_iff in Hc as [Hc1 Hc2].
    apply negb_true_iff, bool_decide_eq_false in Hc1.
    apply bool_decide_eq_true in Hc2.
    set (st0 := mk_include _ _).
    assert (Hlt : size (dom table_map ∖ tables_to_include st0)
                  < size (dom table_map ∖ tables_to_include st)).
    { apply subset_size. subst st0; simpl. set_solver. }
    destruct (IH d st0) as [st1 H1]; [lia|]. rewrite H1.
    apply IHl. apply add_dependencies_spec in H1 as (J1 & _).
    assert (size (dom table_map ∖ tables_to_include st1)
            <= size (dom table_map ∖ tables_to_include st0)); [|lia].
    apply subseteq_size. set_solver.
  - by apply IHl.
Qed.

Lemma add_dependencies_terminates fuel :
  forall t st, size (dom table_map ∖ tables_to_include st) < fuel ->
               is_Some (add_deps fuel t st).
Proof.
  induction fuel as [|fuel IH]; intros t st Hsz; [lia|].
  rewrite add_dependencies_unfold.
  destruct (dependencies !! t) as [deps|]; [|eauto].
  apply add_loop_terminates; [exact IH | lia].
Qed.

(** The loop [for table_name in list(tables_to_include): add_dependencies(table_name)]. *)
Lemma add_all_spec fuel :
  forall l st, size (dom table_map) < fuel ->
    exists st', for_each (add_deps fuel) l st = Some st'
      /\ tables_to_include st ⊆ tables_to_include st'
      /\ tables_to_include st' ⊆ tables_to_include st ∪ dom table_map
      /\ (forall x, x ∈ l -> closed_at (tables_to_include st') x)
      /\ (forall x, x ∈ tables_to_include st' -> x ∉ tables_to_include st ->
                    closed_at (tables_to_include st') x).
Proof.
  induction l as [|t l IHl]; intros st Hsz; simpl.
  - exists st. split_and!; try done.
    + set_solver.
    + intros x Hx. by apply elem_of_nil in Hx.
  - destruct (add_dependencies_terminates fuel t st) as [st1 H1].
    { assert (size (dom table_map ∖ tables_to_include st) <= size (dom table_map)); [|lia].
      apply subseteq_size. set_solver. }
    rewrite H1. apply add_dependencies_spec in H1 as (J1 & J2 & _ & J4 & J5).
    destruct (IHl st1 Hsz) as (st' & H' & K1 & K2 & K3 & K4).
    exists st'. split_and!; try done.
    + set_solver.
    + set_solver.
    + intros x Hx. apply elem_of_cons in Hx as [->|Hx]; [|eauto].
      apply closed_at_mono with (inc := tables_to_include st1); eauto.
    + intros x Hx Hnx.
      destruct (decide (x ∈ tables_to_include st1)) as [Hx1|Hx1]; [|eauto].
      apply closed_at_mono with (inc := tables_to_include st1); eauto.
Qed.

(** *** The ordering pass *)

Local Abbreviation visit' := (visit set_iter dependencies included).

Lemma visit_unfold fuel t st :
  visit' (S fuel) t st =
  if bool_decide (t ∈ visited st) then Some st
  else
    match
      match dependencies !! t with
      | Some deps => for_each (visit_body fuel) (set_iter deps) (mark t st)
      | None => Some (mark t st)
      end
    with
    | Some st1 => Some (emit t st1)
    | None => None
    end.
Proof. reflexivity. Qed.

Lemma extends_refl st : extends st st.
Proof.
  split_and!; [done | set_solver |].
  exists []. split_and!; [by rewrite app_nil_r | constructor |].
  intros x. split; [by intros ?%elem_of_nil | tauto].
Qed.

Lemma extends_trans st1 st2 st3 : extends st1 st2 -> extends st2 st3 -> extends st1 st3.
Proof.
  intros (A1 & A2 & n1 & A3 & A4 & A5) (B1 & B2 & n2 & B3 & B4 & B5).
  split_and!; [set_solver | set_solver |].
  exists (n1 ++ n2)%list. split_and!.
  - by rewrite B3, A3, app_assoc.
  - apply NoDup_app. split_and!; [done | | done].
    intros x Hx1 Hx2. apply A5 in Hx1. apply B5 in Hx2. tauto.
  - intros x. rewrite elem_of_app, A5, B5. split.
    + intros [[? ?]|[? ?]]; split; set_solver.
    + intros [? ?]. destruct (decide (x ∈ visited st2)); [left|right]; done.
Qed.

Lemma extends_mark_emit t st st1 :
  t ∈ included -> t ∉ visited st -> extends (mark t st) st1 -> extends st (emit t st1).
Proof.
  intros Hin Hnv (A1 & A2 & n1 & A3 & A4 & A5). simpl in *.
  split_and!; simpl; [set_solver | set_solver |].
  exists (n1 ++ [t])%list. split_and!.
  - by rewrite A3, app_assoc.
  - apply NoDup_app. split_and!; [done | | apply NoDup_singleton].
    intros x Hx ->%list_elem_of_singleton. apply A5 in Hx. set_solver.
  - intros x. rewrite elem_of_app, A5, list_elem_of_singleton. split.
    + intros [[? ?]| ->]; [set_solver|]. split; [set_solver | done].
    + intros [? ?]. destruct (decide (x = t)); [by right | left; set_solver].
Qed.

Lemma visit_loop_extends fuel
  (IH : forall t st st', t ∈ included -> visit' fuel t st = Some st' -> extends st st') :
  forall l st st', for_each (visit_body fuel) l st = Some st' -> extends st st'.
Proof.
  induction l as [|d l IHl]; intros st st' H; simpl in H.
  - inversion H; subst. apply extends_refl.
  - destruct (visit_body fuel d st) as [st1|] eqn:Hb; [|discriminate].
    apply extends_trans with st1; [|eauto].
    unfold ResolverSpec.visit_body in Hb. case_bool_decide; [eauto|].
    inversion Hb; subst. apply extends_refl.
Qed.

Lemma visit_extends fuel :
  forall t st st', t ∈ included -> visit' fuel t st = Some st' -> extends st st'.
Proof.
  induction fuel as [|fuel IH]; intros t st st' Hin H; [discriminate|].
  rewrite visit_unfold in H. case_bool_decide as Hv.
  - inversion H; subst. apply extends_refl.
  - destruct (dependencies !! t) as [deps|].
    + destruct (for_each _ _ _) as [st1|] eqn:Hl; [|discriminate].
      inversion H; subst. apply extends_mark_emit; [done..|].
      by apply (visit_loop_extends fuel IH) in Hl.
    + inversion H; subst. apply extends_mark_emit; [done..|]. apply extends_refl.
Qed.

Lemma visit_marks fuel t st st' :
  visit' fuel t st = Some st' -> t ∈ included -> t ∈ visited st'.
Proof.
  destruct fuel as [|fuel]; [discriminate|]. intros H Hin.
  rewrite visit_unfold in H. case_bool_decide as Hv.
  - by inversion H; subst.
  - destruct (dependencies !! t) as [deps|].
    + destruct (for_each _ _ _) as [st1|] eqn:Hl; [|discriminate].
      inversion H; subst; simpl.
      apply (visit_loop_extends fuel (visit_extends fuel)) in Hl as (A1 & _).
      simpl in A1. set_solver.
    + inversion H; subst; simpl. set_solver.
Qed.

Lemma visit_loop_terminates fuel
  (IH : forall t st, t ∈ included -> size (included ∖ visited st) < fuel ->
                     is_Some (visit' fuel t st)) :
  forall l st, size (included ∖ visited st) < fuel ->
               is_Some (for_each (visit_body fuel) l st).
Proof.
  induction l as [|d l IHl]; intros st Hsz; simpl; [eauto|].
  unfold ResolverSpec.visit_body at 1. case_bool_decide as Hd; [|by apply IHl].
  destruct (IH d st Hd Hsz) as [st1 H1]. rewrite H1.
  apply IHl. apply visit_extends in H1 as (A1 & _); [|done].
  assert (size (included ∖ visited st1) <= size (included ∖ visited st)); [|lia].
  apply subseteq_size. set_solver.
Qed.

Lemma visit_terminates fuel :
  forall t st, t ∈ included -> size (included ∖ visited st) < fuel ->
               is_Some (visit' fuel t st).
Proof.
  induction fuel as [|fuel IH]; intros t st Hin Hsz; [lia|].
  rewrite visit_unfold. case_bool_decide as Hv; [eauto|].
  assert (Hlt : size (included ∖ visited (mark t st)) < fuel).
  { assert (size (included ∖ visited (mark t st)) < size (included ∖ visited st)); [|lia].
    apply subset_size. simpl. set_solver. }
  destruct (dependencies !! t) as [deps|]; [|eauto].
  destruct (visit_loop_terminates fuel IH (set_iter deps) (mark t st) Hlt) as [st1 H1].
  rewrite H1. eauto.
Qed.

(** *** Dependencies come first when the visited graph has no cycle *)

Lemma before_app o m d x : before o d x -> before (o ++ m) d x.
Proof.
  intros (l1 & l2 & -> & Hd). exists l1, (l2 ++ m)%list.
  split; [|done]. by rewrite <- app_assoc.
Qed.

Lemma sorted_snoc o t :
  sorted o -> (forall d, edge t d -> d ∈ o) -> sorted (o ++ [t]).
Proof.
  intros Hs Ht x d Hx He.
  destruct (decide (x ∈ o)) as [Hxo|Hxo].
  - apply before_app. by apply Hs.
  - apply elem_of_app in Hx as [Hx|Hx]; [done|].
    apply list_elem_of_singleton in Hx as ->.
    exists o, []. split; [done|]. by apply Ht.
Qed.

Lemma pending_extends st st' p : extends st st' -> pending st' p -> pending st p.
Proof.
  intros (A1 & A2 & new & A3 & A4 & A5) [Hv Ho]. rewrite A3 in Ho.
  apply not_elem_of_app in Ho as [Ho Hn]. split; [|done].
  destruct (decide (p ∈ visited st)); [done|]. exfalso. apply Hn, A5. done.
Qed.

Lemma ordered_extends st st' x : extends st st' -> x ∈ ordered st -> x ∈ ordered st'.
Proof. intros (_ & _ & new & -> & _) Hx. apply elem_of_app. by left. Qed.

Section Acyclic.
Hypothesis no_cycle : forall x, ~ tc edge x x.

Lemma visit_loop_sorted fuel (IH : visit_ok fuel) :
  forall l st st',
    for_each (visit_body fuel) l st = Some st' ->
    sorted (ordered st) ->
    (forall d p, d ∈ l -> d ∈ included -> pending st p -> tc edge p d) ->
    sorted (ordered st')
    /\ (forall d, d ∈ l -> d ∈ included -> d ∈ ordered st').
Proof.
  induction l as [|d l IHl]; intros st st' H Hs Hp; simpl in H.
  - inversion H; subst. split; [done|]. intros d Hd. by apply elem_of_nil in Hd.
  - destruct (visit_body fuel d st) as [st1|] eqn:Hb; [|discriminate].
    assert (Hext : extends st st1).
    { unfold ResolverSpec.visit_body in Hb. case_bool_decide.
      - by apply visit_extends in Hb.
      - inversion Hb; subst. apply extends_refl. }
    assert (Hext' : extends st1 st').
    { by apply (visit_loop_extends fuel (visit_extends fuel)) in H. }
    assert (H1 : sorted (ordered st1) /\ (d ∈ included -> d ∈ ordered st1)).
    { unfold ResolverSpec.visit_body in Hb. case_bool_decide as Hd.
      - destruct (IH d st st1 Hb Hd Hs) as [? ?]; [|done].
        intros p Hpp. apply Hp; [by left | done..].
      - inversion Hb; subst. done. }
    destruct H1 as [Hs1 Hd1].
    destruct (IHl st1 st' H Hs1) as [Hs' Hl'].
    { intros e p He Hei Hpe. apply Hp; [by right | done |].
      by apply pending_extends with st1. }
    split; [done|]. intros e He Hei.
    apply elem_of_cons in He as [->|He]; [|eauto].
    apply ordered_extends with st1; eauto.
Qed.

Lemma visit_sorted fuel : visit_ok fuel.
Proof.
  induction fuel as [|fuel IH]; intros t st st' H Hin Hs Hp; [discriminate|].
  rewrite visit_unfold in H. case_bool_decide as Hv.
  - inversion H; subst. split; [done|].
    destruct (decide (t ∈ ordered st')) as [|Hno]; [done|].
    exfalso. apply (no_cycle t), Hp. by split.
  - assert (Hdone : forall st1,
               sorted (ordered st1) ->
               (forall d, edge t d -> d ∈ ordered st1) ->
               sorted (ordered (emit t st1)) /\ t ∈ ordered (emit t st1)).
    { intros st1 Hs1 Hd1. simpl. split; [by apply sorted_snoc|].
      apply elem_of_app. right. by apply list_elem_of_singleton. }
    destruct (dependencies !! t) as [deps|] eqn:Hdeps.
    + destruct (for_each _ _ _) as [st1|] eqn:Hl; [|discriminate].
      inversion H; subst.
      destruct (visit_loop_sorted fuel IH _ _ _ Hl) as [Hs1 Hd1]; [done| |].
      { intros d p Hd Hdi [Hpv Hpo]. simpl in *.
        assert (He : edge t d).
        { split_and!; [done..|]. exists deps. split; [done|].
          by apply elem_of_set_iter. }
        destruct (decide (p = t)) as [->|Hne]; [by apply tc_once|].
        apply tc_r with t; [|done]. apply Hp. split; [set_solver | done]. }
      apply Hdone; [done|].
      intros d (_ & Hdi & ds & Hds & Hd). rewrite Hdeps in Hds.
      inversion Hds; subst ds. apply Hd1; [|done]. by apply elem_of_set_iter.
    + inversion H; subst. apply Hdone; [done|].
      intros d (_ & _ & ds & Hds & _). congruence.
Qed.

End Acyclic.

(** The loop [for table_name in tables_to_include: visit(table_name)]. *)
Lemma visit_all_spec fuel :
  forall l st,
    (forall t, t ∈ l -> t ∈ included) ->
    size included < fuel ->
    exists st', for_each (visit' fuel) l st = Some st'
      /\ extends st st'
      /\ (forall t, t ∈ l -> t ∈ visited st').
Proof.
  induction l as [|t l IHl]; intros st Hl Hsz; simpl.
  - exists st. split_and!; [done | apply extends_refl |].
    intros t Ht. by apply elem_of_nil in Ht.
  - assert (Hin : t ∈ included) by (apply Hl; by left).
    destruct (visit_terminates fuel t st Hin) as [st1 H1].
    { assert (size (included ∖ visited st) <= size included); [|lia].
      apply subseteq_size. set_solver. }
    rewrite H1.
    destruct (IHl st1) as (st' & H' & E' & V'); [|done|].
    { intros u Hu. apply Hl. by right. }
    pose proof (visit_extends fuel t st st1 Hin H1) as E1.
    exists st'. split_and!; [done | by apply extends_trans with st1 |].
    intros u Hu. apply elem_of_cons in Hu as [->|Hu]; [|eauto].
    destruct E' as (A1 & _). apply A1. by apply visit_marks in H1.
Qed.

Lemma visit_all_sorted fuel (no_cycle : forall x, ~ tc edge x x) :
  forall l st st',
    for_each (visit' fuel) l st = Some st' ->
    (forall t, t ∈ l -> t ∈ included) ->
    sorted (ordered st) -> (forall p, ~ pending st p) ->
    sorted (ordered st').
Proof.
  induction l as [|t l IHl]; intros st st' H Hl Hs Hp; simpl in H.
  - by inversion H; subst.
  - destruct (visit' fuel t st) as [st1|] eqn:H1; [|discriminate].
    assert (Hin : t ∈ included) by (apply Hl; by left).
    destruct (visit_sorted no_cycle fuel t st st1 H1 Hin Hs) as [Hs1 _].
    { intros p Hpp. by apply Hp in Hpp. }
    apply (IHl st1 st' H); [|done|].
    + intros u Hu. apply Hl. by right.
    + intros p Hpp. apply (Hp p). apply pending_extends with st1; [|done].
      by apply visit_extends in H1.
Qed.
End ResolverFacts.

Section ResolverTopLevel.
Import Py Schema Resolver ResolverSpec.

Lemma elem_of_table_deps (t : Table) (x : string) :
  x ∈ table_deps t <->
  exists fk, fk ∈ foreign_keys t /\ references_table fk = Some x
             /\ x <> "" /\ x <> name t /\ x ∉ SQLITE_INTERNAL_TABLES.
Proof.
  unfold table_deps.
  assert (G : forall l (acc : gset string),
    x ∈ fold_left
        (fun deps fk =>
           match references_table fk with
           | Some ref_table =>
               if negb (ref_table =? "") && negb (ref_table =? name t)
                  && negb (bool_decide (ref_table ∈ SQLITE_INTERNAL_TABLES))
               then deps ∪ {[ ref_table ]} else deps
           | None => deps
           end) l acc
    <-> x ∈ acc \/ exists fk, fk ∈ l /\ references_table fk = Some x
             /\ x <> "" /\ x <> name t /\ x ∉ SQLITE_INTERNAL_TABLES).
  { induction l as [|fk l IHl]; intros acc; simpl.
    - split; [by left|]. intros [?|(fk & Hfk & _)]; [done|]. by apply elem_of_nil in Hfk.
    - rewrite IHl. split.
      + intros [Hacc|(fk' & Hin & Hrest)].
        * destruct (references_table fk) as [r|] eqn:Hr; [|by left].
          destruct (negb (r =? "") && negb (r =? name t)
                    && negb (bool_decide (r ∈ SQLITE_INTERNAL_TABLES))) eqn:Hc; [|by left].
          apply elem_of_union in Hacc as [?|Hx]; [by left|].
          apply elem_of_singleton in Hx as ->. right. exists fk.
          apply andb_true_iff in Hc as [Hc Hc3]. apply andb_true_iff in Hc as [Hc1 Hc2].
          apply negb_true_iff in Hc1, Hc2, Hc3.
          apply String.eqb_neq in Hc1, Hc2. apply bool_decide_eq_false in Hc3.
          split_and!; [by left | done..].
        * right. exists fk'. split; [by right | done].
      + intros [Hacc|(fk' & Hin & Hr & H1 & H2 & H3)].
        * left. destruct (references_table fk); [|done].
          destruct (_ && _); [|done]. set_solver.
        * apply elem_of_cons in Hin as [->|Hin].
          -- left. rewrite Hr.
             apply String.eqb_neq in H1, H2. rewrite H1, H2.
             rewrite bool_decide_eq_false_2 by done. simpl. set_solver.
          -- right. exists fk'. done. }
  rewrite G. split; [|by right]. intros [?|?]; [set_solver | done].
Qed.

Lemma by_name_fold {V} (g : Table -> V) ts (mv : gmap string V) (mt : gmap string Table) :
  (forall n, mv !! n = g <$> mt !! n) ->
  forall n, fold_left (fun m t => <[ name t := g t ]> m) ts mv !! n
            = g <$> fold_left (fun m t => <[ name t := t ]> m) ts mt !! n.
Proof.
  revert mv mt. induction ts as [|t ts IH]; intros mv mt H n; simpl; [done|].
  apply IH. intros k. destruct (decide (name t = k)) as [<-|Hne].
  - by rewrite !lookup_insert_eq.
  - by rewrite !lookup_insert_ne.
Qed.

Lemma build_dependencies_lookup src ts n :
  build_dependencies src ts !! n =
  (fun t => if negb (src =? "mongodb") then table_deps t else ∅) <$> build_table_map ts !! n.
Proof.
  unfold build_dependencies, build_table_map.
  destruct (negb (src =? "mongodb")).
  - apply (by_name_fold table_deps). intros k. by rewrite !lookup_empty.
  - apply (by_name_fold (fun _ => (∅ : gset string))). intros k. by rewrite !lookup_empty.
Qed.

Lemma table_map_fold ts (m : gmap string Table) n t :
  fold_left (fun m t => <[ name t := t ]> m) ts m !! n = Some t ->
  (name t = n /\ t ∈ ts) \/ m !! n = Some t.
Proof.
  revert m. induction ts as [|u ts IH]; intros m H; simpl in H; [by right|].
  apply IH in H as [[? ?]|H]; [left; split; [done | by right]|].
  destruct (decide (name u = n)) as [<-|Hne].
  - rewrite lookup_insert_eq in H. inversion H; subst. left. split; [done | by left].
  - rewrite lookup_insert_ne in H by done. by right.
Qed.

Lemma build_table_map_lookup ts n t :
  build_table_map ts !! n = Some t -> name t = n /\ t ∈ ts.
Proof.
  intros H. apply table_map_fold in H as [?|H]; [done|]. by rewrite lookup_empty in H.
Qed.

Lemma table_map_fold_dom ts (m : gmap string Table) :
  dom (fold_left (fun m t => <[ name t := t ]> m) ts m) = dom m ∪ list_to_set (map name ts).
Proof.
  revert m. induction ts as [|u ts IH]; intros m; simpl.
  - set_solver.
  - rewrite IH, dom_insert_L. set_solver.
Qed.

Lemma dom_build_table_map ts n : n ∈ dom (build_table_map ts) <-> n ∈ map name ts.
Proof.
  unfold build_table_map. rewrite table_map_fold_dom, dom_empty_L.
  rewrite elem_of_union, elem_of_list_to_set. set_solver.
Qed.

Lemma size_list_to_set (l : list string) : size (list_to_set l : gset string) <= length l.
Proof.
  induction l as [|x l IH].
  - by rewrite list_to_set_nil, size_empty.
  - rewrite list_to_set_cons. simpl length.
    etrans; [apply Nat.eq_le_incl, size_union_alt|]. rewrite size_singleton.
    assert (size ((list_to_set l : gset string) ∖ {[x]}) <= size (list_to_set l : gset string)).
    { apply subseteq_size. set_solver. }
    lia.
Qed.

Lemma size_dom_build_table_map ts : size (dom (build_table_map ts)) <= length ts.
Proof.
  unfold build_table_map. rewrite table_map_fold_dom, dom_empty_L, (left_id_L ∅ (∪)).
  etrans; [apply size_list_to_set|]. by rewrite length_map.
Qed.

Lemma length_filter_tables src all : length (filter_tables src all) <= length all.
Proof.
  unfold filter_tables. destruct (src =? "mongodb").
  - etrans; [apply List.filter_length_le|]. apply List.filter_length_le.
  - apply List.filter_length_le.
Qed.

Lemma elem_of_filter_tables src all t :
  t ∈ filter_tables src all ->
  t ∈ all /\ name t ∉ SQLITE_INTERNAL_TABLES.
Proof.
  unfold filter_tables. intros H.
  assert (H' : t ∈ List.filter (fun t => not_internal (name t)) all).
  { destruct (src =? "mongodb"); [|done].
    apply list_elem_of_In, List.filter_In in H as [H _]. by apply list_elem_of_In. }
  apply list_elem_of_In, List.filter_In in H' as [H1 H2].
  split; [by apply list_elem_of_In|].
  unfold not_internal in H2. apply negb_true_iff, bool_decide_eq_false in H2. done.
Qed.
End ResolverTopLevel.

Section ResolveSpec.
Import Py Schema Resolver ResolverSpec.

Variable set_iter : gset string -> list string.
Hypothesis set_iter_perm : forall s, set_iter s ≡ₚ elements s.

Lemma resolve_spec src all sel fuel :
  enough_fuel all sel <= fuel ->
  let TM := build_table_map (filter_tables src all) in
  let D := build_dependencies src (filter_tables src all) in
  exists st vs,
    _resolve_dependencies set_iter fuel src all sel
      = Some (omap (fun n => TM !! n) (ordered vs), migration_log st)
    /\ NoDup (ordered vs)
    /\ (forall x, x ∈ ordered vs <-> x ∈ tables_to_include st)
    /\ (forall x, x ∈ sel -> x ∉ SQLITE_INTERNAL_TABLES -> x ∈ tables_to_include st)
    /\ (forall x, x ∈ tables_to_include st -> x ∈ sel \/ x ∈ dom TM)
    /\ (forall x, x ∈ tables_to_include st -> closed_at TM D (tables_to_include st) x)
    /\ ((forall x, ~ tc (edge D (tables_to_include st)) x x) ->
        sorted D (tables_to_include st) (ordered vs)).
Proof.
  intros Hfuel TM D. unfold enough_fuel in Hfuel.
  unfold _resolve_dependencies. fold TM. fold D.
  set (selection := list_to_set (List.filter not_internal sel) : gset string).
  set (log0 := if src =? "mongodb" then _ else _).
  assert (HszTM' : size (dom TM) <= length all).
  { pose proof (size_dom_build_table_map (filter_tables src all)) as H1.
    pose proof (length_filter_tables src all) as H2. unfold TM. lia. }
  assert (HszTM : size (dom TM) < fuel) by lia.
  destruct (add_all_spec set_iter set_iter_perm TM D fuel (set_iter selection)
              (mk_include selection log0) HszTM)
    as (st & Hadd & A1 & A2 & A3 & A4).
  simpl in A1, A2, A4. rewrite Hadd.
  assert (Hszsel : size selection <= length sel).
  { etrans; [apply size_list_to_set|]. apply List.filter_length_le. }
  assert (Hszinc : size (tables_to_include st) < fuel).
  { assert (size (tables_to_include st) <= size (selection ∪ dom TM)) by by apply subseteq_size.
    pose proof (size_union_alt selection (dom TM)).
    assert (size (dom TM ∖ selection) <= size (dom TM)) by (apply subseteq_size; set_solver).
    lia. }
  destruct (visit_all_spec set_iter set_iter_perm D (tables_to_include st) fuel
              (set_iter (tables_to_include st)) (mk_visit ∅ []))
    as (vs & Hvis & (B1 & B2 & new & B3 & B4 & B5) & B6); [|done|].
  { intros t Ht. by apply elem_of_set_iter in Ht. }
  simpl in B2, B3, B5. rewrite Hvis.
  assert (Hord : forall x, x ∈ ordered vs <-> x ∈ tables_to_include st).
  { intros x. rewrite B3, B5. split.
    - intros [Hx _]. set_solver.
    - intros Hx. split; [|set_solver]. apply B6. by apply elem_of_set_iter. }
  assert (Hselin : forall x, x ∈ selection <-> x ∈ sel /\ x ∉ SQLITE_INTERNAL_TABLES).
  { intros x. unfold selection. rewrite elem_of_list_to_set, list_elem_of_In, List.filter_In.
    rewrite <- list_elem_of_In. unfold not_internal.
    rewrite negb_true_iff, bool_decide_eq_false. done. }
  exists st, vs. split_and!; try done.
  - by rewrite B3.
  - intros x Hx Hni. apply A1, Hselin. done.
  - intros x Hx. apply A2 in Hx. apply elem_of_union in Hx as [Hx|Hx]; [|by right].
    left. by apply Hselin in Hx as [? _].
  - intros x Hx. destruct (decide (x ∈ selection)) as [Hs|Hs].
    + apply A3. by apply elem_of_set_iter.
    + by apply A4.
  - intros Hac.
    apply (visit_all_sorted set_iter set_iter_perm D (tables_to_include st) fuel Hac
             (set_iter (tables_to_include st)) (mk_visit ∅ []) vs Hvis).
    + intros t Ht. by apply elem_of_set_iter in Ht.
    + intros x d Hx. by apply elem_of_nil in Hx.
    + intros p [Hp _]. simpl in Hp. set_solver.
Qed.
End ResolveSpec.

Section OrderFacts.
Import Py Schema Resolver ResolverSpec.

Lemma index_of_app_fresh (l1 l2 : list string) x :
  x ∉ l1 -> index_of x (l1 ++ x :: l2) = Some (length l1).
Proof.
  induction l1 as [|y l1 IH]; intros Hx; simpl.
  - by rewrite String.eqb_refl.
  - apply not_elem_of_cons in Hx as [Hne Hx].
    apply String.eqb_neq in Hne. rewrite Hne, IH by done. done.
Qed.

Lemma index_of_app_elem (l1 m : list string) d :
  d ∈ l1 -> exists i, index_of d (l1 ++ m) = Some i /\ i < length l1.
Proof.
  induction l1 as [|y l1 IH]; intros Hd; [by apply elem_of_nil in Hd|]. simpl.
  destruct (d =? y) eqn:E; [exists 0; split; [done|lia]|].
  apply String.eqb_neq in E. apply elem_of_cons in Hd as [?|Hd]; [done|].
  destruct (IH Hd) as (i & -> & Hi). exists (S i). split; [done|lia].
Qed.

Lemma before_at_or_before (l : list string) d x :
  NoDup l -> before l d x -> at_or_before l d x = true.
Proof.
  intros Hnd (l1 & l2 & -> & Hd). unfold at_or_before.
  apply NoDup_app in Hnd as (_ & Hdisj & Hnd2).
  assert (Hx : x ∉ l1). { intros Hx. apply (Hdisj x Hx). by left. }
  rewrite (index_of_app_fresh l1 l2 x Hx).
  destruct (index_of_app_elem l1 (x :: l2) d Hd) as (i & -> & Hi).
  apply Nat.leb_le. lia.
Qed.

Lemma at_or_before_refl (l : list string) x : x ∈ l -> at_or_before l x x = true.
Proof.
  intros Hx. unfold at_or_before.
  destruct (index_of_app_elem l [] x Hx) as (i & Hi & _). rewrite app_nil_r in Hi.
  rewrite Hi. apply Nat.leb_refl.
Qed.

Lemma before_filter (P : string -> bool) (o : list string) d x :
  before o d x -> P d = true -> P x = true -> before (List.filter P o) d x.
Proof.
  intros (l1 & l2 & -> & Hd) Pd Px.
  exists (List.filter P l1), (List.filter P l2). split.
  - rewrite List.filter_app. simpl. by rewrite Px.
  - apply list_elem_of_In, List.filter_In. split; [by apply list_elem_of_In | done].
Qed.

Lemma NoDup_list_filter (P : string -> bool) (l : list string) :
  NoDup l -> NoDup (List.filter P l).
Proof.
  induction l as [|y l IH]; intros Hnd; [done|]. simpl.
  apply NoDup_cons in Hnd as [Hy Hnd]. destruct (P y); [|by apply IH].
  apply NoDup_cons. split; [|by apply IH].
  intros Hin. apply Hy. apply list_elem_of_In, List.filter_In in Hin as [Hin _].
  by apply list_elem_of_In.
Qed.

Lemma count_name_NoDup (l : list string) n :
  NoDup l -> n ∈ l -> count_name n l = 1.
Proof.
  unfold count_name. induction l as [|y l IH]; intros Hnd Hn; [by apply elem_of_nil in Hn|].
  apply NoDup_cons in Hnd as [Hy Hnd]. simpl.
  destruct (n =? y) eqn:E.
  - apply String.eqb_eq in E as ->. simpl. f_equal.
    clear IH Hn Hnd. induction l as [|z l IH]; [done|]. simpl.
    apply not_elem_of_cons in Hy as [Hne Hy]. apply String.eqb_neq in Hne.
    rewrite Hne. by apply IH.
  - apply String.eqb_neq in E. apply elem_of_cons in Hn as [?|Hn]; [done|]. by apply IH.
Qed.

Lemma names_omap (TM : gmap string Table) (o : list string) :
  (forall n t, TM !! n = Some t -> name t = n) ->
  map name (omap (fun n => TM !! n) o) = List.filter (fun n => bool_decide (n ∈ dom TM)) o.
Proof.
  intros Hkey. induction o as [|n o IH]; [done|]. csimpl.
  destruct (TM !! n) as [t|] eqn:E.
  - rewrite bool_decide_eq_true_2 by (apply elem_of_dom; eauto).
    csimpl. rewrite IH. f_equal. by apply Hkey.
  - rewrite bool_decide_eq_false_2 by (by apply not_elem_of_dom). done.
Qed.

Lemma elem_of_filter_dom (TM : gmap string Table) (o : list string) n :
  n ∈ List.filter (fun n => bool_decide (n ∈ dom TM)) o <-> n ∈ o /\ n ∈ dom TM.
Proof.
  rewrite list_elem_of_In, List.filter_In, <- list_elem_of_In.
  by rewrite bool_decide_eq_true.
Qed.

End OrderFacts.

Section ResolverClaims.
Import Py Schema Resolver ResolverSpec.

Lemma table_map_keys src all n t :
  build_table_map (filter_tables src all) !! n = Some t ->
  name t = n /\ n ∉ SQLITE_INTERNAL_TABLES.
Proof.
  intros H. apply build_table_map_lookup in H as [<- Ht].
  by apply elem_of_filter_tables in Ht as [_ ?].
Qed.

Lemma names_filtered_dom src all n :
  n ∈ map name (filter_tables src all) <-> n ∈ dom (build_table_map (filter_tables src all)).
Proof. by rewrite dom_build_table_map. Qed.

Lemma dependencies_relational src all n t :
  src <> "mongodb" ->
  build_table_map (filter_tables src all) !! n = Some t ->
  build_dependencies src (filter_tables src all) !! n = Some (table_deps t).
Proof.
  intros Hsrc Ht. rewrite build_dependencies_lookup, Ht. simpl.
  apply String.eqb_neq in Hsrc. by rewrite Hsrc.
Qed.

Lemma dependencies_dom src ts n ds :
  build_dependencies src ts !! n = Some ds -> n ∈ dom (build_table_map ts).
Proof.
  rewrite build_dependencies_lookup. intros H. apply elem_of_dom.
  destruct (build_table_map ts !! n); [eauto | discriminate].
Qed.

Lemma no_self_dependency src all n ds :
  build_dependencies src (filter_tables src all) !! n = Some ds -> n ∉ ds.
Proof.
  rewrite build_dependencies_lookup. intros H.
  destruct (build_table_map (filter_tables src all) !! n) as [t|] eqn:Ht; [|done].
  simpl in H. inversion H; subst ds. apply table_map_keys in Ht as [<- _].
  destruct (negb (src =? "mongodb")); [|set_solver].
  intros (fk & _ & _ & _ & Hne & _)%elem_of_table_deps. done.
Qed.

(** C3 (as amended).  With enough recursion depth the resolver returns; the
    result contains every selected name that names a table under
    consideration (engine-internal tables are never under consideration);
    and, for a relational source, every foreign key of a returned table
    whose target is a non-empty name of a table under consideration targets
    a returned table. *)
Theorem resolve_dependencies_closure
    (set_iter : gset string -> list string) src all sel fuel :
  (forall s, set_iter s ≡ₚ elements s) ->
  enough_fuel all sel <= fuel ->
  exists R log,
    _resolve_dependencies set_iter fuel src all sel = Some (R, log)
    /\ (forall s, s ∈ sel -> s ∈ map name (filter_tables src all) -> s ∈ map name R)
    /\ (src <> "mongodb" ->
        forall A r, A ∈ R -> references A r -> r <> "" ->
                    r ∈ map name (filter_tables src all) -> r ∈ map name R).
Proof.
  intros Hperm Hfuel.
  destruct (resolve_spec set_iter Hperm src all sel fuel Hfuel)
    as (st & vs & Hres & Hnd & Hord & Hsel & Hinc & Hclosed & _).
  eexists _, _. split; [exact Hres|].
  rewrite names_omap by (intros n t Ht; by apply table_map_keys in Ht as [? _]).
  split.
  - intros s Hs Hsf. apply elem_of_filter_dom. split; [|by apply names_filtered_dom].
    apply Hord, Hsel; [done|].
    apply list_elem_of_fmap in Hsf as (t & -> & Ht).
    by apply elem_of_filter_tables in Ht as [_ ?].
  - intros Hsrc A r HA (fk & Hfk & Hr) Hne Hrf.
    apply list_elem_of_omap in HA as (n & Hn & HTM).
    pose proof (table_map_keys _ _ _ _ HTM) as [HnA _].
    apply elem_of_filter_dom. split; [|by apply names_filtered_dom].
    destruct (decide (r = n)) as [->|Hrn]; [done|].
    apply Hord.
    assert (Hc := Hclosed n (proj1 (Hord n) Hn)). unfold closed_at in Hc.
    apply (Hc (table_deps A)); [| |by apply names_filtered_dom].
    + by apply dependencies_relational.
    + apply elem_of_table_deps. exists fk. split_and!; try done; [congruence|].
      apply list_elem_of_fmap in Hrf as (t & -> & Ht).
      by apply elem_of_filter_tables in Ht as [_ ?].
Qed.

Lemma cycle_in_result src all (inc : gset string) (o : list string) :
  src <> "mongodb" ->
  (forall x, x ∈ o <-> x ∈ inc) ->
  let TM := build_table_map (filter_tables src all) in
  let D := build_dependencies src (filter_tables src all) in
  let R := omap (fun n => TM !! n) o in
  forall x y, tc (edge D inc) x y -> y ∈ dom TM -> tc (depends_on R) x y.
Proof.
  intros Hsrc Hord TM D R.
  assert (Hstep : forall a b, edge D inc a b -> b ∈ dom TM -> depends_on R a b).
  { intros a b (Ha & Hb & ds & Hds & Hbd) Hbm.
    unfold D in Hds. rewrite build_dependencies_lookup in Hds.
    destruct (build_table_map (filter_tables src all) !! a) as [A|] eqn:HA; [|done].
    simpl in Hds. apply String.eqb_neq in Hsrc. rewrite Hsrc in Hds. simpl in Hds.
    inversion Hds; subst ds. exists A.
    pose proof (table_map_keys _ _ _ _ HA) as [HnA _].
    split_and!; try done.
    - apply list_elem_of_omap. exists a. split; [by apply Hord | done].
    - unfold R. rewrite names_omap by (intros n t Ht; by apply table_map_keys in Ht as [? _]).
      apply elem_of_filter_dom. split; [by apply Hord | done]. }
  assert (Hsrcdom : forall a b, edge D inc a b -> a ∈ dom TM).
  { intros a b (_ & _ & ds & Hds & _). exact (dependencies_dom _ _ _ _ Hds). }
  intros x y Htc. induction Htc as [x y He | x y z He Htc IH]; intros Hy.
  - apply tc_once. by apply Hstep.
  - apply tc_l with y; [|by apply IH]. apply Hstep; [done|].
    destruct Htc as [y z He' | y w z He' _]; by apply Hsrcdom in He'.
Qed.

(** C4 (as amended).  For a relational source with enough recursion depth,
    when the dependency graph on the returned tables has no cycle, a
    returned table that references a returned table of non-empty name comes
    at or after it. *)
Theorem resolve_dependencies_order
    (set_iter : gset string -> list string) src all sel fuel :
  (forall s, set_iter s ≡ₚ elements s) ->
  enough_fuel all sel <= fuel ->
  src <> "mongodb" ->
  exists R log,
    _resolve_dependencies set_iter fuel src all sel = Some (R, log)
    /\ (acyclic R ->
        forall A B, A ∈ R -> B ∈ R -> references A (name B) -> name B <> "" ->
                    at_or_before (map name R) (name B) (name A) = true).
Proof.
  intros Hperm Hfuel Hsrc.
  destruct (resolve_spec set_iter Hperm src all sel fuel Hfuel)
    as (st & vs & Hres & Hnd & Hord & Hsel & Hinc & Hclosed & Hsorted).
  eexists _, _. split; [exact Hres|].
  set (TM := build_table_map (filter_tables src all)) in *.
  set (D := build_dependencies src (filter_tables src all)) in *.
  intros Hac A B HA HB (fk & Hfk & Hr) Hne.
  assert (Hkey : forall n t, TM !! n = Some t -> name t = n).
  { intros n t Ht. by apply table_map_keys in Ht as [? _]. }
  assert (Hnc : forall x, ~ tc (edge D (tables_to_include st)) x x).
  { intros x Hx. apply (Hac x).
    apply (cycle_in_result src all (tables_to_include st) (ordered vs) Hsrc Hord); [done|].
    assert (Hsrcdom : forall a b, tc (edge D (tables_to_include st)) a b -> a ∈ dom TM).
    { intros a b [a' b' (_ & _ & ds & Hds & _) | a' b' c' (_ & _ & ds & Hds & _) _];
        exact (dependencies_dom _ _ _ _ Hds). }
    by apply Hsrcdom in Hx. }
  specialize (Hsorted Hnc).
  apply list_elem_of_omap in HA as (a & Ha & HTA).
  apply list_elem_of_omap in HB as (b & Hb & HTB).
  pose proof (table_map_keys _ _ _ _ HTA) as [HnA _].
  pose proof (table_map_keys _ _ _ _ HTB) as [HnB HbI].
  rewrite names_omap by done. rewrite HnA, HnB.
  assert (Hda : a ∈ dom TM) by (apply elem_of_dom; eauto).
  assert (Hdb : b ∈ dom TM) by (apply elem_of_dom; eauto).
  destruct (decide (b = a)) as [->|Hba].
  - apply at_or_before_refl. by apply elem_of_filter_dom.
  - apply before_at_or_before.
    + by apply NoDup_list_filter.
    + apply before_filter; [|by apply bool_decide_eq_true..].
      apply Hsorted; [done|]. split_and!; [by apply Hord..|].
      exists (table_deps A). split; [by apply dependencies_relational|].
      apply elem_of_table_deps. exists fk. split_and!; congruence.
Qed.

(** C5.  A table under consideration that carries a foreign key to itself
    and is selected: the resolver returns, the table is not in its own
    dependency set, and its name occurs exactly once among the returned
    tables. *)
Theorem resolve_dependencies_self_reference
    (set_iter : gset string -> list string) src all sel fuel t :
  (forall s, set_iter s ≡ₚ elements s) ->
  enough_fuel all sel <= fuel ->
  t ∈ filter_tables src all ->
  references t (name t) ->
  name t ∈ sel ->
  exists R log,
    _resolve_dependencies set_iter fuel src all sel = Some (R, log)
    /\ (forall ds, build_dependencies src (filter_tables src all) !! name t = Some ds ->
                   name t ∉ ds)
    /\ count_name (name t) (map name R) = 1.
Proof.
  intros Hperm Hfuel Ht _ Hsel.
  destruct (resolve_spec set_iter Hperm src all sel fuel Hfuel)
    as (st & vs & Hres & Hnd & Hord & Hsel' & _).
  eexists _, _. split; [exact Hres|]. split.
  - intros ds. apply no_self_dependency.
  - rewrite names_omap by (intros n u Hu; by apply table_map_keys in Hu as [? _]).
    apply count_name_NoDup; [by apply NoDup_list_filter|].
    apply elem_of_filter_dom. split.
    + apply Hord, Hsel'; [done|]. by apply elem_of_filter_tables in Ht as [_ ?].
    + apply names_filtered_dom, list_elem_of_fmap. eauto.
Qed.
End ResolverClaims.

Section ResolverWitnesses.
Import Py Schema Resolver ResolverSpec Examples.

Lemma elements_is_an_order (s : gset string) : elements s ≡ₚ elements s.
Proof. reflexivity. Qed.

Lemma acyclic_by_rank (R : list Table) (rank : string -> nat) :
  (forall a b, depends_on R a b -> rank b < rank a) -> acyclic R.
Proof.
  intros Hrank n Hn.
  assert (H : forall x y, tc (depends_on R) x y -> rank y < rank x).
  { intros x y Htc. induction Htc as [x y He | x y z He _ IH].
    - by apply Hrank.
    - apply Hrank in He. lia. }
  apply H in Hn. lia.
Qed.

Lemma shop_acyclic : acyclic [customers; orders].
Proof.
  apply (acyclic_by_rank _ (fun n => if n =? "orders" then 1 else 0)).
  intros a b (A & HA & <- & Hb & _).
  apply elem_of_table_deps in Hb as (fk & Hfk & Hr & _).
  apply list_elem_of_In in HA. simpl in HA. destruct HA as [<-|[<-|[]]].
  - apply list_elem_of_In in Hfk. destruct Hfk.
  - apply list_elem_of_In in Hfk. simpl in Hfk. destruct Hfk as [<-|[]].
    simpl in Hr. inversion Hr; subst b. simpl. lia.
Qed.

Lemma resolve_dependencies_closure_witness :
  exists R log,
    _resolve_dependencies elements 4 "mysql" shop ["orders"] = Some (R, log)
    /\ "orders" ∈ map name R /\ "customers" ∈ map name R.
Proof.
  destruct (resolve_dependencies_closure elements "mysql" shop ["orders"] 4)
    as (R & log & Hres & Hsel & Hclo).
  - exact elements_is_an_order.
  - unfold enough_fuel; simpl; lia.
  - exists R, log. split; [exact Hres|].
    assert (Ho : "orders" ∈ map name R).
    { apply Hsel; apply list_elem_of_In; vm_compute; tauto. }
    split; [exact Ho|].
    apply list_elem_of_fmap in Ho as (A & HnA & HA).
    assert (HAeq : A = orders).
    { vm_compute in Hres. inversion Hres; subst R.
      apply list_elem_of_In in HA. simpl in HA.
      destruct HA as [<-|[<-|[]]]; [discriminate | reflexivity]. }
    subst A.
    apply (Hclo ltac:(discriminate) orders "customers" HA).
    + exists (fk_to "customer_id" "customers"). split; [by left | reflexivity].
    + discriminate.
    + apply list_elem_of_In; vm_compute; tauto.
Defined.

Lemma resolve_dependencies_order_witness :
  exists R log,
    _resolve_dependencies elements 4 "mysql" shop ["orders"] = Some (R, log)
    /\ at_or_before (map name R) "customers" "orders" = true.
Proof.
  destruct (resolve_dependencies_order elements "mysql" shop ["orders"] 4)
    as (R & log & Hres & Hord).
  - exact elements_is_an_order.
  - unfold enough_fuel; simpl; lia.
  - discriminate.
  - exists R, log. split; [exact Hres|].
    assert (HR : R = [customers; orders]).
    { vm_compute in Hres. by inversion Hres. }
    subst R.
    apply (Hord shop_acyclic orders customers).
    + apply list_elem_of_In; vm_compute; tauto.
    + apply list_elem_of_In; vm_compute; tauto.
    + exists (fk_to "customer_id" "customers"). split; [by left | reflexivity].
    + discriminate.
Defined.

Lemma resolve_dependencies_self_reference_witness :
  exists R log,
    _resolve_dependencies elements 3 "postgresql" [employees] ["employees"] = Some (R, log)
    /\ (forall ds, build_dependencies "postgresql" (filter_tables "postgresql" [employees])
                     !! "employees" = Some ds -> "employees" ∉ ds)
    /\ count_name "employees" (map name R) = 1.
Proof.
  apply (resolve_dependencies_self_reference elements "postgresql" [employees] ["employees"] 3 employees).
  - exact elements_is_an_order.
  - unfold enough_fuel; simpl; lia.
  - apply list_elem_of_In; vm_compute; tauto.
  - exists (fk_to "manager_id" "employees"). split; [by left | reflexivity].
  - apply list_elem_of_In; vm_compute; tauto.
Defined.

(** C3, counterexample.  The claim as stated fails in three ways: a
    selected SQLite catalogue table is dropped from the result; for a
    MongoDB source a referenced collection of the schema is not pulled in;
    and a reference to a table whose name is the empty string is ignored. *)
Lemma resolve_dependencies_closure_counterexample :
  (_resolve_dependencies elements 4 "sqlite" [users; sqlite_sequence]
       ["users"; "sqlite_sequence"] = Some ([users], [])
   /\ "sqlite_sequence" ∈ ["users"; "sqlite_sequence"]
   /\ "sqlite_sequence" ∉ map name [users])
  /\ (_resolve_dependencies elements 4 "mongodb" shop ["orders"] = Some ([orders], [])
      /\ references orders "customers"
      /\ "customers" ∈ map name shop
      /\ "customers" ∉ map name [orders])
  /\ (_resolve_dependencies elements 4 "mysql" [notes; unnamed] ["notes"] = Some ([notes], [])
      /\ references notes (name unnamed)
      /\ name unnamed ∈ map name [notes; unnamed]
      /\ name unnamed ∉ map name [notes]).
Proof.
  split_and!; try (vm_compute; reflexivity);
    try (apply list_elem_of_In; vm_compute; tauto);
    try (rewrite list_elem_of_In; simpl; intuition discriminate).
  - exists (fk_to "customer_id" "customers"). split; [by left | reflexivity].
  - exists (fk_to "ref" ""). split; [by left | reflexivity].
Qed.

(** C4, counterexample.  For a MongoDB source the dependency map is empty,
    so the order is the iteration order of the set of names; and a
    reference to a table named by the empty string is not a dependency.
    With the iteration order [elements] the referenced table comes last. *)
Lemma resolve_dependencies_order_counterexample :
  (_resolve_dependencies elements 4 "mongodb" shop ["orders"; "customers"]
       = Some ([orders; customers], [])
   /\ acyclic [orders; customers]
   /\ references orders (name customers)
   /\ at_or_before (map name [orders; customers]) (name customers) (name orders) = false)
  /\ (_resolve_dependencies elements 4 "mysql" [notes; unnamed] ["notes"; ""]
       = Some ([notes; unnamed], [])
      /\ acyclic [notes; unnamed]
      /\ references notes (name unnamed)
      /\ at_or_before (map name [notes; unnamed]) (name unnamed) (name notes) = false).
Proof.
  split_and!; try (vm_compute; reflexivity).
  - apply (acyclic_by_rank _ (fun n => if n =? "orders" then 1 else 0)).
    intros a b (A & HA & <- & Hb & _).
    apply elem_of_table_deps in Hb as (fk & Hfk & Hr & _).
    apply list_elem_of_In in HA. simpl in HA. destruct HA as [<-|[<-|[]]].
    + apply list_elem_of_In in Hfk. simpl in Hfk. destruct Hfk as [<-|[]].
      simpl in Hr. inversion Hr; subst b. simpl. lia.
    + apply list_elem_of_In in Hfk. destruct Hfk.
  - exists (fk_to "customer_id" "customers"). split; [by left | reflexivity].
  - intros n Hn.
    assert (H : forall x y, tc (depends_on [notes; unnamed]) x y -> False); [|eauto].
    intros x y [x' y' He | x' y' z' He _];
      destruct He as (A & HA & <- & Hb & _);
      apply elem_of_table_deps in Hb as (fk & Hfk & Hr & Hne & _);
      apply list_elem_of_In in HA; simpl in HA; destruct HA as [<-|[<-|[]]];
      apply list_elem_of_In in Hfk; simpl in Hfk;
      try (destruct Hfk as [<-|[]]; simpl in Hr; inversion Hr; congruence);
      destruct Hfk.
  - exists (fk_to "ref" ""). split; [by left | reflexivity].
Qed.
End ResolverWitnesses.

(** ** The schema inspector *)

Section InspectorClaims.
Import Py Schema SchemaInspector InspectorExamples.

Lemma mapM_Raise {A B} (f : A -> Res B) (l : list A) x e :
  x ∈ l -> f x = Raise e -> exists e', mapM f l = Raise e'.
Proof.
  induction l as [|y l IH]; intros Hx Hf; [by apply elem_of_nil in Hx|].
  simpl. apply elem_of_cons in Hx as [<-|Hx].
  - rewrite Hf. eauto.
  - destruct (f y); simpl; [|eauto].
    destruct (IH Hx Hf) as [e' ->]. eauto.
Qed.

Lemma finally_Raise {A} (e : exn) (cleanup : Res unit) :
  exists e', @finally A (Raise e) cleanup = Raise e'.
Proof. destruct cleanup; simpl; eauto. Qed.

Lemma finally_success {A} (body : Res A) cleanup (P : A -> Prop) :
  (forall r, body = Ok r -> P r) ->
  forall r, finally body cleanup = Ok r -> P r.
Proof.
  intros H r. destruct body, cleanup; simpl; try discriminate.
  intros [= <-]. by apply H.
Qed.

Lemma bind_Ok_inv {A B} (m : Res A) (k : A -> Res B) b :
  (m ≫= k) = Ok b -> exists a, m = Ok a /\ k a = Ok b.
Proof. destruct m; [eauto | discriminate]. Qed.

Lemma inspect_postgresql_success srv db d :
  _inspect_postgresql srv db = Ok d -> success d = Some true.
Proof.
  unfold _inspect_postgresql. destruct (pg_connect srv); [|discriminate].
  revert d. apply (finally_success _ _ (fun d => success d = Some true)). intros r Hr.
  apply bind_Ok_inv in Hr as (? & _ & Hr). apply bind_Ok_inv in Hr as (? & _ & Hr).
  by inversion Hr.
Qed.

Lemma inspect_mysql_success srv db d :
  _inspect_mysql srv db = Ok d -> success d = Some true.
Proof.
  unfold _inspect_mysql. destruct (my_connect srv); [|discriminate].
  revert d. apply (finally_success _ _ (fun d => success d = Some true)). intros r Hr.
  apply bind_Ok_inv in Hr as (? & _ & Hr). apply bind_Ok_inv in Hr as (? & _ & Hr).
  by inversion Hr.
Qed.

Lemma inspect_sqlite_success file db d :
  _inspect_sqlite file db = Ok d -> success d = Some true.
Proof.
  unfold _inspect_sqlite. destruct (sq_connect file); [|discriminate].
  revert d. apply (finally_success _ _ (fun d => success d = Some true)). intros r Hr.
  apply bind_Ok_inv in Hr as (? & _ & Hr). apply bind_Ok_inv in Hr as (? & _ & Hr).
  by inversion Hr.
Qed.

Lemma inspect_mongodb_success srv db d :
  _inspect_mongodb srv db = Ok d -> success d = Some true.
Proof.
  unfold _inspect_mongodb. destruct (mg_client srv); [|discriminate].
  revert d. apply (finally_success _ _ (fun d => success d = Some true)). intros r Hr.
  apply bind_Ok_inv in Hr as (? & _ & Hr). apply bind_Ok_inv in Hr as (? & _ & Hr).
  by inversion Hr.
Qed.

Lemma try_except_dict (m : Res SchemaDict) (h : exn -> SchemaDict) (P : SchemaDict -> Prop) :
  (forall d, m = Ok d -> P d) -> (forall e, P (h e)) ->
  exists d, try_except m (fun e => Ok (h e)) = Ok d /\ P d.
Proof. intros H1 H2. destruct m as [d|e]; simpl; eauto. Qed.

(** C10.  [get_schema] returns a dictionary for every database type,
    connection and behaviour of the servers; the dictionary has a boolean
    [success], and an [error] text whenever [success] is false. *)
Theorem get_schema_always_returns (net : Network) (db_type : string) (c : Connection) :
  exists d, get_schema net db_type c = Ok d
    /\ (exists b, success d = Some b)
    /\ (success d = Some false -> exists msg, error d = Some msg).
Proof.
  unfold get_schema.
  apply (try_except_dict _ _
           (fun d => (exists b, success d = Some b)
                     /\ (success d = Some false -> exists msg, error d = Some msg))).
  - intros d Hd.
    assert (H : success d = Some true \/ (success d = Some false /\ exists msg, error d = Some msg)).
    { destruct (db_type =? "postgresql"); [left; by eapply inspect_postgresql_success|].
      destruct (db_type =? "mysql"); [left; by eapply inspect_mysql_success|].
      destruct (db_type =? "mongodb"); [left; by eapply inspect_mongodb_success|].
      destruct (db_type =? "sqlite"); [left; by eapply inspect_sqlite_success|].
      right. inversion Hd; subst d. simpl. eauto. }
    destruct H as [H|[H1 H2]].
    + rewrite H. split; [eauto | discriminate].
    + rewrite H1. split; [eauto | done].
  - intros e. simpl. split; eauto.
Qed.

(** C8 (as amended).  When the row-count query fails for a table that the
    PostgreSQL catalogue lists, the inspection does not raise, and it does
    not return a schema either: [get_schema] returns a dictionary whose
    [success] is false, with an [error] text and no [tables]. *)
Theorem row_count_failure_fails_inspection
    (net : Network) (c : Connection) (tables_raw : list (string * string))
    (table_row : string * string) (e : exn) :
  pg_connect (postgres_at net c) = Ok tt ->
  pg_fetch_tables (postgres_at net c) = Ok tables_raw ->
  table_row ∈ tables_raw ->
  pg_fetchval_count (postgres_at net c) (fst table_row) = Raise e ->
  exists d msg, get_schema net "postgresql" c = Ok d
    /\ success d = Some false
    /\ error d = Some ("Schema inspection failed: " +:+ msg)
    /\ tables d = None.
Proof.
  intros Hconn Htabs Hin Hcount.
  unfold get_schema. change (("postgresql" =? "postgresql")%string) with true. cbv iota.
  unfold _inspect_postgresql. rewrite Hconn, Htabs, bind_Ok. cbv beta.
  match goal with |- context [mapM ?f tables_raw] =>
    assert (Hrow : exists e0, f table_row = Raise e0)
  end.
  { simpl. destruct (pg_fetch_columns _ _); simpl; [|eauto].
    destruct (pg_fetch_primary_keys _ _); simpl; [|eauto].
    destruct (pg_fetch_foreign_keys _ _); simpl; [|eauto].
    rewrite Hcount. simpl. eauto. }
  destruct Hrow as [e0 Hrow].
  match goal with |- context [mapM ?f tables_raw] =>
    destruct (mapM_Raise f tables_raw table_row e0 Hin Hrow) as [e1 He1]
  end.
  rewrite He1, bind_Raise.
  destruct (finally_Raise (A := SchemaDict) e1 (pg_close (postgres_at net c))) as [e2 He2].
  rewrite He2. eexists _, (exn_msg e2). split_and!; reflexivity.
Qed.

Lemma row_count_failure_fails_inspection_witness :
  exists d msg, get_schema lab_network "postgresql" lab_connection = Ok d
    /\ success d = Some false
    /\ error d = Some ("Schema inspection failed: " +:+ msg)
    /\ tables d = None.
Proof.
  apply (row_count_failure_fails_inspection lab_network lab_connection
           [("events", "BASE TABLE")] ("events", "BASE TABLE")
           (mk_exn Exception "permission denied for table events")).
  - reflexivity.
  - reflexivity.
  - by left.
  - reflexivity.
Defined.

(** C8, counterexample.  The catalogue queries of this server succeed and
    only its row count is refused, yet the inspection reports a failure. *)
Lemma row_count_best_effort_counterexample :
  pg_fetch_tables count_denied = Ok [("events", "BASE TABLE")]
  /\ pg_fetch_columns count_denied "events" = Ok [mk_pg_column "id" "integer" None "NO" None]
  /\ pg_fetchval_count count_denied "events"
      = raise Exception "permission denied for table events"
  /\ get_schema lab_network "postgresql" lab_connection
      = Ok (mk_schema_dict (Some false) None None None
              (Some "Schema inspection failed: permission denied for table events")).
Proof. split_and!; reflexivity. Qed.
End InspectorClaims.

(** ** The migration job *)

Section JobClaims.
Import Py Schema SchemaInspector MigrationJob.

(** Once the job is past its initial check, whatever the engine does
    (return a result or raise), the status written last is [COMPLETED] or
    [FAILED]: a cancellation observed by [update_progress] reaches the job
    as a failure of the engine. *)
Lemma job_ends_completed_or_failed env selected_tables drop_if_exists is_dry_run w :
  default false (CANCEL_REQUESTS w !! migration_id env) = false ->
  let w' := snd (run_migration_job env selected_tables drop_if_exists is_dry_run w) in
  status (migration w') = COMPLETED \/ status (migration w') = FAILED.
Proof.
  intros Hflag. unfold run_migration_job.
  unfold mbind, M_bind, update_migration at 1, get_world. simpl.
  rewrite Hflag.
  destruct (pre_migration_snapshot env is_dry_run _) as [[[]|e0] w0] eqn:Hsnap.
  - unfold catch.
    destruct (migrate env selected_tables drop_if_exists _ w0) as [[r|e] w1]; simpl.
    + destruct (result_success r); simpl; [left | right]; reflexivity.
    + right. reflexivity.
  - exfalso. unfold pre_migration_snapshot in Hsnap.
    destruct is_dry_run; [discriminate|].
    unfold catch, mbind, M_bind, lift in Hsnap.
    destruct (create_snapshot env) as [[]|]; discriminate.
Qed.

(** C2.  Three tables, the cancel request served while the first one is
    in transfer: the progress update before the second table raises, the
    engine rolls back all three tables (the completed one included) and
    returns a failure, and the job records [FAILED] with no migrated rows;
    the [CANCELLED] written by the cancel endpoint is overwritten. *)
Theorem cancelled_run_is_recorded_as_failed :
  let w := snd (run_migration_job cancelled_during_customers
                  ["customers"; "orders"; "payments"] false false initial_world) in
  status (migration w) = FAILED
  /\ status (migration w) <> CANCELLED
  /\ error_message (migration w) = Some "Migration cancelled by user"
  /\ migrated_rows (migration w) = 0%Z
  /\ target_tables w = []
  /\ In "  ✓ customers: 10 rows migrated" (migration_log w)
  /\ In "  ✓ Dropped table: customers" (migration_log w).
Proof. vm_compute. split_and!; try reflexivity; try discriminate; tauto. Qed.

(** The path taken when the request is already registered as the job
    starts does record [CANCELLED]. *)
Lemma cancel_before_start_is_recorded_as_cancelled :
  let w0 := mk_world {[ 7%Z := true ]} (mk_migration PENDING None 0 0 0 0 None None [] true) [] [] in
  let w := snd (run_migration_job never_cancelled ["customers"] false false w0) in
  status (migration w) = CANCELLED /\ target_tables w = [].
Proof. vm_compute. split; reflexivity. Qed.

(** Without a cancel request the same migration completes with the rows
    of all three tables. *)
Lemma uncancelled_run_completes :
  let w := snd (run_migration_job never_cancelled
                  ["customers"; "orders"; "payments"] false false initial_world) in
  status (migration w) = COMPLETED
  /\ migrated_rows (migration w) = 30%Z
  /\ target_tables w = ["customers"; "orders"; "payments"].
Proof. vm_compute. split_and!; reflexivity. Qed.
End JobClaims.

(** ** More on the type mapper *)

Section MapperExtras.
Import Py DataTypeMapper MapperSpec.

Lemma lower_char_idemp (c : ascii) : lower_char (lower_char c) = lower_char c.
Proof. destruct c as [[] [] [] [] [] [] [] []]; reflexivity. Qed.

Lemma lower_idemp (s : string) : lower (lower s) = lower s.
Proof. induction s as [|c s IH]; simpl; [done | by rewrite lower_char_idemp, IH]. Qed.

Lemma lower_char_paren (c : ascii) :
  Ascii.eqb "(" (lower_char c) = Ascii.eqb "(" c.
Proof. destruct c as [[] [] [] [] [] [] [] []]; reflexivity. Qed.

Lemma split_head_lower (s : string) :
  split_head "(" (lower s) = lower (split_head "(" s).
Proof.
  induction s as [|c s IH]; [done|]. cbn [lower split_head].
  rewrite lower_char_paren. destruct (Ascii.eqb "(" c); cbn [lower]; [done | by rewrite IH].
Qed.

Lemma split_head_idemp (s : string) :
  split_head "(" (split_head "(" s) = split_head "(" s.
Proof.
  induction s as [|c s IH]; [done|]. cbn [split_head].
  destruct (Ascii.eqb "(" c) eqn:E; cbn [split_head]; [done | by rewrite E, IH].
Qed.

Lemma SQLITE_TYPE_MAP_values k v :
  SQLITE_TYPE_MAP !! k = Some v -> In v ["INTEGER"; "TEXT"; "REAL"; "BLOB"].
Proof.
  intros H. apply elem_of_list_to_map_2 in H. apply list_elem_of_In in H.
  simpl in H.
  repeat (destruct H as [H|H]; [inversion H; subst; simpl; tauto|]). destruct H.
Qed.

(** X1.  Whatever the source type, [map_to_sqlite] answers one of the four
    SQLite storage classes, and its answer depends neither on the case of
    the type name nor on a parenthesised suffix. *)
Theorem map_to_sqlite_storage_class (source_type source_db : string) :
  In (map_to_sqlite source_type source_db) ["INTEGER"; "TEXT"; "REAL"; "BLOB"]
  /\ map_to_sqlite (lower source_type) source_db = map_to_sqlite source_type source_db
  /\ map_to_sqlite (split_head "(" source_type) source_db = map_to_sqlite source_type source_db.
Proof.
  split_and!.
  - unfold map_to_sqlite, dict_get.
    destruct (SQLITE_TYPE_MAP !! _) as [v|] eqn:E; [|simpl; tauto].
    by apply SQLITE_TYPE_MAP_values in E.
  - unfold map_to_sqlite. by rewrite lower_idemp.
  - unfold map_to_sqlite. by rewrite !split_head_lower, split_head_idemp.
Qed.

Lemma find_char_contains c s i : find_char c s = Some i -> contains_char c s = true.
Proof.
  revert i. induction s as [|d s IH]; intros i; simpl; [discriminate|].
  destruct (Ascii.eqb c d); [done|]. simpl.
  destruct (find_char c s) as [j|]; [|discriminate]. intros _. by apply (IH j).
Qed.

Lemma find_char_None_contains c s : find_char c s = None -> contains_char c s = false.
Proof.
  induction s as [|d s IH]; simpl; [done|].
  destruct (Ascii.eqb c d); [discriminate|]. simpl.
  destruct (find_char c s); [discriminate|]. intros _. by apply IH.
Qed.

Lemma contains_find_char c s : contains_char c s = true -> is_Some (find_char c s).
Proof.
  destruct (find_char c s) eqn:E; [eauto|].
  apply find_char_None_contains in E. congruence.
Qed.

Lemma length_types_map_to_themselves b :
  In b ["char"; "varchar"; "decimal"; "numeric"] ->
  dict_get MYSQL_TO_POSTGRESQL b "" = b
  /\ in_list b ["char"; "varchar"; "decimal"; "numeric"] = true
  /\ in_list b ["enum"; "set"] = false.
Proof. simpl. intros [<-|[<-|[<-|[<-|[]]]]]; split_and!; reflexivity. Qed.

Lemma dict_get_default_irrelevant {V} (d : gmap string V) k (a b : V) :
  is_Some (d !! k) -> dict_get d k a = dict_get d k b.
Proof. intros [v Hv]. unfold dict_get. by rewrite Hv. Qed.

(** X2.  From MySQL to PostgreSQL a [char], [varchar], [decimal] or
    [numeric] type keeps its parenthesised suffix: the result is the base
    type followed by the text of the source type from its first opening
    to its first closing parenthesis. *)
Theorem mysql_length_suffix_is_kept (col_name : PyVal) (source_type : string) (i j : nat) :
  In (mysql_base_type source_type) ["char"; "varchar"; "decimal"; "numeric"] ->
  find_char "(" source_type = Some i ->
  find_char ")" source_type = Some j ->
  postgresql_col_type "mysql" col_name source_type
  = Ok (mysql_base_type source_type +:+ slice source_type i (j + 1)).
Proof.
  intros Hb Hi Hj. unfold postgresql_col_type.
  change (("mysql" =? "mysql")%string) with true. cbv iota.
  fold (mysql_base_type source_type).
  destruct (length_types_map_to_themselves _ Hb) as (Hm & Hin & Hen).
  assert (Hget : dict_get MYSQL_TO_POSTGRESQL (mysql_base_type source_type) source_type
                 = mysql_base_type source_type).
  { rewrite <- Hm at 2. apply dict_get_default_irrelevant.
    simpl in Hb. destruct Hb as [<-|[<-|[<-|[<-|[]]]]]; by eexists. }
  rewrite Hget, Hin, Hen, (find_char_contains _ _ _ Hi). simpl.
  unfold index. rewrite Hi, Hj. reflexivity.
Qed.

Lemma mysql_length_suffix_is_kept_witness :
  postgresql_col_type "mysql" (PStr "price") "DECIMAL(10,2) unsigned" = Ok "decimal(10,2)".
Proof.
  apply (mysql_length_suffix_is_kept (PStr "price") "DECIMAL(10,2) unsigned" 7 12).
  - simpl. tauto.
  - reflexivity.
  - reflexivity.
Defined.

Lemma postgresql_col_type_raises source_db col_name source_type e :
  postgresql_col_type source_db col_name source_type = Raise e ->
  e = mk_exn ValueError "substring not found".
Proof.
  unfold postgresql_col_type.
  repeat match goal with
         | |- context [if ?b then _ else _] => destruct b
         end; try discriminate.
  unfold index.
  destruct (find_char "(" source_type); simpl; [|by intros [= <-]].
  destruct (find_char ")" source_type); simpl; [discriminate | by intros [= <-]].
Qed.

Lemma mapM_raises_one {A B} (f : A -> Res B) (l : list A) (e0 : exn) :
  (forall x e, f x = Raise e -> e = e0) ->
  (exists x, x ∈ l /\ f x = Raise e0) ->
  mapM f l = Raise e0.
Proof.
  intros Hall (x & Hx & Hf). induction l as [|y l IH]; [by apply elem_of_nil in Hx|].
  simpl. destruct (f y) as [b|e] eqn:E; simpl.
  - apply elem_of_cons in Hx as [->|Hx]; [congruence|]. by rewrite (IH Hx).
  - by rewrite (Hall y e E).
Qed.

(** X3.  A MySQL type of one of these four kinds that opens a parenthesis
    and never closes it makes the PostgreSQL generator raise [ValueError]
    for the whole table. *)
Theorem unclosed_parenthesis_raises
    (table_name : string) (columns : list (gmap string PyVal))
    (primary_keys : list string) (col : gmap string PyVal) :
  col ∈ columns ->
  In (mysql_base_type (get_column_data_type col)) ["char"; "varchar"; "decimal"; "numeric"] ->
  contains_char "(" (get_column_data_type col) = true ->
  contains_char ")" (get_column_data_type col) = false ->
  get_create_table_sql table_name columns primary_keys "mysql" "postgresql"
  = raise ValueError "substring not found".
Proof.
  intros Hcol Hb Hopen Hclose. unfold get_create_table_sql.
  change (("postgresql" =? "postgresql")%string) with true. cbv iota.
  unfold get_create_table_sql_postgresql.
  destruct columns as [|c0 cs]; [by apply elem_of_nil in Hcol|].
  match goal with |- context [mapM ?f (c0 :: cs)] =>
    rewrite (mapM_raises_one f (c0 :: cs) (mk_exn ValueError "substring not found"))
  end; [reflexivity | |].
  - intros x e. simpl.
    destruct (postgresql_col_type "mysql" (column_name x) (get_column_data_type x)) eqn:E;
      simpl; [by destruct (not_nullable x)|].
    intros [= <-]. by apply postgresql_col_type_raises in E.
  - exists col. split; [done|]. simpl.
    assert (E : postgresql_col_type "mysql" (column_name col) (get_column_data_type col)
                = Raise (mk_exn ValueError "substring not found")); [|by rewrite E].
    unfold postgresql_col_type.
    change (("mysql" =? "mysql")%string) with true. cbv iota.
    fold (mysql_base_type (get_column_data_type col)).
    destruct (length_types_map_to_themselves _ Hb) as (Hm & Hin & Hen).
    assert (Hget : dict_get MYSQL_TO_POSTGRESQL (mysql_base_type (get_column_data_type col))
                     (get_column_data_type col)
                   = mysql_base_type (get_column_data_type col)).
    { rewrite <- Hm at 2. apply dict_get_default_irrelevant.
      simpl in Hb. destruct Hb as [<-|[<-|[<-|[<-|[]]]]]; by eexists. }
    rewrite Hget, Hin, Hen, Hopen. simpl.
    destruct (contains_find_char _ _ Hopen) as [i Hi].
    unfold index. rewrite Hi. simpl.
    destruct (find_char ")" (get_column_data_type col)) eqn:Hj; [|reflexivity].
    apply find_char_contains in Hj. congruence.
Qed.

Lemma unclosed_parenthesis_raises_witness :
  get_create_table_sql "prices" [column "id" "int"; column "amount" "decimal(10,2"] ["id"]
    "mysql" "postgresql"
  = raise ValueError "substring not found".
Proof.
  apply (unclosed_parenthesis_raises "prices" _ ["id"] (column "amount" "decimal(10,2")).
  - right. left.
  - simpl. tauto.
  - reflexivity.
  - reflexivity.
Defined.

(** X4.  From PostgreSQL to MySQL a declared length is not kept: every
    type whose base is [varchar] or [character varying] becomes
    [varchar(255)], and every [char] becomes [char(255)]. *)
Theorem postgresql_length_is_replaced (col_name : PyVal) (pk : bool) (source_type : string) :
  (In (base_type source_type) ["varchar"; "character varying"] ->
     mysql_col_type "postgresql" col_name pk source_type = "varchar(255)")
  /\ (base_type source_type = "char" ->
      mysql_col_type "postgresql" col_name pk source_type = "char(255)").
Proof.
  split.
  - intros Hb. unfold mysql_col_type.
    change (("postgresql" =? "postgresql")%string) with true. cbv iota.
    fold (base_type source_type).
    simpl in Hb. destruct Hb as [<-|[<-|[]]]; reflexivity.
  - intros Hb. unfold mysql_col_type.
    change (("postgresql" =? "postgresql")%string) with true. cbv iota.
    fold (base_type source_type). rewrite Hb. reflexivity.
Qed.

Lemma postgresql_length_is_replaced_witness :
  mysql_col_type "postgresql" (PStr "code") false "varchar(20)" = "varchar(255)"
  /\ mysql_col_type "postgresql" (PStr "flag") false "CHAR(1)" = "char(255)".
Proof.
  split.
  - apply (proj1 (postgresql_length_is_replaced (PStr "code") false "varchar(20)")).
    simpl. tauto.
  - apply (proj2 (postgresql_length_is_replaced (PStr "flag") false "CHAR(1)")).
    reflexivity.
Defined.

Lemma mapM_Ok_or_Raise {A B} (f : A -> Res B) (l : list A) :
  (exists ys, mapM f l = Ok ys) \/ (exists x e, x ∈ l /\ f x = Raise e /\ mapM f l = Raise e).
Proof.
  induction l as [|x l IH]; simpl; [left; eauto|].
  destruct (f x) as [y|e] eqn:E; simpl.
  - destruct IH as [[ys ->]|(x' & e & Hx & Hf & ->)]; simpl.
    + left. eauto.
    + right. exists x', e. split_and!; [by right | done..].
  - right. exists x, e. split_and!; [by left | done..].
Qed.

(** X5.  When the generation of a [CREATE TABLE] fails.  For MySQL and
    MongoDB targets it never does (an empty column list gives a MySQL
    statement with an empty body); for SQLite it fails exactly for an
    empty column list; for PostgreSQL it fails for an empty column list
    and otherwise only with the [ValueError] of an unclosed parenthesis;
    any other target is refused. *)
Theorem create_table_failures
    (table_name : string) (columns : list (gmap string PyVal))
    (primary_keys : list string) (source_db target_db : string) :
  (exists sql, get_create_table_sql table_name columns primary_keys source_db "mysql" = Ok sql)
  /\ get_create_table_sql table_name columns primary_keys source_db "mongodb" = Ok ""
  /\ match columns with
     | [] =>
         get_create_table_sql table_name columns primary_keys source_db "sqlite"
         = raise Exception ("Cannot create table " +:+ table_name +:+ ": no columns defined")
         /\ get_create_table_sql table_name columns primary_keys source_db "postgresql"
         = raise Exception ("Cannot create table " +:+ table_name +:+ ": no columns defined")
     | _ :: _ =>
         (exists sql,
            get_create_table_sql table_name columns primary_keys source_db "sqlite" = Ok sql)
         /\ ((exists sql,
               get_create_table_sql table_name columns primary_keys source_db "postgresql"
               = Ok sql)
             \/ get_create_table_sql table_name columns primary_keys source_db "postgresql"
                = raise ValueError "substring not found")
     end
  /\ (in_list target_db ["postgresql"; "mysql"; "sqlite"; "mongodb"] = false ->
      get_create_table_sql table_name columns primary_keys source_db target_db
      = raise Exception ("Unsupported target database: " +:+ target_db)).
Proof.
  split_and!.
  - eexists. reflexivity.
  - reflexivity.
  - destruct columns as [|c cs]; [split; reflexivity|]. split; [eexists; reflexivity|].
    unfold get_create_table_sql.
    change (("postgresql" =? "postgresql")%string) with true. cbv iota.
    unfold get_create_table_sql_postgresql.
    match goal with |- context [mapM ?f (c :: cs)] =>
      destruct (mapM_Ok_or_Raise f (c :: cs)) as [[ys ->]|(x & e & _ & Hf & ->)]
    end.
    + left. eexists. reflexivity.
    + right. simpl in Hf.
      destruct (postgresql_col_type source_db (column_name x) (get_column_data_type x)) eqn:E;
        simpl in Hf; [by destruct (not_nullable x)|].
      inversion Hf; subst. by apply postgresql_col_type_raises in E as ->.
  - unfold in_list. simpl. intros H.
    apply orb_false_iff in H as [H1 H]. apply orb_false_iff in H as [H2 H].
    apply orb_false_iff in H as [H3 H]. apply orb_false_iff in H as [H4 _].
    unfold get_create_table_sql. by rewrite H1, H2, H3, H4.
Qed.

Lemma create_table_failures_witness :
  get_create_table_sql "t" [] [] "mysql" "oracle"
  = raise Exception "Unsupported target database: oracle".
Proof.
  apply (proj2 (proj2 (proj2 (create_table_failures "t" [] [] "mysql" "oracle")))).
  reflexivity.
Defined.
End MapperExtras.

(** ** More on the dependency resolver *)

Section ResolverReachFacts.
Import Py Schema Resolver ResolverSpec ResolverReach.

Variable set_iter : gset string -> list string.
Hypothesis set_iter_perm : forall s, set_iter s ≡ₚ elements s.
Variable table_map : gmap string Table.
Variable dependencies : gmap string (gset string).

Local Abbreviation add_deps := (add_dependencies set_iter table_map dependencies).
Local Abbreviation add_body := (ResolverSpec.add_body set_iter table_map dependencies).

Lemma announces_refl st : announces st st.
Proof.
  split; [done|]. exists []. split_and!; [by rewrite app_nil_r | constructor |].
  intros x. split; [by intros ?%elem_of_nil | tauto].
Qed.

Lemma announces_trans st1 st2 st3 : announces st1 st2 -> announces st2 st3 -> announces st1 st3.
Proof.
  intros (A1 & n1 & A3 & A4 & A5) (B1 & n2 & B3 & B4 & B5).
  split; [set_solver|]. exists (n1 ++ n2)%list. split_and!.
  - by rewrite B3, A3, map_app, app_assoc.
  - apply NoDup_app. split_and!; [done | | done].
    intros x Hx1 Hx2. apply A5 in Hx1. apply B5 in Hx2. set_solver.
  - intros x. rewrite elem_of_app, A5, B5. split.
    + intros [[? ?]|[? ?]]; split; set_solver.
    + intros [? ?]. destruct (decide (x ∈ tables_to_include st2)); [left|right]; done.
Qed.

Lemma announces_add dep st :
  dep ∉ tables_to_include st ->
  announces st (mk_include ({[ dep ]} ∪ tables_to_include st)
                  (migration_log st ++ ["  + Auto-selected dependent table: " +:+ dep])%list).
Proof.
  intros Hd. split; [simpl; set_solver|]. exists [dep]. simpl. split_and!.
  - reflexivity.
  - apply NoDup_singleton.
  - intros x. rewrite list_elem_of_singleton. set_solver.
Qed.

Lemma add_loop_announces fuel
  (IH : forall t st st', add_deps fuel t st = Some st' -> announces st st') :
  forall l st st', for_each (add_body fuel) l st = Some st' -> announces st st'.
Proof.
  induction l as [|d l IHl]; intros st st' H; simpl in H.
  - inversion H; subst. apply announces_refl.
  - destruct (add_body fuel d st) as [st1|] eqn:Hb; [|discriminate].
    apply announces_trans with st1; [|eauto].
    unfold ResolverSpec.add_body in Hb.
    destruct (negb (bool_decide (d ∈ tables_to_include st)) && bool_decide (d ∈ dom table_map)) eqn:Hc.
    + apply andb_true_iff in Hc as [Hc1 _].
      apply negb_true_iff, bool_decide_eq_false in Hc1.
      eapply announces_trans; [by apply announces_add | apply (IH _ _ _ Hb)].
    + inversion Hb; subst. apply announces_refl.
Qed.

Lemma add_dependencies_announces fuel :
  forall t st st', add_deps fuel t st = Some st' -> announces st st'.
Proof.
  induction fuel as [|fuel IH]; intros t st st' H; [discriminate|].
  rewrite add_dependencies_unfold in H.
  destruct (dependencies !! t) as [deps|].
  - by apply (add_loop_announces fuel IH) in H.
  - inversion H; subst. apply announces_refl.
Qed.

Lemma add_all_announces fuel :
  forall l st st', for_each (add_deps fuel) l st = Some st' -> announces st st'.
Proof.
  induction l as [|t l IHl]; intros st st' H; simpl in H.
  - inversion H; subst. apply announces_refl.
  - destruct (add_deps fuel t st) as [st1|] eqn:H1; [|discriminate].
    apply announces_trans with st1; [by apply add_dependencies_announces in H1 | eauto].
Qed.

(** A property of names that holds of the starting names and is carried
    along the dependency map holds of every name that is included. *)
Section Carried.
Variable P : string -> Prop.
Hypothesis P_edge : forall a b, P a -> dep_edge dependencies a b -> P b.

Lemma add_loop_carries fuel
  (IH : forall t st st', add_deps fuel t st = Some st' -> P t ->
          (forall x, x ∈ tables_to_include st -> P x) ->
          forall x, x ∈ tables_to_include st' -> P x) :
  forall l st st', for_each (add_body fuel) l st = Some st' ->
    (forall d, d ∈ l -> P d) ->
    (forall x, x ∈ tables_to_include st -> P x) ->
    forall x, x ∈ tables_to_include st' -> P x.
Proof.
  induction l as [|d l IHl]; intros st st' H Hl Hst; simpl in H.
  - by inversion H; subst.
  - destruct (add_body fuel d st) as [st1|] eqn:Hb; [|discriminate].
    apply (IHl st1 st' H); [intros e He; apply Hl; by right|].
    unfold ResolverSpec.add_body in Hb.
    destruct (negb (bool_decide (d ∈ tables_to_include st)) && bool_decide (d ∈ dom table_map)).
    + apply (IH _ _ _ Hb); [apply Hl; by left|]. simpl. intros x Hx.
      apply elem_of_union in Hx as [Hx|Hx]; [|by apply Hst].
      apply elem_of_singleton in Hx as ->. apply Hl. by left.
    + by inversion Hb; subst.
Qed.

Lemma add_dependencies_carries fuel :
  forall t st st', add_deps fuel t st = Some st' -> P t ->
    (forall x, x ∈ tables_to_include st -> P x) ->
    forall x, x ∈ tables_to_include st' -> P x.
Proof.
  induction fuel as [|fuel IH]; intros t st st' H Pt Hst; [discriminate|].
  rewrite add_dependencies_unfold in H.
  destruct (dependencies !! t) as [deps|] eqn:Hd.
  - apply (add_loop_carries fuel IH _ _ _ H); [|done].
    intros d Hdl. apply (P_edge t); [done|]. exists deps. split; [done|].
    by apply elem_of_set_iter in Hdl.
  - by inversion H; subst.
Qed.

Lemma add_all_carries fuel :
  forall l st st', for_each (add_deps fuel) l st = Some st' ->
    (forall t, t ∈ l -> P t) ->
    (forall x, x ∈ tables_to_include st -> P x) ->
    forall x, x ∈ tables_to_include st' -> P x.
Proof.
  induction l as [|t l IHl]; intros st st' H Hl Hst; simpl in H.
  - by inversion H; subst.
  - destruct (add_deps fuel t st) as [st1|] eqn:H1; [|discriminate].
    apply (IHl st1 st' H); [intros u Hu; apply Hl; by right|].
    apply (add_dependencies_carries fuel t st st1 H1); [apply Hl; by left | done].
Qed.
End Carried.
End ResolverReachFacts.

Section ResolverExtras.
Import Py Schema Resolver ResolverSpec ResolverReach Examples.

Variable set_iter : gset string -> list string.
Hypothesis set_iter_perm : forall s, set_iter s ≡ₚ elements s.

Lemma elem_of_selection (sel : list string) x :
  x ∈ (list_to_set (List.filter not_internal sel) : gset string)
  <-> x ∈ sel /\ x ∉ SQLITE_INTERNAL_TABLES.
Proof.
  rewrite elem_of_list_to_set, list_elem_of_In, List.filter_In, <- list_elem_of_In.
  unfold not_internal. by rewrite negb_true_iff, bool_decide_eq_false.
Qed.

(** The two loops of the resolver return, and the result is read off the
    states they leave. *)
Lemma resolve_run src all sel fuel :
  enough_fuel all sel <= fuel ->
  let TM := build_table_map (filter_tables src all) in
  let D := build_dependencies src (filter_tables src all) in
  let selection : gset string := list_to_set (List.filter not_internal sel) in
  exists log0 st vs,
    length log0 <= 1 /\ (src <> "mongodb" -> log0 = [])
    /\ for_each (add_dependencies set_iter TM D fuel) (set_iter selection)
         (mk_include selection log0) = Some st
    /\ _resolve_dependencies set_iter fuel src all sel
       = Some (omap (fun n => TM !! n) (ordered vs), migration_log st)
    /\ NoDup (ordered vs)
    /\ (forall x, x ∈ ordered vs <-> x ∈ tables_to_include st)
    /\ selection ⊆ tables_to_include st
    /\ tables_to_include st ⊆ selection ∪ dom TM
    /\ (forall x, x ∈ tables_to_include st -> closed_at TM D (tables_to_include st) x).
Proof.
  intros Hfuel TM D selection. unfold enough_fuel in Hfuel.
  unfold _resolve_dependencies. fold TM. fold D. fold selection.
  set (log0 := if src =? "mongodb" then _ else _).
  assert (Hlog0 : length log0 <= 1 /\ (src <> "mongodb" -> log0 = [])).
  { unfold log0. destruct (src =? "mongodb") eqn:E.
    - split; [|intros Hne; by apply String.eqb_neq in Hne; rewrite Hne in E].
      destruct (map name _); simpl; lia.
    - split; [simpl; lia | done]. }
  assert (HszTM' : size (dom TM) <= length all).
  { pose proof (size_dom_build_table_map (filter_tables src all)) as H1.
    pose proof (length_filter_tables src all) as H2. unfold TM. lia. }
  assert (HszTM : size (dom TM) < fuel) by lia.
  destruct (add_all_spec set_iter set_iter_perm TM D fuel (set_iter selection)
              (mk_include selection log0) HszTM)
    as (st & Hadd & A1 & A2 & A3 & A4).
  simpl in A1, A2, A4. rewrite Hadd.
  assert (Hszsel : size selection <= length sel).
  { etrans; [apply size_list_to_set|]. apply List.filter_length_le. }
  assert (Hszinc : size (tables_to_include st) < fuel).
  { assert (size (tables_to_include st) <= size (selection ∪ dom TM)) by by apply subseteq_size.
    pose proof (size_union_alt selection (dom TM)).
    assert (size (dom TM ∖ selection) <= size (dom TM)) by (apply subseteq_size; set_solver).
    lia. }
  destruct (visit_all_spec set_iter set_iter_perm D (tables_to_include st) fuel
              (set_iter (tables_to_include st)) (mk_visit ∅ []))
    as (vs & Hvis & (B1 & B2 & new & B3 & B4 & B5) & B6); [|done|].
  { intros t Ht. by apply elem_of_set_iter in Ht. }
  simpl in B2, B3, B5. rewrite Hvis.
  exists log0, st, vs. destruct Hlog0 as [L1 L2]. split_and!; try done.
  - by rewrite B3.
  - intros x. rewrite B3, B5. split.
    + intros [Hx _]. set_solver.
    + intros Hx. split; [|set_solver]. apply B6. by apply elem_of_set_iter.
  - intros x Hx. destruct (decide (x ∈ selection)) as [Hs|Hs].
    + apply A3. by apply elem_of_set_iter.
    + by apply A4.
Qed.

Lemma elem_of_result_names src all (o : list string) x :
  x ∈ map name (omap (fun n => build_table_map (filter_tables src all) !! n) o)
  <-> x ∈ o /\ x ∈ map name (filter_tables src all).
Proof.
  rewrite names_omap by (intros n t Ht; by apply table_map_keys in Ht as [? _]).
  by rewrite elem_of_filter_dom, names_filtered_dom.
Qed.

Lemma elem_of_filter_tables_mongodb all t :
  t ∈ filter_tables "mongodb" all -> name t ∉ MONGO_SYSTEM_COLLECTIONS.
Proof.
  unfold filter_tables. simpl. intros H.
  apply list_elem_of_In, List.filter_In in H as [_ H].
  unfold not_system in H. by apply negb_true_iff, bool_decide_eq_false in H.
Qed.

Lemma mongodb_no_edges all a b :
  ~ dep_edge (build_dependencies "mongodb" (filter_tables "mongodb" all)) a b.
Proof.
  intros (ds & Hds & Hb). rewrite build_dependencies_lookup in Hds.
  destruct (build_table_map _ !! a); [|done]. simpl in Hds. inversion Hds; subst ds. set_solver.
Qed.

(** X6.  Whatever the schema and the selection (cycles of foreign keys
    included), the resolver returns, no two returned tables share a name,
    and every returned table is a table of the schema that is not
    engine-internal, nor a system collection when the source is the
    document engine. *)
Theorem resolver_returns_distinct_schema_tables src all sel fuel :
  enough_fuel all sel <= fuel ->
  exists R log,
    _resolve_dependencies set_iter fuel src all sel = Some (R, log)
    /\ NoDup (map name R)
    /\ (forall t, t ∈ R ->
          t ∈ all /\ name t ∉ SQLITE_INTERNAL_TABLES
          /\ (src = "mongodb" -> name t ∉ MONGO_SYSTEM_COLLECTIONS)).
Proof.
  intros Hfuel.
  destruct (resolve_run src all sel fuel Hfuel)
    as (log0 & st & vs & _ & _ & _ & Hres & Hnd & _).
  eexists _, _. split; [exact Hres|]. split.
  - rewrite names_omap by (intros n t Ht; by apply table_map_keys in Ht as [? _]).
    by apply NoDup_list_filter.
  - intros t Ht. apply list_elem_of_omap in Ht as (n & _ & Hn).
    apply build_table_map_lookup in Hn as [_ Hn].
    split_and!; [by apply elem_of_filter_tables in Hn as [? _]
                | by apply elem_of_filter_tables in Hn as [_ ?] |].
    intros ->. by apply elem_of_filter_tables_mongodb in Hn.
Qed.

(** X7.  The names of the returned tables are exactly the names of the
    tables under consideration that can be reached from a selected name
    by following the dependency map: nothing is returned that the selection
    does not require. *)
Theorem resolver_returns_exactly_the_required_tables src all sel fuel :
  enough_fuel all sel <= fuel ->
  exists R log,
    _resolve_dependencies set_iter fuel src all sel = Some (R, log)
    /\ forall x, x ∈ map name R <->
         x ∈ map name (filter_tables src all)
         /\ exists s, s ∈ sel
              /\ rtc (dep_edge (build_dependencies src (filter_tables src all))) s x.
Proof.
  intros Hfuel.
  destruct (resolve_run src all sel fuel Hfuel)
    as (log0 & st & vs & _ & _ & Hadd & Hres & _ & Hord & Hsel & Hinc & Hclosed).
  eexists _, _. split; [exact Hres|].
  intros x. rewrite elem_of_result_names, Hord. split.
  - intros [Hx Hf]. split; [done|]. clear Hf. revert x Hx.
    apply (add_all_carries set_iter set_iter_perm _ _
             (fun x => exists s, s ∈ sel /\ rtc (dep_edge _) s x)
             ltac:(intros a b (s & Hs & Hsa) Hab; exists s; split; [done|];
                   by eapply rtc_r) _ _ _ _ Hadd).
    + intros t Ht. apply elem_of_set_iter, elem_of_selection in Ht as [Ht _]; [|done].
      by exists t.
    + simpl. intros y Hy. apply elem_of_selection in Hy as [Hy _]. by exists y.
  - intros [Hf (s & Hs & Hsx)]. split; [|done].
    apply names_filtered_dom in Hf. revert x Hsx Hf.
    apply (rtc_ind_r (fun x => x ∈ dom (build_table_map (filter_tables src all)) ->
                               x ∈ tables_to_include st) s); [intros Hf | intros y z Hsy Hyz IH Hf].
    + apply Hsel, elem_of_selection. split; [done|].
      apply elem_of_dom in Hf as [t Ht]. by apply table_map_keys in Ht as [_ ?].
    + destruct Hyz as (ds & Hds & Hz).
      assert (Hy : y ∈ tables_to_include st) by (apply IH; by apply dependencies_dom in Hds).
      assert (Hc := Hclosed y Hy). unfold closed_at in Hc. by apply (Hc ds z).
Qed.

(** X8.  For a relational source the lines that the resolver appends to
    the log are one announcement for each returned table that was not
    selected, each such table announced once. *)
Theorem resolver_announces_each_added_table src all sel fuel :
  src <> "mongodb" ->
  enough_fuel all sel <= fuel ->
  exists R log added,
    _resolve_dependencies set_iter fuel src all sel = Some (R, log)
    /\ log = map auto_selected added
    /\ NoDup added
    /\ forall x, x ∈ added <-> x ∈ map name R /\ x ∉ sel.
Proof.
  intros Hsrc Hfuel.
  destruct (resolve_run src all sel fuel Hfuel)
    as (log0 & st & vs & _ & Hlog0 & Hadd & Hres & _ & Hord & Hsel & Hinc & _).
  rewrite (Hlog0 Hsrc) in Hadd.
  apply add_all_announces in Hadd as (_ & added & Hlog & Hnd & Hadded); [|done].
  simpl in Hlog, Hadded.
  eexists _, _, added. split; [exact Hres|]. split_and!; [done..|].
  intros x. rewrite Hadded, elem_of_result_names, Hord, elem_of_selection. split.
  - intros [Hx Hns].
    assert (Hd : x ∈ dom (build_table_map (filter_tables src all))).
    { apply Hinc in Hx. apply elem_of_union in Hx as [Hx|Hx]; [|done].
      apply elem_of_selection in Hx. tauto. }
    split_and!; [done | by apply names_filtered_dom |].
    intros Hxs. apply Hns. split; [done|].
    apply elem_of_dom in Hd as [t Ht]. by apply table_map_keys in Ht as [_ ?].
  - intros [[Hx _] Hns]. split; [done | tauto].
Qed.

(** X9.  For the document engine the selection is never expanded: the
    returned collections are the selected names that name a collection
    under consideration, and the only line the resolver may log is the
    one that lists the skipped system collections. *)
Theorem mongodb_selection_is_not_expanded all sel fuel :
  enough_fuel all sel <= fuel ->
  exists R log,
    _resolve_dependencies set_iter fuel "mongodb" all sel = Some (R, log)
    /\ (forall x, x ∈ map name R <-> x ∈ sel /\ x ∈ map name (filter_tables "mongodb" all))
    /\ length log <= 1.
Proof.
  intros Hfuel.
  destruct (resolve_run "mongodb" all sel fuel Hfuel)
    as (log0 & st & vs & Hlen & _ & Hadd & Hres & _ & Hord & Hsel & Hinc & _).
  eexists _, _. split; [exact Hres|].
  assert (Hsub : forall x, x ∈ tables_to_include st ->
                   x ∈ (list_to_set (List.filter not_internal sel) : gset string)).
  { apply (add_all_carries set_iter set_iter_perm _ _ _
             ltac:(intros a b _ Hab; by apply mongodb_no_edges in Hab) _ _ _ _ Hadd).
    - intros t Ht. by apply elem_of_set_iter in Ht.
    - done. }
  split.
  - intros x. rewrite elem_of_result_names, Hord. split.
    + intros [Hx Hf]. split; [|done]. apply Hsub, elem_of_selection in Hx. tauto.
    + intros [Hx Hf]. split; [|done]. apply Hsel, elem_of_selection. split; [done|].
      apply names_filtered_dom, elem_of_dom in Hf as [t Ht].
      by apply table_map_keys in Ht as [_ ?].
  - apply add_all_announces in Hadd as (_ & added & Hlog & _ & Hadded); [|done].
    simpl in Hlog, Hadded. destruct added as [|a added].
    + rewrite Hlog, app_nil_r. done.
    + exfalso. assert (Ha : a ∈ a :: added) by by left.
      apply Hadded in Ha as [Ha1 Ha2]. by apply Hsub in Ha1.
Qed.

End ResolverExtras.

Section ResolverExtrasWitnesses.
Import Py Schema Resolver ResolverSpec ResolverReach Examples.

Lemma resolver_returns_distinct_schema_tables_witness :
  exists R log,
    _resolve_dependencies elements 5 "postgresql" office ["staff"] = Some (R, log)
    /\ NoDup (map name R)
    /\ (forall t, t ∈ R ->
          t ∈ office /\ name t ∉ SQLITE_INTERNAL_TABLES
          /\ ("postgresql" = "mongodb" -> name t ∉ MONGO_SYSTEM_COLLECTIONS)).
Proof.
  apply (resolver_returns_distinct_schema_tables elements elements_is_an_order
           "postgresql" office ["staff"] 5).
  unfold enough_fuel, office, archive; simpl; lia.
Defined.

Lemma resolver_returns_exactly_the_required_tables_witness :
  exists R log,
    _resolve_dependencies elements 5 "postgresql" office ["staff"] = Some (R, log)
    /\ forall x, x ∈ map name R <->
         x ∈ map name (filter_tables "postgresql" office)
         /\ exists s, s ∈ ["staff"]
              /\ rtc (dep_edge (build_dependencies "postgresql"
                                  (filter_tables "postgresql" office))) s x.
Proof.
  apply (resolver_returns_exactly_the_required_tables elements elements_is_an_order
           "postgresql" office ["staff"] 5).
  unfold enough_fuel, office, archive; simpl; lia.
Defined.

Lemma resolver_announces_each_added_table_witness :
  exists R log added,
    _resolve_dependencies elements 5 "postgresql" office ["staff"] = Some (R, log)
    /\ log = map auto_selected added
    /\ NoDup added
    /\ forall x, x ∈ added <-> x ∈ map name R /\ x ∉ ["staff"].
Proof.
  apply (resolver_announces_each_added_table elements elements_is_an_order
           "postgresql" office ["staff"] 5).
  - discriminate.
  - unfold enough_fuel, office; simpl; lia.
Defined.

Lemma mongodb_selection_is_not_expanded_witness :
  exists R log,
    _resolve_dependencies elements 6 "mongodb" archive ["posts"; "system.profile"]
    = Some (R, log)
    /\ (forall x, x ∈ map name R <->
          x ∈ ["posts"; "system.profile"] /\ x ∈ map name (filter_tables "mongodb" archive))
    /\ length log <= 1.
Proof.
  apply (mongodb_selection_is_not_expanded elements elements_is_an_order
           archive ["posts"; "system.profile"] 6).
  unfold enough_fuel, office, archive; simpl; lia.
Defined.

End ResolverExtrasWitnesses.

(** ** More on the conversion of binary values *)

Section ConverterExtras.
Import Py ValueConverter ConverterSpec.

Lemma is_ascii_decodes (b : list byte) :
  is_ascii b = true -> decode_ascii b = Ok (map Byte.to_N b).
Proof. intros H. unfold decode_ascii. unfold is_ascii in H. by rewrite H. Qed.

Lemma not_ascii_raises (b : list byte) :
  is_ascii b = false ->
  decode_ascii b = raise UnicodeDecodeError "'ascii' codec can't decode byte".
Proof. intros H. unfold decode_ascii. unfold is_ascii in H. by rewrite H. Qed.

Lemma isprintable_ascii {rt : Runtime} (b : list byte) :
  is_ascii b = true -> isprintable (map Byte.to_N b) = printable_ascii b.
Proof.
  unfold is_ascii, isprintable, printable_ascii.
  induction b as [|x b IH]; [done|]. simpl.
  intros [Hx Hb]%andb_true_iff. rewrite (IH Hb). unfold isprintable_char. by rewrite Hx.
Qed.

Lemma printable_ascii_is_ascii (b : list byte) :
  printable_ascii b = true -> is_ascii b = true.
Proof.
  unfold is_ascii, printable_ascii. induction b as [|x b IH]; [done|]. simpl.
  intros [[_ Hx]%andb_true_iff Hb]%andb_true_iff. rewrite (IH Hb), andb_true_r.
  apply N.ltb_lt. apply N.leb_le in Hx. lia.
Qed.

(** X10.  A value whose length is not 16 and whose bytes are all printable
    ASCII is converted, by both converters, to the text with the same
    characters. *)
Theorem printable_ascii_is_kept_as_text {rt : Runtime} (b : list byte) :
  length b <> 16 ->
  printable_ascii b = true ->
  convert_sqlite_bytes b = Ok (map Byte.to_N b)
  /\ convert_mysql_bytes b = Ok (map Byte.to_N b).
Proof.
  intros Hlen Hpr. assert (Ha := printable_ascii_is_ascii b Hpr).
  unfold convert_sqlite_bytes, convert_mysql_bytes, attempt.
  apply Nat.eqb_neq in Hlen. rewrite Hlen, (is_ascii_decodes b Ha).
  rewrite !bind_Ok, (isprintable_ascii b Ha), Hpr. split; reflexivity.
Qed.

Lemma printable_ascii_is_kept_as_text_witness :
  let rt := cpython utf8_on_ascii (fun _ => false) in
  @convert_sqlite_bytes rt (bytes_of_string "hello") = Ok (of_string "hello")
  /\ @convert_mysql_bytes rt (bytes_of_string "hello") = Ok (of_string "hello").
Proof.
  intros rt.
  apply (@printable_ascii_is_kept_as_text rt (bytes_of_string "hello")).
  - simpl. lia.
  - reflexivity.
Defined.

(** X11.  The two converters part on ASCII text that holds a control
    character (length other than 16): the converter for a SQLite source
    gives the base64 encoding at once, while the converter for a MySQL
    target goes on to the UTF-8 attempt and keeps the text when more than
    four fifths of its characters are printable. *)
Theorem control_characters_part_the_converters {rt : Runtime} (b : list byte) (text : pystr) :
  length b <> 16 ->
  is_ascii b = true ->
  printable_ascii b = false ->
  decode_utf8 b = Ok text ->
  convert_sqlite_bytes b = Ok (b64_text b)
  /\ convert_mysql_bytes b = Ok (if mostly_printable text then text else b64_text b).
Proof.
  intros Hlen Ha Hpr Hutf.
  unfold convert_sqlite_bytes, convert_mysql_bytes, attempt.
  apply Nat.eqb_neq in Hlen. rewrite Hlen, (is_ascii_decodes b Ha), Hutf.
  rewrite !bind_Ok, (isprintable_ascii b Ha), Hpr. split; [reflexivity|].
  simpl. by destruct (mostly_printable text).
Qed.

Lemma control_characters_part_the_converters_witness :
  let rt := cpython utf8_on_ascii (fun _ => false) in
  let line := (bytes_of_string "hello" ++ [x0a])%list in
  @convert_sqlite_bytes rt line = Ok (of_string "aGVsbG8K")
  /\ @convert_mysql_bytes rt line = Ok (of_string "hello" ++ [10%N])%list.
Proof.
  intros rt line.
  apply (@control_characters_part_the_converters rt line (of_string "hello" ++ [10%N])%list).
  - simpl. lia.
  - reflexivity.
  - reflexivity.
  - reflexivity.
Defined.

Lemma accepted_uuid_is_rendered {rt : Runtime} (b : list byte) u :
  length b = 16 -> uuid_from_bytes b = Ok u ->
  convert_sqlite_bytes b = Ok (of_string (uuid_str u))
  /\ convert_mysql_bytes b = Ok (of_string (uuid_str u)).
Proof.
  intros Hlen Hu. unfold convert_sqlite_bytes, convert_mysql_bytes, attempt.
  rewrite Hlen, Hu. change (Nat.eqb 16 16) with true. cbv iota. split; reflexivity.
Qed.

(** X12.  Apart from that case the two converters agree: on every value
    that the [uuid] constructor accepts when it has 16 bytes, and that is
    printable when it is ASCII, they give the same result, or raise the same
    exception. *)
Theorem converters_agree {rt : Runtime} (b : list byte) :
  (length b = 16 -> exists u, uuid_from_bytes b = Ok u) ->
  (is_ascii b = true -> printable_ascii b = true) ->
  convert_sqlite_bytes b = convert_mysql_bytes b.
Proof.
  intros Huuid Hpr.
  destruct (decide (length b = 16)) as [Hlen|Hlen].
  - destruct (Huuid Hlen) as [u Hu].
    destruct (accepted_uuid_is_rendered b u Hlen Hu) as [-> ->]. done.
  - unfold convert_sqlite_bytes, convert_mysql_bytes, attempt.
    apply Nat.eqb_neq in Hlen. rewrite Hlen.
    destruct (is_ascii b) eqn:Ha.
    + rewrite (is_ascii_decodes b Ha), !bind_Ok, (isprintable_ascii b Ha), (Hpr eq_refl).
      reflexivity.
    + rewrite (not_ascii_raises b Ha). simpl.
      destruct (decode_utf8 b) as [d|e]; simpl.
      * by destruct (mostly_printable d).
      * destruct e as [c m]. by destruct c.
Qed.

Lemma converters_agree_witness :
  let rt := cpython utf8_on_ascii (fun _ => false) in
  @convert_sqlite_bytes rt (bytes_of_string "ABCDEFGHIJKLMNOP")
  = @convert_mysql_bytes rt (bytes_of_string "ABCDEFGHIJKLMNOP").
Proof.
  intros rt. apply (@converters_agree rt (bytes_of_string "ABCDEFGHIJKLMNOP")).
  - intros _. eexists. reflexivity.
  - intros _. reflexivity.
Defined.

(** X13.  Under CPython, whose [uuid] constructor only checks the length,
    and with a UTF-8 codec that raises nothing but [UnicodeDecodeError],
    neither converter ever raises: every [bytes] value is given a text. *)
Theorem bytes_conversion_never_raises utf8 printable (b : list byte) :
  (forall b e, utf8 b = Raise e -> exn_cls e = UnicodeDecodeError) ->
  exists v w,
    @convert_sqlite_bytes (cpython utf8 printable) b = Ok v
    /\ @convert_mysql_bytes (cpython utf8 printable) b = Ok w.
Proof.
  intros Hutf.
  destruct (decide (length b = 16)) as [Hlen|Hlen].
  - destruct (cpython_16_bytes_always_uuid utf8 printable b Hlen) as [-> ->]. eauto.
  - unfold convert_sqlite_bytes, convert_mysql_bytes, attempt.
    apply Nat.eqb_neq in Hlen. rewrite Hlen.
    destruct (is_ascii b) eqn:Ha.
    + rewrite (is_ascii_decodes b Ha), !bind_Ok.
      destruct (isprintable _); [eauto|]. simpl.
      destruct (utf8 b) as [d|e] eqn:E; simpl.
      * destruct (mostly_printable d); eauto.
      * rewrite (Hutf b e E). simpl. eauto.
    + rewrite (not_ascii_raises b Ha). simpl.
      destruct (utf8 b) as [d|e] eqn:E; simpl.
      * destruct (mostly_printable d); eauto.
      * rewrite (Hutf b e E). simpl. eauto.
Qed.

Lemma bytes_conversion_never_raises_witness :
  exists v w,
    @convert_sqlite_bytes (cpython utf8_on_ascii (fun _ => false)) [xff; xfe] = Ok v
    /\ @convert_mysql_bytes (cpython utf8_on_ascii (fun _ => false)) [xff; xfe] = Ok w.
Proof.
  apply (bytes_conversion_never_raises utf8_on_ascii (fun _ => false) [xff; xfe]).
  intros b e. unfold utf8_on_ascii, decode_ascii.
  destruct (forallb _ b); [discriminate|]. intros [= <-]. reflexivity.
Defined.

End ConverterExtras.

(** ** More on the schema inspector *)

Section InspectorExtras.
Import Py Schema SchemaInspector InspectorExamples InspectorSpec.

Lemma mapM_Ok_Forall2 {A B} (f : A -> Res B) (l : list A) (r : list B) :
  mapM f l = Ok r -> Forall2 (fun x y => f x = Ok y) l r.
Proof.
  revert r. induction l as [|x l IH]; intros r H; simpl in H.
  - inversion H. constructor.
  - apply bind_Ok_inv in H as (y & Hy & H). apply bind_Ok_inv in H as (ys & Hys & H).
    inversion H; subst r. constructor; [done | by apply IH].
Qed.

Lemma mapM_Ok_elem {A B} (f : A -> Res B) (l : list A) (r : list B) y :
  mapM f l = Ok r -> y ∈ r -> exists x, x ∈ l /\ f x = Ok y.
Proof.
  intros H%mapM_Ok_Forall2 Hy. induction H as [|x y' l r Hxy H IH].
  - by apply elem_of_nil in Hy.
  - apply elem_of_cons in Hy as [->|Hy].
    + exists x. split; [by left | done].
    + destruct (IH Hy) as (x' & Hx' & Hf). exists x'. split; [by right | done].
Qed.

Lemma finally_Ok_inv {A} (body : Res A) cleanup r :
  finally body cleanup = Ok r -> body = Ok r.
Proof. destruct body, cleanup; simpl; congruence. Qed.

Lemma append_fk_first_columns n fk l t :
  t ∈ append_fk_first n fk l ->
  exists t', t' ∈ l /\ name t = name t' /\ type t = type t' /\ columns t = columns t'
             /\ primary_keys t = primary_keys t' /\ row_count t = row_count t'.
Proof.
  induction l as [|c l IH]; simpl; [by intros ?%elem_of_nil|].
  destruct (name c =? n).
  - intros [->|Ht]%elem_of_cons.
    + exists c. split; [by left | done].
    + exists t. split; [by right | done].
  - intros [->|Ht]%elem_of_cons.
    + exists c. split; [by left | done].
    + destruct (IH Ht) as (t' & Ht' & H). exists t'. split; [by right | done].
Qed.

Lemma add_relationships_columns rels l t :
  t ∈ add_relationships rels l ->
  exists t', t' ∈ l /\ name t = name t' /\ type t = type t' /\ columns t = columns t'
             /\ primary_keys t = primary_keys t' /\ row_count t = row_count t'.
Proof.
  unfold add_relationships. revert l.
  induction rels as [|doc rels IH]; intros l Ht; simpl in Ht.
  - exists t. done.
  - apply IH in Ht as (t1 & Ht1 & E1 & E2 & E3 & E4 & E5).
    destruct (from_collection doc) as [from_coll|]; [|exists t1; done].
    unfold append_fk in Ht1. apply list_elem_of_In, in_rev, list_elem_of_In in Ht1.
    apply append_fk_first_columns in Ht1 as (t2 & Ht2 & F1 & F2 & F3 & F4 & F5).
    apply list_elem_of_In, in_rev, list_elem_of_In in Ht2.
    exists t2. split; [done|]. split_and!; congruence.
Qed.

Ltac inspected_literal :=
  split_and!; [reflexivity | reflexivity | eexists _, _; split; reflexivity].

Lemma inspect_postgresql_columns srv db d ts t col :
  _inspect_postgresql srv db = Ok d -> tables d = Some ts -> t ∈ ts -> col ∈ columns t ->
  inspected_column col.
Proof.
  unfold _inspect_postgresql. destruct (pg_connect srv); [|discriminate].
  intros H%finally_Ok_inv Hts Ht Hcol.
  apply bind_Ok_inv in H as (rows & _ & H). apply bind_Ok_inv in H as (ts' & Hmap & H).
  inversion H; subst d. simpl in Hts. inversion Hts; subst ts'.
  destruct (mapM_Ok_elem _ _ _ t Hmap Ht) as (row & _ & Hrow). cbv beta in Hrow.
  apply bind_Ok_inv in Hrow as (cols & _ & Hrow). apply bind_Ok_inv in Hrow as (pks & _ & Hrow).
  apply bind_Ok_inv in Hrow as (fks & _ & Hrow). apply bind_Ok_inv in Hrow as (n & _ & Hrow).
  inversion Hrow; subst t. simpl in Hcol.
  apply list_elem_of_fmap in Hcol as (c & -> & _). inspected_literal.
Qed.

Lemma inspect_mysql_columns srv db d ts t col :
  _inspect_mysql srv db = Ok d -> tables d = Some ts -> t ∈ ts -> col ∈ columns t ->
  inspected_column col.
Proof.
  unfold _inspect_mysql. destruct (my_connect srv); [|discriminate].
  intros H%finally_Ok_inv Hts Ht Hcol.
  apply bind_Ok_inv in H as (rows & _ & H). apply bind_Ok_inv in H as (ts' & Hmap & H).
  inversion H; subst d. simpl in Hts. inversion Hts; subst ts'.
  destruct (mapM_Ok_elem _ _ _ t Hmap Ht) as (row & _ & Hrow). cbv beta in Hrow.
  apply bind_Ok_inv in Hrow as (cols & _ & Hrow).
  apply bind_Ok_inv in Hrow as (fks & _ & Hrow). apply bind_Ok_inv in Hrow as (n & _ & Hrow).
  inversion Hrow; subst t. simpl in Hcol.
  apply list_elem_of_fmap in Hcol as (c & -> & _). inspected_literal.
Qed.

Lemma inspect_sqlite_columns file db d ts t col :
  _inspect_sqlite file db = Ok d -> tables d = Some ts -> t ∈ ts -> col ∈ columns t ->
  inspected_column col.
Proof.
  unfold _inspect_sqlite. destruct (sq_connect file); [|discriminate].
  intros H%finally_Ok_inv Hts Ht Hcol.
  apply bind_Ok_inv in H as (rows & _ & H). apply bind_Ok_inv in H as (ts' & Hmap & H).
  inversion H; subst d. simpl in Hts. inversion Hts; subst ts'.
  destruct (mapM_Ok_elem _ _ _ t Hmap Ht) as (row & _ & Hrow). cbv beta in Hrow.
  apply bind_Ok_inv in Hrow as (cols & _ & Hrow).
  apply bind_Ok_inv in Hrow as (fks & _ & Hrow). apply bind_Ok_inv in Hrow as (n & _ & Hrow).
  inversion Hrow; subst t. simpl in Hcol.
  apply list_elem_of_fmap in Hcol as (c & -> & _). inspected_literal.
Qed.

Lemma infer_fields_columns samples col :
  col ∈ infer_fields samples -> inspected_column col.
Proof.
  unfold infer_fields. destruct samples as [|doc samples]; [by intros ?%elem_of_nil|].
  intros (f & -> & _)%list_elem_of_fmap. inspected_literal.
Qed.

(** The collections of a successful inspection of MongoDB, before the
    foreign keys of [_dblens_relationships] are attached. *)
Lemma inspect_mongodb_collections srv db d :
  _inspect_mongodb srv db = Ok d ->
  exists names colls,
    mg_list_collection_names srv = Ok names
    /\ Forall2 (fun coll_name t => exists doc_count samples,
          mg_count_documents srv coll_name = Ok doc_count
          /\ mg_find_limit srv coll_name
               (if (0 <? doc_count)%Z then Z.min 100 doc_count else 0%Z) = Ok samples
          /\ t = mk_table coll_name "collection"
                 (if negb (has_id_field (infer_fields samples))
                  then field_dict "_id" "string" false :: infer_fields samples
                  else infer_fields samples)
                 ["_id"] [] doc_count) names colls
    /\ d = mk_schema_dict (Some true) (Some db) (Some "mongodb")
             (Some match mg_relationships srv with
                   | Ok (Some rel_docs) => add_relationships rel_docs colls
                   | Ok None => colls
                   | Raise _ => colls
                   end) None.
Proof.
  unfold _inspect_mongodb. destruct (mg_client srv); [|discriminate].
  intros H%finally_Ok_inv.
  apply bind_Ok_inv in H as (names & Hnames & H). apply bind_Ok_inv in H as (colls & Hmap & H).
  exists names, colls. split; [done|]. split; [|by inversion H].
  apply mapM_Ok_Forall2 in Hmap. eapply Forall2_impl; [exact Hmap|].
  intros coll_name t Ht. cbv beta in Ht.
  apply bind_Ok_inv in Ht as (doc_count & Hc & Ht). apply bind_Ok_inv in Ht as (samples & Hs & Ht).
  exists doc_count, samples. split_and!; [done..|]. by inversion Ht.
Qed.

Lemma inspect_mongodb_table srv db d ts t :
  _inspect_mongodb srv db = Ok d -> tables d = Some ts -> t ∈ ts ->
  exists samples,
    columns t = (if negb (has_id_field (infer_fields samples))
                 then field_dict "_id" "string" false :: infer_fields samples
                 else infer_fields samples)
    /\ primary_keys t = ["_id"] /\ type t = "collection".
Proof.
  intros (names & colls & _ & Hall & ->)%inspect_mongodb_collections Hts Ht.
  simpl in Hts. inversion Hts; subst ts. clear Hts.
  assert (Hbase : exists t', t' ∈ colls /\ name t = name t' /\ type t = type t'
                    /\ columns t = columns t' /\ primary_keys t = primary_keys t'
                    /\ row_count t = row_count t').
  { destruct (mg_relationships srv) as [[rels|]|e].
    - by apply add_relationships_columns in Ht.
    - exists t. done.
    - exists t. done. }
  destruct Hbase as (t' & Ht' & _ & E2 & E3 & E4 & _).
  apply list_elem_of_lookup in Ht' as [i Hi].
  destruct (Forall2_lookup_r _ _ _ _ _ Hall Hi) as (coll_name & _ & doc_count & samples & _ & _ & ->).
  exists samples. rewrite E2, E3, E4. done.
Qed.

Lemma inspect_mongodb_columns srv db d ts t col :
  _inspect_mongodb srv db = Ok d -> tables d = Some ts -> t ∈ ts -> col ∈ columns t ->
  inspected_column col.
Proof.
  intros H Hts Ht Hcol.
  destruct (inspect_mongodb_table srv db d ts t H Hts Ht) as (samples & Hc & _).
  rewrite Hc in Hcol. destruct (negb (has_id_field (infer_fields samples))).
  - apply elem_of_cons in Hcol as [->|Hcol]; [inspected_literal | by eapply infer_fields_columns].
  - by eapply infer_fields_columns.
Qed.

(** X14.  What [get_schema] hands to the type mapper: the mapper finds
    the name and the type of every column that the inspection describes,
    but never its nullability, which the inspector files under [nullable]
    and the mapper looks up under [is_nullable]; no inspected column is
    declared [NOT NULL]. *)
Theorem inspected_columns_are_never_not_null
    (net : Network) (db_type : string) (c : Connection) d ts t col :
  get_schema net db_type c = Ok d -> tables d = Some ts -> t ∈ ts -> col ∈ columns t ->
  DataTypeMapper.not_nullable col = false
  /\ exists n ty,
       col !! "name" = Some (PStr n) /\ col !! "type" = Some (PStr ty)
       /\ DataTypeMapper.column_name col = PStr n
       /\ DataTypeMapper.get_column_data_type col = ty.
Proof.
  intros H Hts Ht Hcol.
  assert (Hi : inspected_column col).
  { unfold get_schema in H.
    match type of H with try_except ?m _ = _ => destruct m as [d'|e] eqn:Hm end;
      simpl in H; inversion H; subst d; [|discriminate].
    destruct (db_type =? "postgresql"); [by eapply inspect_postgresql_columns|].
    destruct (db_type =? "mysql"); [by eapply inspect_mysql_columns|].
    destruct (db_type =? "mongodb"); [by eapply inspect_mongodb_columns|].
    destruct (db_type =? "sqlite"); [by eapply inspect_sqlite_columns|].
    inversion Hm; subst d'. discriminate. }
  destruct Hi as (Hnull & Hdt & n & ty & Hn & Hty).
  split.
  - unfold DataTypeMapper.not_nullable, DataTypeMapper.dict_get. by rewrite Hnull.
  - exists n, ty. split_and!; [done | done | |].
    + unfold DataTypeMapper.column_name, DataTypeMapper.dict_get. by rewrite Hn.
    + unfold DataTypeMapper.get_column_data_type. by rewrite Hdt, Hty.
Qed.

Lemma inspected_columns_are_never_not_null_witness :
  let col : gmap string PyVal :=
    list_to_map [ ("name", PStr "id"); ("type", PStr "integer"); ("length", PNone);
                  ("nullable", PBool false); ("default", PNone) ] in
  DataTypeMapper.not_nullable col = false
  /\ exists n ty,
       col !! "name" = Some (PStr n) /\ col !! "type" = Some (PStr ty)
       /\ DataTypeMapper.column_name col = PStr n
       /\ DataTypeMapper.get_column_data_type col = ty.
Proof.
  intros col.
  apply (inspected_columns_are_never_not_null (events_network (Ok tt)) "postgresql"
           lab_connection
           (mk_schema_dict (Some true) (Some "app") (Some "postgresql")
              (Some [mk_table "events" "BASE TABLE" [col] ["id"] [] 12;
                     mk_table "users" "BASE TABLE" [col] ["id"] [] 3]) None)
           [mk_table "events" "BASE TABLE" [col] ["id"] [] 12;
            mk_table "users" "BASE TABLE" [col] ["id"] [] 3]
           (mk_table "events" "BASE TABLE" [col] ["id"] [] 12) col).
  - reflexivity.
  - reflexivity.
  - by left.
  - by left.
Defined.

(** X15.  Every collection that a successful inspection of MongoDB
    describes has [_id] as its primary key and a column named [_id], also
    when the collection is empty or no sampled document carries the field. *)
Theorem mongodb_collections_have_an_id_column srv db d ts t :
  _inspect_mongodb srv db = Ok d -> tables d = Some ts -> t ∈ ts ->
  primary_keys t = ["_id"] /\ type t = "collection" /\ has_id_field (columns t) = true.
Proof.
  intros H Hts Ht.
  destruct (inspect_mongodb_table srv db d ts t H Hts Ht) as (samples & -> & -> & ->).
  split_and!; [done..|].
  destruct (has_id_field (infer_fields samples)) eqn:E; simpl; [done|].
  reflexivity.
Qed.

Lemma mongodb_collections_have_an_id_column_witness :
  exists d ts t,
    _inspect_mongodb (blog_mongo (Ok None)) "blog" = Ok d /\ tables d = Some ts /\ t ∈ ts
    /\ name t = "drafts"
    /\ primary_keys t = ["_id"] /\ type t = "collection" /\ has_id_field (columns t) = true.
Proof.
  eexists _, _, (mk_table "drafts" "collection" [field_dict "_id" "string" false] ["_id"] [] 1).
  assert (H1 : _inspect_mongodb (blog_mongo (Ok None)) "blog"
               = Ok (mk_schema_dict (Some true) (Some "blog") (Some "mongodb")
                       (Some [mk_table "posts" "collection"
                                (field_dict "_id" "string" false
                                 :: infer_fields [[("title", BStr "Hello"); ("views", BInt 3);
                                                   ("author_id", BOther)]])
                                ["_id"] [] 1;
                              mk_table "drafts" "collection"
                                [field_dict "_id" "string" false] ["_id"] [] 1]) None))
    by reflexivity.
  split; [exact H1|]. split; [reflexivity|].
  assert (H3 : mk_table "drafts" "collection" [field_dict "_id" "string" false] ["_id"] [] 1
               ∈ [mk_table "posts" "collection"
                    (field_dict "_id" "string" false
                     :: infer_fields [[("title", BStr "Hello"); ("views", BInt 3);
                                       ("author_id", BOther)]])
                    ["_id"] [] 1;
                  mk_table "drafts" "collection"
                    [field_dict "_id" "string" false] ["_id"] [] 1])
    by (right; left).
  split; [exact H3|]. split; [reflexivity|].
  exact (mongodb_collections_have_an_id_column _ _ _ _ _ H1 eq_refl H3).
Defined.

(** X16.  Reading [_dblens_relationships] is best effort: when it raises,
    the inspection gives the result it would give for a database without
    that collection. *)
Theorem relationship_lookup_is_best_effort srv db e :
  mg_relationships srv = Raise e ->
  _inspect_mongodb srv db = _inspect_mongodb (without_relationships srv) db.
Proof.
  intros H. unfold _inspect_mongodb, without_relationships. simpl. by rewrite H.
Qed.

Lemma relationship_lookup_is_best_effort_witness :
  _inspect_mongodb (blog_mongo (raise TypeError "object is not callable")) "blog"
  = _inspect_mongodb (without_relationships
                        (blog_mongo (raise TypeError "object is not callable"))) "blog".
Proof.
  apply (relationship_lookup_is_best_effort _ "blog" (mk_exn TypeError "object is not callable")).
  reflexivity.
Defined.

(** X17.  The connection is closed in a [finally] clause with no handler
    of its own: when closing raises, [get_schema] reports a failed
    inspection with the message of that exception, whatever the catalogue
    queries returned. *)
Theorem close_failure_fails_inspection (net : Network) (c : Connection) (e : exn) :
  pg_connect (postgres_at net c) = Ok tt ->
  pg_close (postgres_at net c) = Raise e ->
  get_schema net "postgresql" c
  = Ok (mk_schema_dict (Some false) None None None
          (Some ("Schema inspection failed: " +:+ exn_msg e))).
Proof.
  intros Hconn Hclose. unfold get_schema.
  change (("postgresql" =? "postgresql")%string) with true. cbv iota.
  unfold _inspect_postgresql. rewrite Hconn, Hclose.
  match goal with |- context [finally ?b _] => destruct b end; reflexivity.
Qed.

Lemma close_failure_fails_inspection_witness :
  get_schema (events_network (raise Exception "connection is closed")) "postgresql" lab_connection
  = Ok (mk_schema_dict (Some false) None None None
          (Some "Schema inspection failed: connection is closed")).
Proof.
  apply (close_failure_fails_inspection (events_network (raise Exception "connection is closed"))
           lab_connection (mk_exn Exception "connection is closed")); reflexivity.
Defined.

(** X18.  A successful inspection of PostgreSQL describes the tables of
    the catalogue one for one and in the catalogue's order, each with the
    type the catalogue gives and the row count the server reported. *)
Theorem postgresql_inspection_follows_the_catalogue srv db d :
  _inspect_postgresql srv db = Ok d ->
  exists rows ts,
    pg_fetch_tables srv = Ok rows /\ tables d = Some ts
    /\ map name ts = map fst rows /\ map type ts = map snd rows
    /\ Forall (fun t => pg_fetchval_count srv (name t) = Ok (row_count t)
                         /\ pg_fetch_primary_keys srv (name t) = Ok (primary_keys t)) ts
    /\ database_name d = Some db /\ database_type d = Some "postgresql".
Proof.
  unfold _inspect_postgresql. destruct (pg_connect srv); [|discriminate].
  intros H%finally_Ok_inv.
  apply bind_Ok_inv in H as (rows & Hrows & H). apply bind_Ok_inv in H as (ts & Hmap & H).
  inversion H; subst d. simpl. exists rows, ts.
  assert (Hall : Forall2 (fun row t =>
            name t = fst row /\ type t = snd row
            /\ pg_fetchval_count srv (name t) = Ok (row_count t)
            /\ pg_fetch_primary_keys srv (name t) = Ok (primary_keys t)) rows ts).
  { apply mapM_Ok_Forall2 in Hmap. eapply Forall2_impl; [exact Hmap|].
    intros row t Hrow. cbv beta in Hrow.
    apply bind_Ok_inv in Hrow as (? & _ & Hrow). apply bind_Ok_inv in Hrow as (pks & Hpk & Hrow).
    apply bind_Ok_inv in Hrow as (? & _ & Hrow). apply bind_Ok_inv in Hrow as (n & Hn & Hrow).
    inversion Hrow; subst t. simpl. done. }
  split_and!; try done.
  - clear Hrows Hmap H. induction Hall as [|row t rows ts (E & _) _ IH]; [done|].
    simpl. by rewrite IH, E.
  - clear Hrows Hmap H. induction Hall as [|row t rows ts (_ & E & _) _ IH]; [done|].
    simpl. by rewrite IH, E.
  - clear Hrows Hmap H. induction Hall as [|row t rows ts (_ & _ & Hc) _ IH]; [done|].
    by constructor.
Qed.

Lemma postgresql_inspection_follows_the_catalogue_witness :
  exists d rows ts,
    _inspect_postgresql (events_postgres (Ok tt)) "app" = Ok d
    /\ pg_fetch_tables (events_postgres (Ok tt)) = Ok rows /\ tables d = Some ts
    /\ map name ts = map fst rows /\ map type ts = map snd rows
    /\ Forall (fun t => pg_fetchval_count (events_postgres (Ok tt)) (name t) = Ok (row_count t)
                         /\ pg_fetch_primary_keys (events_postgres (Ok tt)) (name t)
                            = Ok (primary_keys t)) ts
    /\ database_name d = Some "app" /\ database_type d = Some "postgresql".
Proof.
  eexists.
  assert (H : _inspect_postgresql (events_postgres (Ok tt)) "app" = Ok _) by reflexivity.
  destruct (postgresql_inspection_follows_the_catalogue _ _ _ H) as (rows & ts & Hx).
  exists rows, ts. split; [exact H | exact Hx].
Defined.
End InspectorExtras.

Section SortedFields.
Import Py Schema SchemaInspector.

Local Abbreviation lt := (fun a b : string => String.ltb a b = true).





End SortedFields.

(** ** More on the migration engine and the job *)

Section EngineExtras.
Import Py Schema SchemaInspector MigrationJob EngineSpec.

Lemma M_bind_inv {A B} (m : M A) (k : A -> M B) w b w' :
  (m ≫= k) w = (Ok b, w') -> exists a w1, m w = (Ok a, w1) /\ k a w1 = (Ok b, w').
Proof.
  unfold mbind, M_bind. destruct (m w) as [[a|e] w1]; [eauto | discriminate].
Qed.

Lemma M_bind_Ok {A B} (m : M A) (k : A -> M B) w a w1 :
  m w = (Ok a, w1) -> (m ≫= k) w = k a w1.
Proof. intros H. unfold mbind, M_bind. by rewrite H. Qed.

Lemma M_bind_Raise {A B} (m : M A) (k : A -> M B) w e w1 :
  m w = (Raise e, w1) -> (m ≫= k) w = (Raise e, w1).
Proof. intros H. unfold mbind, M_bind. by rewrite H. Qed.

Lemma catch_Ok {A} (m : M A) h w a w1 : m w = (Ok a, w1) -> catch m h w = (Ok a, w1).
Proof. intros H. unfold catch. by rewrite H. Qed.

Lemma catch_Raise {A} (m : M A) h w e w1 : m w = (Raise e, w1) -> catch m h w = h e w1.
Proof. intros H. unfold catch. by rewrite H. Qed.

Lemma M_ret_inv {A} (a b : A) w w' : (mret a : M A) w = (Ok b, w') -> a = b /\ w = w'.
Proof. unfold mret, M_ret. by intros [= -> ->]. Qed.

Variable env : Env.

(** What the statements of the engine other than [_migrate_schema] and
    [_rollback_tables] leave alone. *)
Lemma log_target msg w :
  exists w', log msg w = (Ok tt, w') /\ target_tables w' = target_tables w
    /\ CANCEL_REQUESTS w' = CANCEL_REQUESTS w /\ migration w' = migration w.
Proof. eexists. split_and!; reflexivity. Qed.

(** The effect of the loop of [_rollback_tables] when every drop is
    carried out. *)
Lemma rollback_loop (l : list string) :
  (forall t, t ∈ l -> execute_drop env t = Ok tt) ->
  forall w, exists w',
    for_each_M (fun table_name =>
        lift (execute_drop env table_name) ;;
        drop_in_target table_name ;;
        log ("  ✓ Dropped table: " +:+ table_name)) l w = (Ok tt, w')
    /\ (forall t, t ∈ target_tables w' <-> t ∈ target_tables w /\ t ∉ l)
    /\ CANCEL_REQUESTS w' = CANCEL_REQUESTS w /\ migration w' = migration w.
Proof.
  induction l as [|x l IH]; intros Hdrop w.
  - exists w. split; [reflexivity|]. split; [|done]. intros t. rewrite elem_of_nil. tauto.
  - simpl.
    assert (Hx : execute_drop env x = Ok tt) by (apply Hdrop; by left).
    unfold mbind at 1, M_bind at 1. unfold mbind at 1, M_bind at 1.
    unfold lift at 1. rewrite Hx.
    unfold mbind at 1, M_bind at 1. unfold drop_in_target at 1. unfold log at 1.
    match goal with |- context [for_each_M ?f l ?w0] =>
      destruct (IH ltac:(intros t Ht; apply Hdrop; by right) w0) as (w' & Hrun & Hw' & HC & HG)
    end.
    exists w'. split; [exact Hrun|]. split; [|done].
    intros t. rewrite Hw'. simpl.
    rewrite list_elem_of_In, List.filter_In, <- list_elem_of_In, negb_true_iff, String.eqb_neq.
    rewrite elem_of_cons. tauto.
Qed.

Lemma rollback_tables_drops (names : list string) w :
  supported (target_db_type env) = true ->
  (forall t, execute_drop env t = Ok tt) ->
  exists w', _rollback_tables env names w = (Ok tt, w')
    /\ (forall t, t ∈ target_tables w' <-> t ∈ target_tables w /\ t ∉ names)
    /\ CANCEL_REQUESTS w' = CANCEL_REQUESTS w /\ migration w' = migration w.
Proof.
  intros Hsupp Hdrop. unfold _rollback_tables. rewrite Hsupp.
  destruct (rollback_loop (rev names) ltac:(intros t _; apply Hdrop) w)
    as (w' & Hrun & Hw' & HC & HG).
  exists w'. split; [exact Hrun|]. split; [|done]. intros t. rewrite Hw'.
  assert (Hrev : t ∈ rev names <-> t ∈ names)
    by (rewrite !list_elem_of_In; symmetry; apply in_rev).
  by rewrite Hrev.
Qed.

Lemma catch_total {A} (m : M A) (h : exn -> M A) :
  (forall e w, exists a w', h e w = (Ok a, w')) ->
  forall w, exists a w', catch m h w = (Ok a, w').
Proof.
  intros Hh w. unfold catch. destruct (m w) as [[a|e] w1]; [eauto | apply Hh].
Qed.

(** The handler of [migrate] returns a failure whatever the rollback does. *)
Lemma migrate_failed_returns sel ttm e w :
  exists w', migrate_failed env sel ttm e w
    = (Ok (mk_result false None None None (Some (exn_msg e)) (migration_log w')), w').
Proof.
  unfold migrate_failed.
  destruct (log_target ("❌ Migration failed: " +:+ exn_msg e) w) as (w1 & H1 & _).
  rewrite (M_bind_Ok _ _ _ _ _ H1).
  match goal with |- context [catch ?m ?h] =>
    destruct (catch_total m h ltac:(intros e0 w0; eexists _, _; reflexivity) w1)
      as ([] & w2 & H2)
  end.
  rewrite (M_bind_Ok _ _ _ _ _ H2). eexists. reflexivity.
Qed.

Lemma migrate_failed_drops sel ttm e w :
  supported (target_db_type env) = true ->
  (forall t, execute_drop env t = Ok tt) ->
  exists w',
    migrate_failed env sel ttm e w
    = (Ok (mk_result false None None None (Some (exn_msg e)) (migration_log w')), w')
    /\ CANCEL_REQUESTS w' = CANCEL_REQUESTS w /\ migration w' = migration w
    /\ forall t, t ∈ target_tables w' <->
         t ∈ target_tables w /\ t ∉ match ttm with [] => sel | _ => map name ttm end.
Proof.
  intros Hsupp Hdrop. unfold migrate_failed.
  set (names := match ttm with [] => sel | _ => map name ttm end).
  destruct (log_target ("❌ Migration failed: " +:+ exn_msg e) w) as (w1 & H1 & T1 & C1 & G1).
  rewrite (M_bind_Ok _ _ _ _ _ H1).
  destruct (log_target "🔄 Attempting rollback..." w1) as (w2 & H2 & T2 & C2 & G2).
  destruct (rollback_tables_drops names w2 Hsupp Hdrop) as (w3 & H3 & T3 & C3 & G3).
  destruct (log_target "✓ Rollback completed" w3) as (w4 & H4 & T4 & C4 & G4).
  erewrite M_bind_Ok; cycle 1.
  { apply catch_Ok. rewrite (M_bind_Ok _ _ _ _ _ H2), (M_bind_Ok _ _ _ _ _ H3). exact H4. }
  exists w4. split; [reflexivity|]. split_and!; [congruence | congruence |].
  intros t. rewrite T4, T3, T2, T1. tauto.
Qed.


Lemma catch_inv {A} (m : M A) h w a w' :
  catch m h w = (Ok a, w') ->
  m w = (Ok a, w') \/ exists e w1, m w = (Raise e, w1) /\ h e w1 = (Ok a, w').
Proof. unfold catch. destruct (m w) as [[a0|e] w1]; [by left | right; eauto]. Qed.

Ltac step H := apply M_bind_inv in H as (? & ? & _ & H).

Lemma migrate_table_data_rows table w rows w' :
  _migrate_table_data env table w = (Ok rows, w') ->
  fetch_source_data env (name table) = Ok rows.
Proof.
  unfold _migrate_table_data. intros H. step H. step H.
  apply M_bind_inv in H as (n & w1 & Hn & H).
  unfold lift in Hn. injection Hn as Hn _. rewrite Hn.
  destruct (n =? 0)%Z eqn:E.
  - step H. apply M_ret_inv in H as [<- _]. apply Z.eqb_eq in E. by rewrite E.
  - step H. step H. step H. by apply M_ret_inv in H as [<- _].
Qed.

Lemma migrate_data_rows cb total tables : forall idx acc w n w',
  migrate_data env cb total idx tables acc w = (Ok n, w') ->
  exists rows,
    Forall2 (fun t r => fetch_source_data env (name t) = Ok r) tables rows
    /\ n = (acc + sum_rows rows)%Z.
Proof.
  induction tables as [|table rest IH]; intros idx acc w n w' H; simpl in H.
  - apply M_ret_inv in H as [<- _]. exists []. split; [constructor | simpl; lia].
  - step H. apply M_bind_inv in H as (r & w1 & Hr & H). step H.
    apply migrate_table_data_rows in Hr.
    apply IH in H as (rows & Hall & ->).
    exists (r :: rows). split; [by constructor | simpl; lia].
Qed.

Lemma resolve_inv all_tables sel w ttm w' :
  resolve env all_tables sel w = (Ok ttm, w') ->
  exists lines,
    Resolver._resolve_dependencies (set_iter env) (Resolver.enough_fuel all_tables sel)
      (source_db_type env) all_tables sel = Some (ttm, lines).
Proof.
  unfold resolve. destruct (Resolver._resolve_dependencies _ _ _ _ _) as [[o lines]|].
  - intros [= <- _]. eauto.
  - discriminate.
Qed.

(** What a successful run of the native path returns. *)
Lemma native_migrate_inv sel drop cb w r w' :
  _native_migrate env sel drop cb w = (Ok r, w') ->
  result_success r = true /\ result_error r = None /\ result_log r = migration_log w'
  /\ exists n rows, result_total_tables r = Some n /\ result_total_rows r = Some rows.
Proof.
  unfold _native_migrate. intros H.
  apply catch_inv in H as [H|(e & w1 & _ & H)].
  - destruct (supported (source_db_type env)); [|discriminate].
    do 2 step H. apply M_bind_inv in H as (all_tables & ? & _ & H).
    do 4 step H. apply M_bind_inv in H as (rows & ? & _ & H). step H.
    apply M_bind_inv in H as (w2 & ? & Hw & H).
    unfold get_world in Hw. injection Hw as <- <-.
    apply M_ret_inv in H as [<- <-]. simpl. split_and!; eauto.
  - step H. discriminate.
Qed.

Lemma schema_or_raise_inv w all_tables w' :
  schema_or_raise env w = (Ok all_tables, w') ->
  exists d, get_schema (network env) (source_db_type env) (source_connection env) = Ok d
    /\ success d = Some true /\ all_tables = default [] (tables d).
Proof.
  unfold schema_or_raise. intros H. apply M_bind_inv in H as (d & w1 & Hd & H).
  unfold _get_source_schema, lift in Hd. injection Hd as Hd _.
  exists d. split; [done|].
  destruct (success d) as [[]|]; try discriminate.
  by apply M_ret_inv in H as [<- _].
Qed.

(** The three ways in which [migrate] returns. *)
Lemma migrate_inv sel drop cb w r w' :
  migrate env sel drop cb w = (Ok r, w') ->
  (source_db_type env = target_db_type env
   /\ result_success r = true /\ result_error r = None /\ result_log r = migration_log w'
   /\ exists n rows, result_total_tables r = Some n /\ result_total_rows r = Some rows)
  \/ (exists d ttm lines rows,
        get_schema (network env) (source_db_type env) (source_connection env) = Ok d
        /\ success d = Some true
        /\ Resolver._resolve_dependencies (set_iter env)
             (Resolver.enough_fuel (default [] (tables d)) sel)
             (source_db_type env) (default [] (tables d)) sel = Some (ttm, lines)
        /\ Forall2 (fun t n => fetch_source_data env (name t) = Ok n) ttm rows
        /\ r = mk_result true (Some "Migration completed successfully")
                 (Some (Z.of_nat (length ttm))) (Some (sum_rows rows)) None (migration_log w'))
  \/ (exists e w1 ttm,
        migrate_failed env sel ttm e w1 = (Ok r, w')
        /\ (ttm = []
            \/ exists d lines,
                 get_schema (network env) (source_db_type env) (source_connection env) = Ok d
                 /\ Resolver._resolve_dependencies (set_iter env)
                      (Resolver.enough_fuel (default [] (tables d)) sel)
                      (source_db_type env) (default [] (tables d)) sel = Some (ttm, lines))).
Proof.
  unfold migrate. intros H.
  apply M_bind_inv in H as (first & w1 & Hfirst & H).
  apply catch_inv in Hfirst as [Hfirst|(e & w0 & _ & Hfirst)].
  - do 2 step Hfirst. destruct (source_db_type env =? target_db_type env) eqn:Esame.
    + left. step Hfirst. apply M_bind_inv in Hfirst as (r0 & w2 & Hnat & Hfirst).
      apply M_ret_inv in Hfirst as [<- <-]. apply M_ret_inv in H as [<- <-].
      split; [by apply String.eqb_eq|]. by eapply native_migrate_inv.
    + right. do 2 step Hfirst.
      apply M_bind_inv in Hfirst as (all_tables & ? & Hschema & Hfirst).
      apply schema_or_raise_inv in Hschema as (d & Hd & Hsucc & ->).
      do 2 step Hfirst.
      apply M_bind_inv in Hfirst as (ttm & ? & Hres & Hfirst).
      apply resolve_inv in Hres as (lines & Hres).
      apply M_ret_inv in Hfirst as [<- <-].
      apply catch_inv in H as [H|(e & w2 & _ & H)].
      * left. do 6 step H. apply M_bind_inv in H as (n & ? & Hdata & H).
        apply migrate_data_rows in Hdata as (rows & Hrows & ->).
        do 2 step H. apply M_bind_inv in H as (w3 & ? & Hw & H).
        unfold get_world in Hw. injection Hw as <- <-.
        apply M_ret_inv in H as [<- <-].
        exists d, ttm, lines, rows. split_and!; try done.
      * right. exists e, w2, ttm. split; [done|]. right. eauto.
  - right. right.
    apply M_bind_inv in Hfirst as (r0 & w2 & Hfail & Hfirst).
    apply M_ret_inv in Hfirst as [<- <-]. apply M_ret_inv in H as [<- <-].
    exists e, w0, []. split; [done | by left].
Qed.


(** X20.  Whenever [migrate] returns, what it returns is a failure
    with its error text and no statistics, or a success with statistics
    and no error.  (It need not return: a log line that cannot be
    written to standard output raises from [log], also in the handler.) *)
Theorem migrate_result_shape sel drop cb w r w' :
  migrate env sel drop cb w = (Ok r, w') ->
  (result_success r = true ->
     result_error r = None
     /\ exists n rows, result_total_tables r = Some n /\ result_total_rows r = Some rows)
  /\ (result_success r = false ->
      result_message r = None
      /\ result_total_tables r = None /\ result_total_rows r = None
      /\ exists msg, result_error r = Some msg).
Proof.
  intros H.
  apply migrate_inv in H
    as [(_ & Hs & He & Hl & Hn)|[(d & ttm & lines & rows & _ & _ & _ & _ & ->)
                                |(e & w1 & ttm & Hfail & _)]].
  - rewrite Hs. split; [done | discriminate].
  - simpl. split; [eauto | discriminate].
  - destruct (migrate_failed_returns sel ttm e w1) as (w2 & H2).
    rewrite H2 in Hfail. injection Hfail as <- <-. simpl.
    split; [discriminate | eauto].
Qed.


(** X22.  The statistics of a successful migration between two engines:
    the tables counted are the tables that the resolver returned for the
    inspected schema, and the rows counted are the rows fetched from the
    source, table by table. *)
Theorem successful_migration_statistics sel drop cb w r w' :
  source_db_type env <> target_db_type env ->
  migrate env sel drop cb w = (Ok r, w') ->
  result_success r = true ->
  exists d resolved lines rows,
    get_schema (network env) (source_db_type env) (source_connection env) = Ok d
    /\ success d = Some true
    /\ Resolver._resolve_dependencies (set_iter env)
         (Resolver.enough_fuel (default [] (tables d)) sel)
         (source_db_type env) (default [] (tables d)) sel = Some (resolved, lines)
    /\ Forall2 (fun t n => fetch_source_data env (name t) = Ok n) resolved rows
    /\ result_total_tables r = Some (Z.of_nat (length resolved))
    /\ result_total_rows r = Some (sum_rows rows).
Proof.
  intros Hne H Hs.
  apply migrate_inv in H
    as [(Hsame & _)|[(d & ttm & lines & rows & Hd & Hsucc & Hres & Hrows & ->)
                    |(e & w1 & ttm & Hfail & _)]].
  - done.
  - exists d, ttm, lines, rows. split_and!; done.
  - destruct (migrate_failed_returns sel ttm e w1) as (w2 & H2).
    rewrite H2 in Hfail. injection Hfail as <- <-. discriminate.
Qed.

Lemma pre_migration_snapshot_returns is_dry_run w :
  exists w', pre_migration_snapshot env is_dry_run w = (Ok tt, w')
    /\ target_tables w' = target_tables w /\ CANCEL_REQUESTS w' = CANCEL_REQUESTS w
    /\ migration_log w' = migration_log w.
Proof.
  unfold pre_migration_snapshot. destruct is_dry_run; [by exists w|].
  unfold catch, mbind, M_bind, lift.
  destruct (create_snapshot env) as [[]|e]; eexists; split_and!; reflexivity.
Qed.


Lemma M_bind_log {B} msg (k : unit -> M B) w :
  (log msg ≫= k) w
  = k tt (mk_world (CANCEL_REQUESTS w) (migration w) (target_tables w)
                   (migration_log w ++ [msg])%list).
Proof. reflexivity. Qed.

Lemma update_progress_continues percentage step w :
  default false (CANCEL_REQUESTS w !! migration_id env) = false ->
  update_progress env percentage step w
  = (Ok tt,
     mk_world (CANCEL_REQUESTS w)
       (append_job_log [step]
          (set_step step (set_progress (10 + percentage * (9 # 10))%Q (migration w))))
       (target_tables w) (migration_log w)).
Proof. intros H. unfold update_progress. by rewrite H. Qed.

(** The engine, run by the job, on a source whose schema cannot be read. *)
Lemma migrate_unreadable_source sel drop w d :
  default false (CANCEL_REQUESTS w !! migration_id env) = false ->
  source_db_type env <> target_db_type env ->
  supported (target_db_type env) = true ->
  (forall t, execute_drop env t = Ok tt) ->
  get_schema (network env) (source_db_type env) (source_connection env) = Ok d ->
  success d <> Some true ->
  exists w',
    migrate env sel drop (Some (update_progress env)) w
    = (Ok (mk_result false None None None
             (Some ("Failed to get schema: " +:+ default "None" (error d)))
             (migration_log w')), w')
    /\ forall t, t ∈ target_tables w' <-> t ∈ target_tables w /\ t ∉ sel.
Proof.
  intros Hflag Hne Hsupp Hdrop Hd Hsucc. apply String.eqb_neq in Hne.
  unfold migrate.
  set (e := mk_exn Exception ("Failed to get schema: " +:+ default "None" (error d))).
  assert (Hbody : exists w1,
    target_tables w1 = target_tables w /\
    forall (k : exn -> M (MigrateResult + list Table)),
      catch
        (log "🚀 Migration started" ;;
         log ("   Source: " +:+ source_db_type env +:+ " → Target: " +:+ target_db_type env) ;;
         if source_db_type env =? target_db_type env then
           log "⚡ Using optimized native migration (same database type)" ;;
           r ← _native_migrate env sel drop (Some (update_progress env));
           mret (inl r)
         else
           log "📋 Step 1/4: Fetching source schema..." ;;
           notify (Some (update_progress env)) 10 "Fetching source schema" ;;
           all_tables ← schema_or_raise env;
           log "🔍 Step 2/4: Analyzing dependencies..." ;;
           notify (Some (update_progress env)) 20 "Analyzing dependencies" ;;
           tables_to_migrate ← resolve env all_tables sel;
           mret (inr tables_to_migrate)) k w = k e w1).
  { eexists. split; cycle 1.
    - intros k. apply catch_Raise.
      rewrite !M_bind_log, Hne, M_bind_log. unfold notify.
      erewrite M_bind_Ok; cycle 1.
      { apply update_progress_continues. exact Hflag. }
      apply M_bind_Raise. unfold schema_or_raise.
      erewrite M_bind_Ok; cycle 1.
      { unfold _get_source_schema, lift. rewrite Hd. reflexivity. }
      destruct (success d) as [[]|]; [done | reflexivity | reflexivity].
    - reflexivity. }
  destruct Hbody as (w1 & T1 & Hbody).
  destruct (migrate_failed_drops sel [] e w1 Hsupp Hdrop) as (w2 & H2 & _ & _ & T2).
  exists w2. split.
  - erewrite M_bind_Ok; cycle 1.
    { rewrite Hbody. rewrite (M_bind_Ok _ _ _ _ _ H2). reflexivity. }
    reflexivity.
  - intros t. rewrite T2, T1. done.
Qed.

(** X24.  A job whose source cannot be inspected fails, and its rollback
    drops from the target every selected table: no table was created by
    the run, so the tables dropped are those that existed before it. *)
Theorem unreadable_source_drops_the_selected_tables sel drop is_dry_run w d :
  default false (CANCEL_REQUESTS w !! migration_id env) = false ->
  source_db_type env <> target_db_type env ->
  supported (target_db_type env) = true ->
  (forall t, execute_drop env t = Ok tt) ->
  get_schema (network env) (source_db_type env) (source_connection env) = Ok d ->
  success d <> Some true ->
  exists w',
    run_migration_job env sel drop is_dry_run w = (Ok tt, w')
    /\ status (migration w') = FAILED
    /\ error_message (migration w')
       = Some ("Failed to get schema: " +:+ default "None" (error d))
    /\ forall t, t ∈ target_tables w' <-> t ∈ target_tables w /\ t ∉ sel.
Proof.
  intros Hflag Hne Hsupp Hdrop Hd Hsucc.
  unfold run_migration_job.
  unfold mbind at 1, M_bind at 1. unfold update_migration at 1.
  unfold mbind at 1, M_bind at 1. unfold get_world at 1. cbv beta iota. cbn [CANCEL_REQUESTS].
  rewrite Hflag. set (w0 := mk_world _ _ _ _).
  destruct (pre_migration_snapshot_returns is_dry_run w0) as (w1 & H1 & T1 & C1 & _).
  rewrite (M_bind_Ok _ _ _ _ _ H1).
  destruct (migrate_unreadable_source sel drop w1 d) as (w2 & H2 & T2); try done.
  { by rewrite C1. }
  erewrite catch_Ok; cycle 1.
  { rewrite (M_bind_Ok _ _ _ _ _ H2). reflexivity. }
  eexists. split; [reflexivity|]. cbn. split_and!; [reflexivity..|].
  intros t. rewrite T2, T1. done.
Qed.
End EngineExtras.

Section EngineWitnesses.
Import Py Schema SchemaInspector MigrationJob EngineSpec.


Lemma successful_migration_statistics_witness :
  exists r w' d resolved lines rows,
    migrate never_cancelled ["payments"] false None initial_world = (Ok r, w')
    /\ get_schema (network never_cancelled) (source_db_type never_cancelled)
         (source_connection never_cancelled) = Ok d
    /\ success d = Some true
    /\ Resolver._resolve_dependencies (set_iter never_cancelled)
         (Resolver.enough_fuel (default [] (tables d)) ["payments"])
         (source_db_type never_cancelled) (default [] (tables d)) ["payments"]
       = Some (resolved, lines)
    /\ Forall2 (fun t n => fetch_source_data never_cancelled (name t) = Ok n) resolved rows
    /\ result_total_tables r = Some (Z.of_nat (length resolved))
    /\ result_total_rows r = Some (sum_rows rows).
Proof.
  eexists _, _.
  assert (H : migrate never_cancelled ["payments"] false None initial_world = (Ok _, _))
    by (vm_compute; reflexivity).
  destruct (successful_migration_statistics never_cancelled ["payments"] false None
              initial_world _ _ ltac:(discriminate) H eq_refl)
    as (d & resolved & lines & rows & Hx).
  exists d, resolved, lines, rows. split; [exact H | exact Hx].
Defined.

Lemma unreadable_source_drops_the_selected_tables_witness :
  exists w',
    run_migration_job unreachable_source ["customers"] false false live_target = (Ok tt, w')
    /\ status (migration w') = FAILED
    /\ error_message (migration w')
       = Some "Failed to get schema: Schema inspection failed: Can't connect to MySQL server"
    /\ forall t, t ∈ target_tables w' <-> t ∈ ["customers"; "audit"] /\ t ∉ ["customers"].
Proof.
  apply (unreadable_source_drops_the_selected_tables unreachable_source ["customers"]
           false false live_target
           (mk_schema_dict (Some false) None None None
              (Some "Schema inspection failed: Can't connect to MySQL server"))).
  - reflexivity.
  - discriminate.
  - reflexivity.
  - intros t. reflexivity.
  - reflexivity.
  - discriminate.
Defined.

Lemma migrate_result_shape_witness :
  exists r w',
    migrate orders_rejected ["orders"] false None live_target = (Ok r, w')
    /\ result_success r = false
    /\ result_message r = None
    /\ result_total_tables r = None /\ result_total_rows r = None
    /\ exists msg, result_error r = Some msg.
Proof.
  eexists _, _.
  assert (H : migrate orders_rejected ["orders"] false None live_target = (Ok _, _))
    by (vm_compute; reflexivity).
  split; [exact H|]. split; [reflexivity|].
  exact (proj2 (migrate_result_shape orders_rejected ["orders"] false None live_target _ _ H)
           eq_refl).
Defined.


End EngineWitnesses.

(** ** The SQLite target and the batches of the insert functions *)

Section SqliteTargetExtras.
Import Py Schema DataTypeMapper EngineSqlite.

Lemma substring_append_r (s t : string) n :
  substring (String.length s) n (s +:+ t) = substring 0 n t.
Proof. induction s as [|a s IH]; [done|]. simpl. exact IH. Qed.

Lemma substring_whole (t : string) : substring 0 (String.length t) t = t.
Proof. induction t as [|a t IH]; [done|]. simpl. by rewrite IH. Qed.

Lemma length_append (s t : string) :
  String.length (s +:+ t) = String.length s + String.length t.
Proof. induction s as [|a s IH]; [done|]. simpl. by rewrite IH. Qed.

Lemma endswith_append (s suffix : string) : endswith (s +:+ suffix) suffix = true.
Proof.
  unfold endswith. rewrite length_append.
  replace (String.length s + String.length suffix - String.length suffix)
    with (String.length s) by lia.
  rewrite substring_append_r, substring_whole, String.eqb_refl, andb_true_r.
  apply Nat.leb_le. lia.
Qed.

Lemma resolve_sqlite_path_inv path_exists config must_exist p :
  _resolve_sqlite_path path_exists config must_exist = Ok p ->
  endswith p ".db" = true /\ (must_exist = true -> path_exists p = true).
Proof.
  unfold _resolve_sqlite_path.
  match goal with |- match ?x with _ => _ end = _ -> _ => destruct x as [q|] end;
    [|discriminate].
  set (p' := if negb (endswith q ".db") then q +:+ ".db" else q).
  assert (Hp' : endswith p' ".db" = true).
  { unfold p'. destruct (endswith q ".db") eqn:E; simpl; [done | apply endswith_append]. }
  destruct must_exist; simpl.
  - destruct (path_exists p') eqn:E; simpl; [|discriminate].
    intros [= <-]. done.
  - intros [= <-]. split; [done | discriminate].
Qed.

Lemma config_get_insert (config : Config) k v : config_get (<[ k := v ]> config) k = v.
Proof. unfold config_get, Config in *. by rewrite lookup_insert_eq. Qed.

(** X25.  Whatever the configuration, a path that [_resolve_sqlite_path]
    returns ends in [.db], names an existing file when one is required,
    and is a fixed point: a configuration whose [database_path] is that
    path resolves to the same path. *)
Theorem resolved_sqlite_path_ends_in_db path_exists config must_exist p :
  _resolve_sqlite_path path_exists config must_exist = Ok p ->
  endswith p ".db" = true
  /\ (must_exist = true -> path_exists p = true)
  /\ _resolve_sqlite_path path_exists (<[ "database_path" := Some p ]> config) must_exist = Ok p.
Proof.
  intros H. destruct (resolve_sqlite_path_inv _ _ _ _ H) as [Hend Hex].
  split; [done|]. split; [done|].
  assert (Hne : (p =? "") = false).
  { destruct p; [discriminate Hend | done]. }
  assert (Hlocal : in_list p ["localhost"; "127.0.0.1"; "0.0.0.0"] = false).
  { unfold in_list. cbn [existsb].
    destruct (p =? "localhost") eqn:E1; [apply String.eqb_eq in E1; by subst p|].
    destruct (p =? "127.0.0.1") eqn:E2; [apply String.eqb_eq in E2; by subst p|].
    destruct (p =? "0.0.0.0") eqn:E3; [apply String.eqb_eq in E3; by subst p|].
    done. }
  unfold _resolve_sqlite_path. rewrite !config_get_insert. unfold falsy.
  rewrite Hne. cbn [negb orb]. rewrite Hlocal. cbv beta iota zeta. rewrite Hne. cbv beta iota zeta. cbn [orb]. cbv beta iota. rewrite Hend. cbn [negb andb].
  destruct must_exist; cbn [andb]; [|done]. by rewrite (Hex eq_refl).
Qed.

Lemma resolved_sqlite_path_ends_in_db_witness :
  let config : Config :=
    {[ "database_path" := None; "host" := Some "localhost"; "database_name" := Some "shop" ]} in
  endswith "shop.db" ".db" = true
  /\ (false = true -> (fun _ : string => false) "shop.db" = true)
  /\ _resolve_sqlite_path (fun _ => false) (<[ "database_path" := Some "shop.db" ]> config) false
     = Ok "shop.db".
Proof.
  intros config.
  apply (resolved_sqlite_path_ends_in_db (fun _ => false) config false "shop.db").
  reflexivity.
Defined.

(** X26.  The statement that the engine writes by itself for a SQLite
    target is the one that the type mapper generates, for every table that
    has at least one column and no complete foreign key, when the source
    is not the document engine; for a table without columns the mapper
    raises, where the engine goes on with a statement of its own. *)
Theorem engine_and_mapper_agree_on_sqlite_tables (source_db_type : string) (table : Table) :
  source_db_type <> "mongodb" ->
  flat_map foreign_key_clause (foreign_keys table) = [] ->
  match columns table with
  | [] =>
      get_create_table_sql (name table) (columns table) (primary_keys table)
        source_db_type "sqlite"
      = raise Exception ("Cannot create table " +:+ name table +:+ ": no columns defined")
  | _ =>
      get_create_table_sql (name table) (columns table) (primary_keys table)
        source_db_type "sqlite"
      = Ok (sqlite_create_sql source_db_type table)
  end.
Proof.
  intros Hsrc Hfk. apply String.eqb_neq in Hsrc.
  unfold get_create_table_sql. change ("sqlite" =? "postgresql") with false.
  change ("sqlite" =? "mysql") with false. change ("sqlite" =? "sqlite") with true.
  cbv iota. unfold get_create_table_sql_sqlite, sqlite_create_sql.
  rewrite Hfk, app_nil_r.
  destruct (columns table) as [|col cols] eqn:E; [reflexivity|].
  unfold sqlite_col_type. rewrite Hsrc. reflexivity.
Qed.

Lemma engine_and_mapper_agree_on_sqlite_tables_witness :
  get_create_table_sql "customers" (columns (MigrationJob.plain_table "customers" []))
    ["id"] "mysql" "sqlite"
  = Ok (sqlite_create_sql "mysql" (MigrationJob.plain_table "customers" [])).
Proof.
  apply (engine_and_mapper_agree_on_sqlite_tables "mysql" (MigrationJob.plain_table "customers" [])).
  - discriminate.
  - reflexivity.
Defined.
End SqliteTargetExtras.

Section BatchExtras.
Import Batches.

Lemma range_from_batches {A} (rows : list A) (step : nat) :
  0 < step ->
  forall fuel i, length rows - i <= fuel ->
    concat (map (fun j => slice_rows rows j (j + step))
                (range_from fuel i (length rows) step)) = drop i rows
    /\ Forall (fun b : list A => 0 < length b <= step)
         (map (fun j => slice_rows rows j (j + step))
              (range_from fuel i (length rows) step)).
Proof.
  intros Hstep. induction fuel as [|fuel IH]; intros i Hfuel.
  - simpl. split; [|constructor]. symmetry. apply drop_ge. lia.
  - simpl. destruct (Nat.ltb i (length rows)) eqn:E.
    + apply Nat.ltb_lt in E. destruct (IH (i + step) ltac:(lia)) as [IH1 IH2].
      simpl. split.
      * rewrite IH1. unfold slice_rows. replace (i + step - i) with step by lia.
        rewrite <- drop_drop. apply take_drop.
      * constructor; [|done]. unfold slice_rows. replace (i + step - i) with step by lia.
        rewrite length_take, length_drop. lia.
    + apply Nat.ltb_ge in E. simpl. split; [|constructor]. symmetry. apply drop_ge. lia.
Qed.

(** X27.  The batches handed to [executemany] are the rows themselves, in
    order and each once: concatenated they give the list of rows, no batch
    is empty, none has more than 1000 rows, and there is no batch at all
    when there is no row. *)
Theorem batches_cover_the_rows {A} (rows : list A) :
  concat (batches rows) = rows
  /\ Forall (fun b : list A => 0 < length b <= 1000) (batches rows)
  /\ (rows = [] -> batches rows = []).
Proof.
  unfold batches, batches_of, range.
  destruct (range_from_batches rows batch_size ltac:(unfold batch_size; lia)
              (length rows) 0 ltac:(lia)) as [H1 H2].
  split_and!; [exact H1 | exact H2 |]. intros ->. reflexivity.
Qed.
End BatchExtras.

(** ** The heuristic on binary values of 16 bytes *)

Section SixteenBytes.
Import Py ValueConverter ConverterSpec.

Lemma length_hex_digits k n : String.length (hex_digits k n) = k.
Proof.
  revert n. induction k as [|k IH]; intros n; [done|]. simpl.
  rewrite length_append, IH. simpl. lia.
Qed.

Lemma length_substring (s : string) i n :
  i + n <= String.length s -> String.length (substring i n s) = n.
Proof.
  revert i n. induction s as [|a s IH]; intros i n H; simpl in H.
  - destruct i, n; simpl; lia.
  - destruct i as [|i]; simpl.
    + destruct n as [|n]; [done|]. simpl. rewrite IH by lia. done.
    + apply IH. lia.
Qed.

Lemma length_cpython_uuid_str n : String.length (cpython_uuid_str n) = 36.
Proof.
  unfold cpython_uuid_str.
  rewrite !length_append, !length_substring by (rewrite length_hex_digits; lia).
  reflexivity.
Qed.

Lemma printable_ascii_not_rfc4122 (b : list byte) :
  printable_ascii b = true -> is_rfc4122_variant b = false.
Proof.
  intros H. unfold is_rfc4122_variant.
  destruct (nth_error b 8) as [x|] eqn:E; [|done].
  apply nth_error_In in E. unfold printable_ascii in H.
  rewrite forallb_forall in H. apply H in E.
  apply andb_true_iff in E as [_ E]. apply N.leb_le in E.
  apply N.eqb_neq. intros Hv.
  rewrite N.shiftr_div_pow2 in Hv.
  assert (Hx : (Byte.to_N x / 2 ^ 6 < 2)%N).
  { apply N.div_lt_upper_bound; [done|]. change (2 ^ 6 * 2)%N with 128%N. lia. }
  lia.
Qed.

(** C1.  [uuid.UUID(bytes=...)] accepts every value of 16 bytes, so the
    handlers that fall back to ASCII are never entered for such a value:
    from a SQLite source to MySQL or PostgreSQL, and on the way into
    MySQL, every 16-byte value is rendered as the text of the UUID with
    those bytes.  That holds of printable ASCII too, although no such
    value has the variant bits of an RFC 4122 UUID: it decodes as
    printable ASCII, and yet what is returned is neither that text nor
    its base64 encoding. *)
Theorem sixteen_bytes_always_render_as_uuid
    (utf8 : list byte -> Res pystr) (printable : N -> bool) (b : list byte) :
  length b = 16 ->
  let rt := cpython utf8 printable in
  let uuid_text := of_string (cpython_uuid_str (int_from_bytes b)) in
  (forall target_db_type, In target_db_type ["mysql"; "postgresql"] ->
     @_convert_data_for_target rt "sqlite" target_db_type (Bytes b) = Ok (Text uuid_text))
  /\ @convert_mysql_bytes rt b = Ok uuid_text
  /\ uuid_text <> b64_text b
  /\ (printable_ascii b = true ->
      is_rfc4122_variant b = false
      /\ decode_ascii b = Ok (map Byte.to_N b)
      /\ @isprintable rt (map Byte.to_N b) = true
      /\ uuid_text <> map Byte.to_N b).
Proof.
  intros Hlen rt uuid_text.
  destruct (cpython_16_bytes_always_uuid utf8 printable b Hlen) as [Hs Hm].
  assert (Hl : length uuid_text = 36).
  { unfold uuid_text. by rewrite length_of_string, length_cpython_uuid_str. }
  split_and!.
  - intros target_db_type Ht. unfold _convert_data_for_target.
    change ("sqlite" =? "mongodb") with false. cbn [andb negb].
    assert (Hm' : (target_db_type =? "mongodb") = false).
    { simpl in Ht. destruct Ht as [<-|[<-|[]]]; reflexivity. }
    assert (Hin : in_list target_db_type ["mysql"; "postgresql"] = true).
    { simpl in Ht. destruct Ht as [<-|[<-|[]]]; reflexivity. }
    rewrite Hm'. change ("sqlite" =? "sqlite") with true. rewrite Hin. cbn [andb raw].
    fold rt in Hs. rewrite Hs. reflexivity.
  - exact Hm.
  - intros Heq. apply (f_equal length) in Heq. rewrite Hl in Heq.
    unfold b64_text in Heq. rewrite length_of_string, length_b64encode_16 in Heq by done.
    discriminate.
  - intros Hpr. assert (Ha := printable_ascii_is_ascii b Hpr). split_and!.
    + by apply printable_ascii_not_rfc4122.
    + by apply is_ascii_decodes.
    + by rewrite (isprintable_ascii b Ha).
    + intros Heq. apply (f_equal length) in Heq. rewrite Hl, length_map, Hlen in Heq.
      discriminate.
Qed.

Lemma sixteen_bytes_always_render_as_uuid_witness :
  let rt := cpython utf8_on_ascii (fun _ => false) in
  let code := bytes_of_string "ABCDEFGHIJKLMNOP" in
  @_convert_data_for_target rt "sqlite" "postgresql" (Bytes code)
  = Ok (Text (of_string "41424344-4546-4748-494a-4b4c4d4e4f50"))
  /\ @convert_mysql_bytes rt code = Ok (of_string "41424344-4546-4748-494a-4b4c4d4e4f50")
  /\ is_rfc4122_variant code = false
  /\ decode_ascii code = Ok (of_string "ABCDEFGHIJKLMNOP")
  /\ @isprintable rt (of_string "ABCDEFGHIJKLMNOP") = true
  /\ of_string "41424344-4546-4748-494a-4b4c4d4e4f50" <> of_string "ABCDEFGHIJKLMNOP".
Proof.
  intros rt code.
  destruct (sixteen_bytes_always_render_as_uuid utf8_on_ascii (fun _ => false) code eq_refl)
    as (Hs & Hm & _ & Hascii).
  destruct (Hascii eq_refl) as (Hv & Hd & Hp & Hne).
  split_and!.
  - apply (Hs "postgresql"). simpl. tauto.
  - exact Hm.
  - exact Hv.
  - exact Hd.
  - exact Hp.
  - exact Hne.
Defined.

(** Where no such conversion takes place: [_convert_data_for_target]
    leaves the binary values of a MySQL or PostgreSQL source as they are,
    and gives the base64 text of every [bson.Binary] of the document
    engine, 16 bytes long or not. *)
Lemma binary_values_of_other_sources {rt : Runtime} (target_db_type : string) (val : BinaryValue) :
  (forall source_db_type, In source_db_type ["mysql"; "postgresql"] ->
     _convert_data_for_target source_db_type target_db_type val = Ok Unchanged)
  /\ (target_db_type <> "mongodb" ->
      _convert_data_for_target "mongodb" target_db_type (BsonBinary (raw val))
      = Ok (Text (b64_text (raw val)))).
Proof.
  split.
  - intros source_db_type Hs. unfold _convert_data_for_target.
    simpl in Hs. destruct Hs as [<-|[<-|[]]]; simpl; by destruct (target_db_type =? "mongodb").
  - intros Ht. apply String.eqb_neq in Ht. unfold _convert_data_for_target.
    change ("mongodb" =? "mongodb") with true. rewrite Ht. reflexivity.
Qed.
End SixteenBytes.
